(** * nf-core launch: interactive parameter collection and command synthesis

    A shallow embedding of [nf_core/launch.py] (class [Launch] and
    [launch_pipeline]) and the properties of its parameter catalog,
    grouping, interactive session, command builder and launch gate.

    Conventions of the embedding.
    - The module is read as CPython 3.6 with click 7 runs it.
    - Python values are the inductive [pyval]; floats are kept abstract
      behind the class [PyFloat].
    - Text is [string]; a character stands for a code point below 256.
      [str.isdigit] and [int] of a text, which follow the character
      tables of the interpreter, are the fields of the class [PyText],
      with the laws the proofs need; [Latin1] gives them in full for
      the code points below 256.
    - Dictionaries are insertion-ordered association lists ([dict]),
      because the code iterates over [items()].
    - The terminal, the log, the working directory and the commands
      that [launch.py] itself hands to [subprocess] are the record
      [World]; what its collaborators run is theirs.  Methods of
      [Launch] are functions [Launch -> IO Launch] in a
      state-and-exception monad.
    - [self.parameters] and [self.grouped_parameters] share their
      parameter objects: a reference to an object is its position in
      [self.parameters]. *)

From Stdlib Require Import String Ascii List ZArith Bool Lia Arith.
From Stdlib Require Import DecimalString.
Import ListNotations.

Local Open Scope string_scope.
Local Open Scope list_scope.
Set Warnings "-register-all".

Notation "a +++ b" := (String.append a b) (at level 60, right associativity).

(* ================================================================== *)
(** ** Text *)
(* ================================================================== *)

Module Text.

Definition dquote : ascii := Ascii.ascii_of_nat 34.
Definition squote : ascii := Ascii.ascii_of_nat 39.
Definition backslash : ascii := Ascii.ascii_of_nat 92.
Definition newline : string := String (Ascii.ascii_of_nat 10) EmptyString.

Definition chr (c : ascii) : string := String c EmptyString.

Fixpoint chars (s : string) : list ascii :=
  match s with
  | EmptyString => []
  | String c s' => c :: chars s'
  end.

(** [s.startswith(a)] *)
Fixpoint starts_with (a s : string) : bool :=
  match a, s with
  | EmptyString, _ => true
  | String _ _, EmptyString => false
  | String x a', String y s' => Ascii.eqb x y && starts_with a' s'
  end.

(** [sub in s] *)
Fixpoint contains (sub s : string) : bool :=
  starts_with sub s ||
  match s with
  | EmptyString => false
  | String _ s' => contains sub s'
  end.

(** [s.count(c)] for a one-character [c] *)
Fixpoint count_char (c : ascii) (s : string) : nat :=
  match s with
  | EmptyString => 0
  | String a s' => (if Ascii.eqb a c then 1 else 0) + count_char c s'
  end.

(** [s.split(c)] for a one-character separator: never the empty list *)
Fixpoint split_char (c : ascii) (s : string) : list string :=
  match s with
  | EmptyString => [EmptyString]
  | String a s' =>
      if Ascii.eqb a c then EmptyString :: split_char c s'
      else match split_char c s' with
           | [] => [chr a]
           | w :: ws => String a w :: ws
           end
  end.

Definition rev_string (s : string) : string :=
  String.string_of_list_ascii (rev (String.list_ascii_of_string s)).

Fixpoint lstrip_if (drop : ascii -> bool) (s : string) : string :=
  match s with
  | EmptyString => EmptyString
  | String a s' => if drop a then lstrip_if drop s' else s
  end.

Definition strip_if (drop : ascii -> bool) (s : string) : string :=
  rev_string (lstrip_if drop (rev_string (lstrip_if drop s))).

(** [s.strip(c)] for a one-character [c] *)
Definition strip_char (c : ascii) (s : string) : string :=
  strip_if (fun a => Ascii.eqb a c) s.

(** [c.isspace()] *)
Definition is_space (a : ascii) : bool :=
  let n := Ascii.nat_of_ascii a in
  (n =? 32)%nat || ((9 <=? n)%nat && (n <=? 13)%nat)
  || ((28 <=? n)%nat && (n <=? 31)%nat) || (n =? 133)%nat || (n =? 160)%nat.

(** [s.strip()] *)
Definition strip (s : string) : string := strip_if is_space s.

Definition lower_char (a : ascii) : ascii :=
  let n := Ascii.nat_of_ascii a in
  if ((65 <=? n)%nat && (n <=? 90)%nat)
     || ((192 <=? n)%nat && (n <=? 222)%nat && negb (n =? 215)%nat)
  then Ascii.ascii_of_nat (n + 32) else a.

(** [s.lower()] *)
Fixpoint lower (s : string) : string :=
  match s with
  | EmptyString => EmptyString
  | String a s' => String (lower_char a) (lower s')
  end.

Definition is_digit (a : ascii) : bool :=
  let n := Ascii.nat_of_ascii a in
  ((48 <=? n)%nat && (n <=? 57)%nat).

Fixpoint all_digits (s : string) : bool :=
  match s with
  | EmptyString => true
  | String a s' => is_digit a && all_digits s'
  end.

(** At least one character, and the characters 0 to 9 only. *)
Definition plain_digits (s : string) : bool :=
  match s with
  | EmptyString => false
  | _ => all_digits s
  end.

Definition digit_val (a : ascii) : Z := Z.of_nat (Ascii.nat_of_ascii a) - 48.

Fixpoint digits_acc (acc : Z) (s : string) : Z :=
  match s with
  | EmptyString => acc
  | String a s' => digits_acc (10 * acc + digit_val a) s'
  end.

(** [str(z)] *)
Definition string_of_Z (z : Z) : string :=
  NilZero.string_of_int (Z.to_int z).

(** [s.replace(c, new)] for a one-character [c] *)
Fixpoint replace_char (c : ascii) (new : string) (s : string) : string :=
  match s with
  | EmptyString => EmptyString
  | String a s' =>
      (if Ascii.eqb a c then new else chr a) +++ replace_char c new s'
  end.

(** [sep.join(l)] *)
Definition join (sep : string) (l : list string) : string :=
  String.concat sep l.

Fixpoint last_char (s : string) : option ascii :=
  match s with
  | EmptyString => None
  | String a EmptyString => Some a
  | String _ s' => last_char s'
  end.

(** [os.path.join(dir, name)] for a relative [name] *)
Definition path_join (dir name : string) : string :=
  match last_char dir with
  | None => name
  | Some a => if Ascii.eqb a "/" then dir +++ name else dir +++ "/" +++ name
  end.

End Text.

(* ================================================================== *)
(** ** Python values *)
(* ================================================================== *)

(** The two text builtins that follow the character tables of the
    interpreter.  [str.isdigit] is also true of digits that write no
    number ([int] raises on them), and [int] reads more than plain
    digits (blanks around, a sign, grouping underscores, other decimal
    digits).  The laws: on plain digits both are the positional
    reading, and [str.isdigit] is false of the empty text and of text
    with an ASCII character that is no digit. *)
Class PyText := {
  str_isdigit : string -> bool;        (* s.isdigit() *)
  int_of_str : string -> option Z;     (* int(s), None = ValueError *)
  isdigit_plain :
    forall s, Text.plain_digits s = true -> str_isdigit s = true;
  int_plain :
    forall s, Text.plain_digits s = true ->
              int_of_str s = Some (Text.digits_acc 0 s);
  isdigit_ascii :
    forall s, str_isdigit s = true ->
      s <> EmptyString
      /\ forall a, In a (Text.chars s) -> Ascii.nat_of_ascii a < 128 ->
                   Text.is_digit a = true
}.

(** The float builtin.  [launch.py] only converts to and from floats
    ([float(...)], [str(...)], comparison), so the representation and the
    parser stay abstract. *)
Class PyFloat := {
  pyfloat : Type;
  float_of_string : string -> option pyfloat; (* float(s), None = ValueError *)
  float_of_Z : Z -> option pyfloat;           (* float(n), None = OverflowError *)
  Z_of_float : pyfloat -> option Z;           (* int(x), None for inf and nan *)
  float_str : pyfloat -> string;              (* str(x) *)
  float_eqb : pyfloat -> pyfloat -> bool;     (* x == y *)
  float_eqb_Z : pyfloat -> Z -> bool;         (* x == n *)
  float_nonzero : pyfloat -> bool             (* bool(x) *)
}.

Inductive exn : Type :=
| Abort            (* click.Abort: end of input at a prompt *)
| ValueError
| TypeError
| AttributeError
| OverflowError
| KeyError
| AssertionError
| IndexError       (* a reference outside self.parameters *)
| FuelOut.         (* the bound of a modelled while loop was reached *)

Inductive res (A : Type) : Type :=
| Ok (a : A)
| Raise (e : exn).
Arguments Ok {A} a.
Arguments Raise {A} e.

(** State and exceptions: a computation reads and writes a state [W] and
    either returns or raises; the state reached before a raise is kept. *)
Definition M (W A : Type) : Type := W -> res A * W.

Definition ret {W A} (a : A) : M W A := fun w => (Ok a, w).

Definition bind {W A B} (m : M W A) (k : A -> M W B) : M W B :=
  fun w => match m w with
           | (Ok a, w') => k a w'
           | (Raise e, w') => (Raise e, w')
           end.

Definition raise {W A} (e : exn) : M W A := fun w => (Raise e, w).

Definition lift {W A} (r : res A) : M W A := fun w => (r, w).

Declare Scope io_scope.
Delimit Scope io_scope with io.
Notation "x <- m ;; k" := (bind m (fun x => k))
  (at level 61, m at next level, right associativity) : io_scope.
Notation "m ;;; k" := (bind m (fun _ => k))
  (at level 61, right associativity) : io_scope.

Local Open Scope io_scope.

(** A [for] loop that threads the object it updates. *)
Fixpoint foldM {W A B} (f : B -> A -> M W B) (l : list A) (b : B) : M W B :=
  match l with
  | [] => ret b
  | a :: l' => b' <- f b a ;; foldM f l' b'
  end.

Definition of_option {A} (e : exn) (o : option A) : res A :=
  match o with
  | Some a => Ok a
  | None => Raise e
  end.

Section Model.
Context `{PyFloat} `{PyText}.

Inductive pyval : Type :=
| VNone
| VBool (b : bool)
| VInt (z : Z)
| VFloat (x : pyfloat)
| VStr (s : string).

Definition Z_of_bool (b : bool) : Z := if b then 1%Z else 0%Z.

(** [a == b] *)
Definition py_eqb (a b : pyval) : bool :=
  match a, b with
  | VNone, VNone => true
  | VBool x, VBool y => Bool.eqb x y
  | VBool x, VInt y | VInt y, VBool x => Z.eqb (Z_of_bool x) y
  | VInt x, VInt y => Z.eqb x y
  | VFloat x, VFloat y => float_eqb x y
  | VFloat x, VInt y | VInt y, VFloat x => float_eqb_Z x y
  | VFloat x, VBool y | VBool y, VFloat x => float_eqb_Z x (Z_of_bool y)
  | VStr x, VStr y => String.eqb x y
  | _, _ => false
  end.

(** [bool(a)] *)
Definition py_truthy (a : pyval) : bool :=
  match a with
  | VNone => false
  | VBool b => b
  | VInt z => negb (Z.eqb z 0)
  | VFloat x => float_nonzero x
  | VStr s => negb (String.eqb s "")
  end.

(** [str(a)] *)
Definition py_str (a : pyval) : string :=
  match a with
  | VNone => "None"
  | VBool true => "True"
  | VBool false => "False"
  | VInt z => Text.string_of_Z z
  | VFloat x => float_str x
  | VStr s => s
  end.

(** [int(a)] *)
Definition py_int (a : pyval) : res Z :=
  match a with
  | VNone => Raise TypeError
  | VBool b => Ok (Z_of_bool b)
  | VInt z => Ok z
  | VFloat x => of_option OverflowError (Z_of_float x)
  | VStr s => of_option ValueError (int_of_str s)
  end.

(** [float(a)] *)
Definition py_float (a : pyval) : res pyfloat :=
  match a with
  | VNone => Raise TypeError
  | VBool b => of_option OverflowError (float_of_Z (Z_of_bool b))
  | VInt z => of_option OverflowError (float_of_Z z)
  | VFloat x => Ok x
  | VStr s => of_option ValueError (float_of_string s)
  end.

(** [repr(a)] as it shows inside [str(list)]; text is quoted with single
    quotes, the escapes of [repr] are left out. *)
Definition py_repr (a : pyval) : string :=
  match a with
  | VStr s => "'" +++ s +++ "'"
  | _ => py_str a
  end.

(** [str(l)] for a list *)
Definition py_str_list (l : list pyval) : string :=
  "[" +++ Text.join ", " (map py_repr l) +++ "]".

(** The runtime type of a value, under the names the catalog uses for
    declared types. *)
Definition runtime_type (a : pyval) : option string :=
  match a with
  | VNone => None
  | VBool _ => Some "boolean"
  | VInt _ => Some "integer"
  | VFloat _ => Some "decimal"
  | VStr _ => Some "string"
  end.

(* ---------------------------------------------------------------- *)
(** ** Dictionaries *)
(* ---------------------------------------------------------------- *)

Definition dict (V : Type) : Type := list (string * V).

Fixpoint dict_get {V} (k : string) (d : dict V) : option V :=
  match d with
  | [] => None
  | (k', v) :: d' => if String.eqb k k' then Some v else dict_get k d'
  end.

Definition dict_mem {V} (k : string) (d : dict V) : bool :=
  match dict_get k d with
  | Some _ => true
  | None => false
  end.

(** [d[k] = v]: an existing key keeps its position, a new one goes last *)
Fixpoint dict_set {V} (k : string) (v : V) (d : dict V) : dict V :=
  match d with
  | [] => [(k, v)]
  | (k', v') :: d' =>
      if String.eqb k k' then (k, v) :: d' else (k', v') :: dict_set k v d'
  end.

Definition dict_keys {V} (d : dict V) : list string := map fst d.

(* ---------------------------------------------------------------- *)
(** ** The catalog entry *)
(* ---------------------------------------------------------------- *)

(** Modelled from the spec: [nf_core.workflow.parameters.Parameter] (the
    module is not part of the sources at hand).  The fields are those
    of the data model; [value] is the current value. *)
Record Param : Type := mkParam {
  name : string;
  label : option string;
  usage : option string;
  param_type : string;
  choices : option (list pyval);
  default_value : pyval;
  value : pyval;
  pattern : string;
  render : string;
  arity : option Z;
  group : string
}.

Definition set_value (v : pyval) (p : Param) : Param :=
  mkParam (name p) (label p) (usage p) (param_type p) (choices p)
          (default_value p) v (pattern p) (render p) (arity p) (group p).

(** JSON documents, the bodies of the two record files. *)
Inductive json : Type :=
| JNull
| JBool (b : bool)
| JInt (z : Z)
| JFloat (x : pyfloat)
| JStr (s : string)
| JList (l : list json)
| JObj (fields : list (string * json)).

Definition json_of_pyval (a : pyval) : json :=
  match a with
  | VNone => JNull
  | VBool b => JBool b
  | VInt z => JInt z
  | VFloat x => JFloat x
  | VStr s => JStr s
  end.

Definition json_of_option {A} (f : A -> json) (o : option A) : json :=
  match o with
  | Some a => f a
  | None => JNull
  end.

(** Modelled from the spec: [Parameters.in_nextflow_json], missing with
    its module; the name to current value mapping of every parameter
    of the catalog, in catalog order. *)
Definition in_nextflow_json (ps : list Param) : json :=
  JObj (map (fun p => (name p, json_of_pyval (value p))) ps).

(** Modelled from the spec: [Parameters.in_full_json], missing with its
    module; for every parameter its name and type, label, usage,
    choices, group and value. *)
Definition in_full_json (ps : list Param) : json :=
  JObj (map (fun p =>
    (name p,
     JObj [("type", JStr (param_type p));
           ("label", json_of_option JStr (label p));
           ("usage", json_of_option JStr (usage p));
           ("choices", json_of_option
                         (fun l => JList (map json_of_pyval l)) (choices p));
           ("group", JStr (group p));
           ("value", json_of_pyval (value p))])) ps).

(* ---------------------------------------------------------------- *)
(** ** The world outside the launcher *)
(* ---------------------------------------------------------------- *)

Record World : Type := mkWorld {
  stdin : list string;             (* lines the operator will type *)
  console : list string;           (* what was shown, oldest first *)
  logs : list (string * string);   (* logging records: level, message *)
  files : dict json;               (* files written: path, body *)
  calls : list string              (* commands the module hands to subprocess *)
}.

Definition IO (A : Type) : Type := M World A.

Definition with_stdin (l : list string) (w : World) : World :=
  mkWorld l (console w) (logs w) (files w) (calls w).

Definition show (s : string) (w : World) : World :=
  mkWorld (stdin w) (console w ++ [s]) (logs w) (files w) (calls w).

(** [click.echo] and [click.secho]; colours and underlines are not
    recorded. *)
Definition echo (s : string) : IO unit := fun w => (Ok tt, show s w).

(** [logging.<level>(msg)] *)
Definition logging (level msg : string) : IO unit :=
  fun w => (Ok tt, mkWorld (stdin w) (console w) (logs w ++ [(level, msg)])
                           (files w) (calls w)).

(** [with open(path, "w") as fp: fp.write(body)] *)
Definition write_file (path : string) (body : json) : IO unit :=
  fun w => (Ok tt, mkWorld (stdin w) (console w) (logs w)
                           (dict_set path body (files w)) (calls w)).

(** [subprocess.call(cmd, shell=True)]; the exit status is dropped *)
Definition subprocess_call (cmd : string) : IO unit :=
  fun w => (Ok tt, mkWorld (stdin w) (console w) (logs w) (files w)
                           (calls w ++ [cmd])).

(** [subprocess.check_output(argv)]: the command is recorded as one
    line; how it ends is told by the environment. *)
Definition subprocess_check_output (cmd : string) : IO unit :=
  fun w => (Ok tt, mkWorld (stdin w) (console w) (logs w) (files w)
                           (calls w ++ [cmd])).

(** How [subprocess.check_output] can fail. *)
Inductive pull_failure : Type :=
| NoSuchProgram      (* OSError with errno ENOENT *)
| OtherOSError       (* OSError with another errno *)
| NonZeroExit.       (* CalledProcessError *)


(* ------------------------------------------------------------------ *)
(** ** The prompts of click *)
(* ------------------------------------------------------------------ *)

(** The parameter types click picks for a prompt without [type=]. *)
Inductive click_type : Type := STRING | INT | FLOAT.

(** [click.types.convert_type(None, default)]: the type is guessed from
    the default.  An int default gives [INT], a float default [FLOAT];
    [None], text and (as a guessed type, in click 7) a bool give
    [STRING]. *)
Definition convert_type (default : pyval) : click_type :=
  match default with
  | VInt _ => INT
  | VFloat _ => FLOAT
  | _ => STRING
  end.

(** [value_proc(value)]: the converted value, or the message of the
    [UsageError]. *)
Definition click_convert (t : click_type) (s : string) : pyval + string :=
  match t with
  | STRING => inl (VStr s)
  | INT => match int_of_str s with
           | Some z => inl (VInt z)
           | None => inr (s +++ " is not a valid integer")
           end
  | FLOAT => match float_of_string s with
             | Some x => inl (VFloat x)
             | None => inr (s +++ " is not a valid floating point value")
             end
  end.

(** The loop of [click.prompt]: an empty line returns the default when
    there is one and asks again otherwise; a line that does not convert
    shows the error and asks again; the end of the input aborts. *)
Fixpoint prompt_loop (prompt : string) (default : pyval)
    (lines : list string) (w : World) : res pyval * World :=
  match lines with
  | [] => (Raise Abort, with_stdin [] (show prompt w))
  | l :: rest =>
      let w1 := with_stdin rest (show prompt w) in
      if String.eqb l "" then
        match default with
        | VNone => prompt_loop prompt default rest w1
        | _ => (Ok default, w1)
        end
      else
        match click_convert (convert_type default) l with
        | inl v => (Ok v, w1)
        | inr msg => prompt_loop prompt default rest (show ("Error: " +++ msg) w1)
        end
  end.

(** [click.prompt(text, default=default, show_default=False)] *)
Definition click_prompt (text : string) (default : pyval) : IO pyval :=
  fun w => prompt_loop (text +++ ": ") default (stdin w) w.

(** The loop of [click.confirm]. *)
Fixpoint confirm_loop (prompt : string) (default : pyval)
    (lines : list string) (w : World) : res pyval * World :=
  match lines with
  | [] => (Raise Abort, with_stdin [] (show prompt w))
  | l :: rest =>
      let w1 := with_stdin rest (show prompt w) in
      let v := Text.strip (Text.lower l) in
      if String.eqb v "y" || String.eqb v "yes" then (Ok (VBool true), w1)
      else if String.eqb v "n" || String.eqb v "no" then (Ok (VBool false), w1)
      else if String.eqb v "" then (Ok default, w1)
      else confirm_loop prompt default rest (show "Error: invalid input" w1)
  end.

(** [click.confirm(text, default=default, show_default=False)] *)
Definition click_confirm (text : string) (default : pyval) : IO pyval :=
  fun w => confirm_loop (text +++ ": ") default (stdin w) w.

(* ------------------------------------------------------------------ *)
(** ** The launcher object *)
(* ------------------------------------------------------------------ *)

(** What the launcher reads of an [nf_core.list.LocalWorkflow]. *)
Record LocalWorkflow : Type := mkLocalWorkflow {
  full_name : string;
  local_path : string
}.

(** The collaborators of the launcher. *)
Record Env : Type := mkEnv {
  path_exists : string -> bool;           (* os.path.exists *)
  getenv_NXF_WORK : option string;        (* os.getenv('NXF_WORK') *)
  local_workflows : list LocalWorkflow;   (* Workflows().local_workflows *)
  nextflow_pull : string -> option LocalWorkflow; (* nextflow pull, None = failure *)
  pull_error : string -> pull_failure;    (* how the pull fails, when it does *)
  parameter_settings : option (list Param); (* the parsed parameters.settings.json *)
  fetch_wf_config : string -> dict string; (* nf_core.utils.fetch_wf_config *)
  getcwd : string;                        (* os.getcwd() when called *)
  getcwd_at_import : string;              (* os.getcwd() when launch.py was loaded *)
  validate : Param -> option string       (* parameter.validate(): the error raised *)
}.

Record Launch : Type := mkLaunch {
  workflow : string;
  local_wf : option LocalWorkflow;
  nxf_flag_defaults : dict pyval;
  nxf_flag_help : dict string;
  nxf_flags : dict pyval;
  parameters : list Param;
  grouped_parameters : dict (list nat);
  params_user : dict pyval;
  nextflow_cmd : string;
  use_params_file : bool
}.

Definition set_local_wf (x : option LocalWorkflow) (L : Launch) : Launch :=
  mkLaunch (workflow L) x (nxf_flag_defaults L) (nxf_flag_help L)
    (nxf_flags L) (parameters L) (grouped_parameters L) (params_user L)
    (nextflow_cmd L) (use_params_file L).

Definition set_nxf_flags (x : dict pyval) (L : Launch) : Launch :=
  mkLaunch (workflow L) (local_wf L) (nxf_flag_defaults L) (nxf_flag_help L)
    x (parameters L) (grouped_parameters L) (params_user L)
    (nextflow_cmd L) (use_params_file L).

Definition set_parameters (x : list Param) (L : Launch) : Launch :=
  mkLaunch (workflow L) (local_wf L) (nxf_flag_defaults L) (nxf_flag_help L)
    (nxf_flags L) x (grouped_parameters L) (params_user L)
    (nextflow_cmd L) (use_params_file L).

Definition set_grouped_parameters (x : dict (list nat)) (L : Launch) : Launch :=
  mkLaunch (workflow L) (local_wf L) (nxf_flag_defaults L) (nxf_flag_help L)
    (nxf_flags L) (parameters L) x (params_user L)
    (nextflow_cmd L) (use_params_file L).

Definition set_nextflow_cmd (x : string) (L : Launch) : Launch :=
  mkLaunch (workflow L) (local_wf L) (nxf_flag_defaults L) (nxf_flag_help L)
    (nxf_flags L) (parameters L) (grouped_parameters L) (params_user L)
    x (use_params_file L).

(** The test of [__init__] for putting the organisation in front. *)
Definition prepends (env : Env) (workflow : string) : bool :=
  negb (Text.contains "nf-core" workflow)
  && (Text.count_char "/" workflow =? 0)%nat
  && negb (path_exists env workflow).

Definition find_local_wf (workflow : string) (wfs : list LocalWorkflow)
  : option LocalWorkflow :=
  fold_left (fun found wf =>
               if String.eqb workflow (full_name wf) then Some wf else found)
            wfs None.

(** [os.getenv('NXF_WORK') if os.getenv('NXF_WORK') else './work'] *)
Definition default_work_dir (env : Env) : string :=
  match getenv_NXF_WORK env with
  | Some d => if String.eqb d "" then "./work" else d
  | None => "./work"
  end.

(** The placeholder fields of [__init__], for the final [workflow]. *)
Definition new_launcher (env : Env) (workflow : string) : Launch :=
  {| workflow := workflow;
     local_wf := find_local_wf workflow (local_workflows env);
     nxf_flag_defaults :=
       [("-name", VNone);
        ("-r", VNone);
        ("-profile", VStr "standard");
        ("-w", VStr (default_work_dir env));
        ("-resume", VBool false)];
     nxf_flag_help :=
       [("-name", "Unique name for this nextflow run");
        ("-r", "Release / revision to use");
        ("-profile", "Config profile to use");
        ("-w", "Work directory for intermediate files");
        ("-resume", "Resume a previous workflow run")];
     nxf_flags := [];
     parameters := [];
     grouped_parameters := [];
     params_user := [];
     nextflow_cmd := "nextflow run " +++ workflow;
     use_params_file := true |}.

(** [Launch.__init__] *)
Definition init (env : Env) (workflow : string) : IO Launch :=
  let prepend := prepends env workflow in
  let workflow := if prepend then "nf-core/" +++ workflow else workflow in
  (if prepend then logging "debug" "Prepending nf-core/ to workflow"
   else ret tt) ;;;
  logging "info" ("Launching " +++ workflow) ;;;
  ret (new_launcher env workflow).

(** The line for [['nextflow', 'pull', workflow]]. *)
Definition pull_command (workflow : string) : string :=
  "nextflow pull " +++ workflow.

(** [Launch.get_local_wf]: the workflow is pulled under the name kept by
    [__init__] when no local copy was found.  A missing program and a
    non-zero exit become [AssertionError]; any other [OSError] is caught
    and dropped, and the method returns without a local copy. *)
Definition get_local_wf (env : Env) (L : Launch) : IO Launch :=
  match local_wf L with
  | Some _ => ret L
  | None =>
      logging "info" ("Downloading workflow: " +++ workflow L) ;;;
      subprocess_check_output (pull_command (workflow L)) ;;;
      match nextflow_pull env (workflow L) with
      | Some wf => ret (set_local_wf (Some wf) L)
      | None =>
          match pull_error env (workflow L) with
          | NoSuchProgram => raise AssertionError
          | OtherOSError => ret L
          | NonZeroExit => raise AssertionError
          end
      end
  end.

(** [if params_local_uri:] *)
Definition given (params_local_uri : option string) : bool :=
  match params_local_uri with
  | Some s => negb (String.eqb s "")
  | None => false
  end.

(** [Launch.parse_parameter_settings].  Without a file named by the
    caller the file of the local copy is looked for, and
    [self.local_wf.local_path] raises [AttributeError] when there is
    no local copy. *)
Definition parse_parameter_settings (env : Env)
    (params_local_uri : option string) (L : Launch) : IO Launch :=
  (if given params_local_uri then ret tt
   else match local_wf L with
        | Some _ => ret tt
        | None => raise AttributeError
        end) ;;;
  match parameter_settings env with
  | Some ps => ret (set_parameters ps L)
  | None =>
      echo ("WARNING: Could not parse parameter settings file for `"
            +++ workflow L +++ "`:" +++ Text.newline
            +++ "  parameters.settings.json file not found") ;;;
      ret L
  end.

(* ------------------------------------------------------------------ *)
(** ** The catalog from the workflow configuration *)
(* ------------------------------------------------------------------ *)

(** The guess of the type and default of a parameter from the text of
    its configured value (the body of the loop of
    [collect_pipeline_param_defaults], up to the builder). *)
Definition guess_param (value : string) : res (string * pyval) :=
  let numeric :=
    if str_isdigit value then
      match int_of_str value with
      | Some z => Ok ("integer", VInt z)
      | None => Raise ValueError
      end
    else
      match float_of_string value with
      | Some x => Ok ("decimal", VFloat x)
      | None => Ok ("string", VStr value)
      end in
  match numeric with
  | Ok guess =>
      if String.eqb value "true" || String.eqb value "false"
      then Ok ("boolean", VBool (String.eqb value "true"))
      else Ok guess
  | Raise e => Raise e
  end.

(** Modelled from the spec: [Parameter.builder()...build()], missing with
    [nf_core.workflow.parameters]; the current value starts as the
    default. *)
Definition build_param (name : string) (p_type : string) (p_default : pyval)
  : Param :=
  {| name := name; label := None; usage := None; param_type := p_type;
     choices := None; default_value := p_default; value := p_default;
     pattern := ".*"; render := "textfield"; arity := None;
     group := "Pipeline parameters" |}.

Definition collect_item (ps : list Param) (item : string * string)
  : res (list Param) :=
  let (key, value) := item in
  match Text.split_char "." key with
  | [k0; k1] =>
      if String.eqb k0 "params" then
        match guess_param value with
        | Ok (p_type, p_default) => Ok (ps ++ [build_param k1 p_type p_default])
        | Raise e => Raise e
        end
      else Ok ps
  | _ => Ok ps
  end.

Fixpoint collect_items (items : dict string) (ps : list Param)
  : res (list Param) :=
  match items with
  | [] => Ok ps
  | item :: items' =>
      match collect_item ps item with
      | Ok ps' => collect_items items' ps'
      | Raise e => Raise e
      end
  end.

(** [Launch.collect_pipeline_param_defaults] *)
Definition collect_pipeline_param_defaults (env : Env) (L : Launch)
  : IO Launch :=
  logging "info" ("Collecting pipeline parameter defaults" +++ Text.newline) ;;;
  ps <- lift (collect_items (fetch_wf_config env (workflow L)) (parameters L)) ;;
  ret (set_parameters ps L).

(* ------------------------------------------------------------------ *)
(** ** The run flags *)
(* ------------------------------------------------------------------ *)

(** The [try] block of [prompt_core_nxf_flags]: quotes are trimmed and
    the words true and false become booleans; a value that is not text
    raises [AttributeError] at [strip] and is kept as it is. *)
Definition normalize_flag (f_user : pyval) : pyval :=
  match f_user with
  | VStr s =>
      let s' := Text.strip_char Text.squote (Text.strip_char Text.dquote s) in
      if String.eqb (Text.lower s') "true" then VBool true
      else if String.eqb (Text.lower s') "false" then VBool false
      else VStr s'
  | other => other
  end.

Definition flag_prompt_text (help flag : string) (f_default : pyval) : string :=
  let f_default_print :=
    match f_default with
    | VNone => "None"
    | VBool b => if b then "Y/n" else "y/N"
    | d => py_str d
    end in
  Text.newline +++ help +++ Text.newline +++ " " +++ flag +++ " "
  +++ "[" +++ f_default_print +++ "]".

(** The default handed to click: [None] is replaced by the empty text. *)
Definition prompt_default (f_default : pyval) : pyval :=
  match f_default with
  | VNone => VStr ""
  | d => d
  end.

(** One round of the loop of [prompt_core_nxf_flags]. *)
Definition prompt_flag (L : Launch) (item : string * pyval) : IO Launch :=
  let (flag, f_default0) := item in
  let f_default := prompt_default f_default0 in
  help <- lift (of_option KeyError (dict_get flag (nxf_flag_help L))) ;;
  f_user <- click_prompt (flag_prompt_text help flag f_default0) f_default ;;
  if negb (py_eqb f_user f_default)
  then ret (set_nxf_flags (dict_set flag (normalize_flag f_user) (nxf_flags L)) L)
  else ret L.

(** [Launch.prompt_core_nxf_flags] *)
Definition prompt_core_nxf_flags (L : Launch) : IO Launch :=
  echo "Main nextflow options" ;;;
  foldM prompt_flag (nxf_flag_defaults L) L.

(* ------------------------------------------------------------------ *)
(** ** Grouping *)
(* ------------------------------------------------------------------ *)

Definition enumerate {A} (l : list A) : list (nat * A) :=
  combine (seq 0 (length l)) l.

(** One round of the loop of [group_parameters]; [i] stands for the
    object [param]. *)
Definition group_one (g : dict (list nat)) (ip : nat * Param)
  : dict (list nat) :=
  let (i, param) := ip in
  let g1 := if negb (dict_mem (group param) g)
            then dict_set (group param) [] g else g in
  match dict_get (group param) g1 with
  | Some l => dict_set (group param) (l ++ [i]) g1
  | None => g1
  end.

(** [Launch.group_parameters] *)
Definition group_parameters (L : Launch) : Launch :=
  set_grouped_parameters
    (fold_left group_one (enumerate (parameters L)) (grouped_parameters L)) L.

(* ------------------------------------------------------------------ *)
(** ** The parameter prompts *)
(* ------------------------------------------------------------------ *)

Definition truthy_text (o : option string) : bool :=
  match o with
  | Some s => negb (String.eqb s "")
  | None => false
  end.

Definition truthy_list {A} (o : option (list A)) : bool :=
  match o with
  | Some (_ :: _) => true
  | _ => false
  end.

(** The lines shown for a parameter. *)
Definition param_plines (parameter : Param) (first_attempt : bool)
  : list string :=
  let plines0 :=
    [""]
    ++ (if truthy_text (label parameter)
        then [match label parameter with Some s => s | None => "" end] else [])
    ++ (if truthy_text (usage parameter)
        then [match usage parameter with Some s => s | None => "" end] else [])
    ++ (if truthy_list (choices parameter)
        then [(if String.eqb (param_type parameter) "string"
               then "Choices" else "Range")
              +++ ": "
              +++ py_str_list (match choices parameter with
                               | Some l => l | None => [] end)]
        else []) in
  let pdef_val :=
    if String.eqb (param_type parameter) "boolean"
    then (if py_truthy (default_value parameter) then "Y/n" else "y/N")
    else py_str (default_value parameter) in
  let flag_prompt := " --" +++ name parameter +++ " " +++ "[" +++ pdef_val +++ "]" in
  if first_attempt then plines0 ++ [flag_prompt] else [flag_prompt].

(** "Set input parameter types" *)
Definition coerce (p_type : string) (v : pyval) : res pyval :=
  if String.eqb p_type "integer" then
    match py_int v with Ok z => Ok (VInt z) | Raise e => Raise e end
  else if String.eqb p_type "decimal" then
    match py_float v with Ok x => Ok (VFloat x) | Raise e => Raise e end
  else Ok (VStr (py_str v)).

(** [parameter.value = v] for the object at position [i] *)
Fixpoint store_value (i : nat) (v : pyval) (ps : list Param) : list Param :=
  match i, ps with
  | _, [] => []
  | O, p :: ps' => set_value v p :: ps'
  | S i', p :: ps' => p :: store_value i' v ps'
  end.

(** One reading of a value: [click.confirm] for a boolean parameter and
    [click.prompt] for any other, then the cast to the declared type. *)
Definition ask_value (parameter : Param) (first_attempt : bool) : IO pyval :=
  let text := Text.join Text.newline (param_plines parameter first_attempt) in
  answer <- (if String.eqb (param_type parameter) "boolean"
             then click_confirm text (default_value parameter)
             else click_prompt text (default_value parameter)) ;;
  lift (coerce (param_type parameter) answer).

(** The [while not value_is_valid] loop for the parameter object at
    position [i].  Every round reads at least one line or aborts, so
    [fuel] counts the rounds still allowed. *)
Fixpoint prompt_value (env : Env) (fuel : nat) (i : nat)
    (first_attempt : bool) (L : Launch) : IO Launch :=
  match fuel with
  | O => raise FuelOut
  | S fuel' =>
      parameter <- lift (of_option IndexError (nth_error (parameters L) i)) ;;
      v <- ask_value parameter first_attempt ;;
      let L' := set_parameters (store_value i v (parameters L)) L in
      match validate env (set_value v parameter) with
      | Some e =>
          echo (Text.newline +++ "ERROR: " +++ e) ;;;
          echo "Please try again:" ;;;
          prompt_value env fuel' i false L'
      | None => ret L'
      end
  end.

(** The body of [for parameter in params]. *)
Definition prompt_parameter (env : Env) (L : Launch) (i : nat) : IO Launch :=
  fun w => prompt_value env (S (length (stdin w))) i true L w.

(** The body of the loop over the groups. *)
Definition prompt_group (env : Env) (L : Launch) (item : string * list nat)
  : IO Launch :=
  let (group_label, params) := item in
  echo (Text.newline +++ Text.newline +++ "Parameter group: " +++ group_label) ;;;
  use_defaults <- click_confirm
    "Do you want to change the group's defaults? [y/N]" (VBool false) ;;
  if negb (py_truthy use_defaults) then ret L
  else foldM (prompt_parameter env) params L.

(** [Launch.prompt_param_flags] *)
Definition prompt_param_flags (env : Env) (L : Launch) : IO Launch :=
  foldM (prompt_group env) (grouped_parameters L) L.

(* ------------------------------------------------------------------ *)
(** ** The command *)
(* ------------------------------------------------------------------ *)

(** [val.replace('"', '\\"')] *)
Definition escape_quotes (s : string) : string :=
  Text.replace_char Text.dquote
    (String Text.backslash (Text.chr Text.dquote)) s.

Definition quoted (s : string) : string :=
  Text.chr Text.dquote +++ s +++ Text.chr Text.dquote.

(** One round of either loop of [build_command]: [dashes] is empty for a
    run flag and two dashes for a parameter. *)
Definition add_token (dashes level msg : string) (cmd : string)
    (item : string * pyval) : IO string :=
  let (flag, val) := item in
  match val with
  | VBool true => ret (cmd +++ " " +++ dashes +++ flag)
  | VBool false => logging level msg ;;; ret cmd
  | VStr s => ret (cmd +++ " " +++ dashes +++ flag +++ " " +++ quoted (escape_quotes s))
  | _ => raise AttributeError
  end.

Definition add_flag : string -> string * pyval -> IO string :=
  add_token "" "warning" "TODO: Can't set false boolean flags currently.".

Definition add_param : string -> string * pyval -> IO string :=
  add_token "--" "error" "Can't set false boolean flags.".

(** [Launch.create_nfx_params_file] *)
Definition create_nfx_params_file (env : Env) (L : Launch) : IO string :=
  let output_file := Text.path_join (getcwd env) "nfx-params.json" in
  write_file output_file (in_nextflow_json (parameters L)) ;;;
  ret output_file.

(** [Launch.write_params_as_full_json], with its default [outdir] *)
Definition write_params_as_full_json (env : Env) (L : Launch) : IO string :=
  let output_file := Text.path_join (getcwd_at_import env) "full-params.json" in
  write_file output_file (in_full_json (parameters L)) ;;;
  ret output_file.

(** [Launch.build_command] *)
Definition build_command (env : Env) (L : Launch) : IO Launch :=
  cmd <- foldM add_flag (nxf_flags L) (nextflow_cmd L) ;;
  if use_params_file L then
    path <- create_nfx_params_file env L ;;
    let cmd' := cmd +++ " " +++ "--params-file" +++ " " +++ quoted path in
    write_params_as_full_json env L ;;;
    ret (set_nextflow_cmd cmd' L)
  else
    cmd' <- foldM add_param (params_user L) cmd ;;
    ret (set_nextflow_cmd cmd' L).

(* ------------------------------------------------------------------ *)
(** ** The launch *)
(* ------------------------------------------------------------------ *)

(** [Launch.launch_workflow] *)
Definition launch_workflow (L : Launch) : IO unit :=
  echo (Text.newline +++ Text.newline +++ "Nextflow command:") ;;;
  echo ("  " +++ nextflow_cmd L +++ Text.newline +++ Text.newline) ;;;
  run <- click_confirm "Do you want to run this command now? [y/N]" (VBool false) ;;
  if py_truthy run then
    logging "info" "Launching workflow!" ;;;
    subprocess_call (nextflow_cmd L)
  else ret tt.

(** [launch_pipeline] *)
Definition launch_pipeline (env : Env) (workflow : string)
    (params_local_uri : option string) (direct : bool) : IO unit :=
  launcher <- init env workflow ;;
  launcher <- get_local_wf env launcher ;;
  launcher <- parse_parameter_settings env params_local_uri launcher ;;
  launcher <- (if (length (parameters launcher) =? 0)%nat
               then collect_pipeline_param_defaults env launcher
               else ret launcher) ;;
  let launcher := group_parameters launcher in
  launcher <- prompt_core_nxf_flags launcher ;;
  launcher <- (if negb direct then prompt_param_flags env launcher
               else ret launcher) ;;
  launcher <- build_command env launcher ;;
  launch_workflow launcher.

End Model.

(* ================================================================== *)
(** ** A decimal stand-in for the float builtin *)
(* ================================================================== *)

(** Closed runs of the launcher need some [PyFloat].  This one reads
    plain decimal notation (a sign, digits, at most one point) and keeps
    the number exactly as a mantissa and a count of decimal places. *)
Module Decimal.

Record t : Type := mk { mant : Z; places : nat }.

Definition signed (s : string) : bool * string :=
  match s with
  | String "-" b => (true, b)
  | String "+" b => (false, b)
  | b => (false, b)
  end.

Definition of_digits (neg : bool) (ds : string) (p : nat) : t :=
  let m := Text.digits_acc 0 ds in
  mk (if neg then (- m)%Z else m) p.

Definition of_string (s : string) : option t :=
  let (neg, body) := signed (Text.strip s) in
  match Text.split_char "." body with
  | [ip] => if Text.plain_digits ip then Some (of_digits neg ip 0) else None
  | [ip; fp] =>
      if Text.all_digits ip && Text.all_digits fp
         && Text.plain_digits (ip +++ fp)
      then Some (of_digits neg (ip +++ fp) (String.length fp))
      else None
  | _ => None
  end.

Definition scale (p : nat) : Z := (10 ^ Z.of_nat p)%Z.

Definition to_Z (x : t) : option Z := Some (Z.quot (mant x) (scale (places x))).

Fixpoint zeros (n : nat) : string :=
  match n with
  | O => ""
  | S n' => "0" +++ zeros n'
  end.

Definition to_string (x : t) : string :=
  let a := Z.abs (mant x) in
  let frac := Text.string_of_Z (Z.modulo a (scale (places x))) in
  (if (mant x <? 0)%Z then "-" else "")
  +++ Text.string_of_Z (Z.div a (scale (places x))) +++ "."
  +++ match places x with
      | O => "0"
      | p => zeros (p - String.length frac) +++ frac
      end.

Definition eqb (x y : t) : bool :=
  (mant x * scale (places y) =? mant y * scale (places x))%Z.

Definition eqb_Z (x : t) (z : Z) : bool :=
  (mant x =? z * scale (places x))%Z.

End Decimal.

Definition DecimalFloat : PyFloat := {|
  pyfloat := Decimal.t;
  float_of_string := Decimal.of_string;
  float_of_Z := fun z => Some (Decimal.mk z 0);
  Z_of_float := Decimal.to_Z;
  float_str := Decimal.to_string;
  float_eqb := Decimal.eqb;
  float_eqb_Z := Decimal.eqb_Z;
  float_nonzero := fun x => negb (Z.eqb (Decimal.mant x) 0)
|}.

(* ================================================================== *)
(** ** The text builtins below code point 256 *)
(* ================================================================== *)

Module Latin1.

(** The characters [str.isdigit] accepts: 0 to 9 and the superscripts
    two, three and one (code points 178, 179 and 185). *)
Definition digit_char (a : ascii) : bool :=
  let n := Ascii.nat_of_ascii a in
  Text.is_digit a || (n =? 178)%nat || (n =? 179)%nat || (n =? 185)%nat.

Fixpoint all_digit_chars (s : string) : bool :=
  match s with
  | EmptyString => true
  | String a s' => digit_char a && all_digit_chars s'
  end.

(** [s.isdigit()] *)
Definition isdigit (s : string) : bool :=
  match s with
  | EmptyString => false
  | _ => all_digit_chars s
  end.

(** The digits of a literal whose groups are set apart by single
    underscores; [after_digit] tells whether a digit was just read. *)
Fixpoint ungroup (after_digit : bool) (s : string) : option string :=
  match s with
  | EmptyString => if after_digit then Some EmptyString else None
  | String a s' =>
      if Text.is_digit a then
        match ungroup true s' with
        | Some d => Some (String a d)
        | None => None
        end
      else if Ascii.eqb a "_" then
        if after_digit then
          match s' with
          | EmptyString => None
          | _ => ungroup false s'
          end
        else None
      else None
  end.

Definition unsigned (s : string) : option Z :=
  match ungroup false s with
  | Some d => Some (Text.digits_acc 0 d)
  | None => None
  end.

(** [int(s)]: plain digits are read as they stand; any other text is
    trimmed of blanks and read as an optional sign and digit groups.
    The superscripts are no decimal digits and are refused. *)
Definition int_of_str (s : string) : option Z :=
  if Text.plain_digits s then Some (Text.digits_acc 0 s)
  else match Text.strip s with
       | String "-" d => option_map Z.opp (unsigned d)
       | String "+" d => unsigned d
       | d => unsigned d
       end.

End Latin1.

Definition Latin1Text : PyText.
Proof.
  refine {| str_isdigit := Latin1.isdigit;
            int_of_str := Latin1.int_of_str;
            isdigit_plain := _; int_plain := _; isdigit_ascii := _ |}.
  - intros s. destruct s as [|a s]; [discriminate|].
    unfold Text.plain_digits, Latin1.isdigit.
    generalize (String a s). clear a s.
    induction s as [|a s IH]; [reflexivity|].
    cbn [Text.all_digits Latin1.all_digit_chars]. intros D.
    apply andb_true_iff in D. destruct D as [D1 D2].
    unfold Latin1.digit_char. rewrite D1. cbn [orb andb]. exact (IH D2).
  - intros s D. unfold Latin1.int_of_str. rewrite D. reflexivity.
  - intros s. destruct s as [|a s]; [discriminate|].
    unfold Latin1.isdigit. intros D. split; [discriminate|].
    revert D. generalize (String a s). clear a s.
    induction s as [|a s IH]; [intros _ b []|].
    cbn [Latin1.all_digit_chars Text.chars]. intros D.
    apply andb_true_iff in D. destruct D as [D1 D2].
    intros b [<-|I] B; [|exact (IH D2 b I B)].
    unfold Latin1.digit_char in D1.
    destruct (Text.is_digit a); [reflexivity|]. cbn [orb] in D1.
    apply orb_true_iff in D1. destruct D1 as [D1|D1];
      [apply orb_true_iff in D1; destruct D1 as [D1|D1]|];
      apply Nat.eqb_eq in D1; rewrite D1 in B; lia.
Defined.

(* ================================================================== *)
(** ** Vocabulary of the statements *)
(* ================================================================== *)

Section Vocabulary.
Context `{PyFloat} `{PyText}.

(** [sub] occurs in [s]. *)
Definition Substring (sub s : string) : Prop :=
  exists pre post, s = pre +++ sub +++ post.

(** The character [c] occurs in [s]. *)
Definition HasChar (c : ascii) (s : string) : Prop := In c (Text.chars s).

(** The three conditions under which [__init__] finds it sensible to
    prepend the organisation. *)
Definition BareName (env : Env) (workflow : string) : Prop :=
  ~ Substring "nf-core" workflow
  /\ ~ HasChar "/" workflow
  /\ path_exists env workflow = false.

(** [s] is made of decimal digits, at least one. *)
Definition DigitsOnly (s : string) : Prop :=
  s <> "" /\ Forall (fun a => Text.is_digit a = true) (Text.chars s).

(** The number written by [s] in positional notation: every digit
    weighs ten to the number of digits after it. *)
Fixpoint dec_value (s : string) : Z :=
  match s with
  | EmptyString => 0%Z
  | String a s' =>
      (Text.digit_val a * 10 ^ Z.of_nat (String.length s') + dec_value s')%Z
  end.

(** [s] is made of ASCII characters. *)
Definition Ascii7 (s : string) : Prop :=
  Forall (fun a => Ascii.nat_of_ascii a < 128) (Text.chars s).

(** A value the guess cannot read: [str.isdigit] holds of it and [int]
    refuses it, as for a superscript two. *)
Definition Unreadable (v : string) : Prop :=
  str_isdigit v = true /\ int_of_str v = None.

(** [key] is [params.<name>]: the reserved namespace and one level
    beneath it. *)
Definition ParamKey (key name : string) : Prop :=
  key = "params." +++ name /\ ~ HasChar "." name.

(** A configuration whose parameter values the guess can all read. *)
Definition Readable (config : dict string) : Prop :=
  forall key n v, In (key, v) config -> ParamKey key n -> ~ Unreadable v.

(** The fixed fields of a parameter synthesized from the configuration. *)
Definition Synthesized (p : Param) : Prop :=
  label p = None /\ usage p = None /\ choices p = None
  /\ pattern p = ".*" /\ render p = "textfield" /\ arity p = None
  /\ group p = "Pipeline parameters".

(** [Catalog config ps]: [ps] holds, in the order of [config], one
    parameter for every entry whose key is a [ParamKey], named after the
    key and typed by the guess on its value, and nothing else. *)
Inductive Catalog : dict string -> list Param -> Prop :=
| Catalog_nil : Catalog [] []
| Catalog_keep key n v p_type p_default config ps :
    ParamKey key n ->
    guess_param v = Ok (p_type, p_default) ->
    Catalog config ps ->
    Catalog ((key, v) :: config) (build_param n p_type p_default :: ps)
| Catalog_skip key v config ps :
    (forall n, ~ ParamKey key n) ->
    Catalog config ps ->
    Catalog ((key, v) :: config) ps.

(** The values an Override Set holds: booleans and text. *)
Definition BoolOrText (v : pyval) : Prop :=
  (exists b, v = VBool b) \/ (exists s, v = VStr s).

(** [e] is [s] with a backslash put before each of its double quotes. *)
Inductive Escaped : string -> string -> Prop :=
| Escaped_end : Escaped EmptyString EmptyString
| Escaped_quote s e :
    Escaped s e ->
    Escaped (String Text.dquote s)
            (String Text.backslash (String Text.dquote e))
| Escaped_other a s e :
    a <> Text.dquote -> Escaped s e -> Escaped (String a s) (String a e).

Fixpoint backslashed (s : string) : string :=
  match s with
  | EmptyString => EmptyString
  | String a s' =>
      if Ascii.eqb a Text.dquote
      then String Text.backslash (String a (backslashed s'))
      else String a (backslashed s')
  end.

(** [s] between two double quotes. *)
Definition in_quotes (s : string) : string :=
  String Text.dquote (s +++ String Text.dquote EmptyString).

(** The token the command gets for one entry of an Override Set:
    nothing for a false boolean. *)
Definition token (dashes : string) (item : string * pyval) : string :=
  match snd item with
  | VBool true => " " +++ dashes +++ fst item
  | VStr s => " " +++ dashes +++ fst item +++ " " +++ in_quotes (backslashed s)
  | _ => ""
  end.

Fixpoint tokens (dashes : string) (items : dict pyval) : string :=
  match items with
  | [] => ""
  | item :: items' => token dashes item +++ tokens dashes items'
  end.

(** The entries with a false boolean, each of which is reported. *)
Definition is_false (item : string * pyval) : bool :=
  match snd item with
  | VBool false => true
  | _ => false
  end.

Definition reports (level msg : string) (items : dict pyval)
  : list (string * string) :=
  map (fun _ => (level, msg)) (filter is_false items).

Definition add_logs (l : list (string * string)) (w : World) : World :=
  mkWorld (stdin w) (console w) (logs w ++ l) (files w) (calls w).

(** Every double quote of [s] comes right after a backslash. *)
Fixpoint guarded (prev : ascii) (s : string) : bool :=
  match s with
  | EmptyString => true
  | String a s' =>
      (if Ascii.eqb a Text.dquote then Ascii.eqb prev Text.backslash else true)
      && guarded a s'
  end.

Definition QuotesEscaped (s : string) : Prop := guarded " " s = true.

(** The answers [click.confirm] takes for yes, and for no; an empty
    answer takes the default, which the launcher sets to no. *)
Definition SaysYes (l : string) : Prop :=
  Text.strip (Text.lower l) = "y" \/ Text.strip (Text.lower l) = "yes".

Definition SaysNo (l : string) : Prop :=
  Text.strip (Text.lower l) = "n" \/ Text.strip (Text.lower l) = "no"
  \/ Text.strip (Text.lower l) = "".

(** What [launch_workflow] shows before it asks. *)
Definition command_display (L : Launch) : list string :=
  [Text.newline +++ Text.newline +++ "Nextflow command:";
   "  " +++ nextflow_cmd L +++ Text.newline +++ Text.newline].

Definition run_question : string :=
  "Do you want to run this command now? [y/N]" +++ ": ".

(** The two record files of file mode. *)
Definition params_file (env : Env) : string :=
  Text.path_join (getcwd env) "nfx-params.json".

Definition audit_file (env : Env) : string :=
  Text.path_join (getcwd_at_import env) "full-params.json".

Definition with_files (f : dict json) (w : World) : World :=
  mkWorld (stdin w) (console w) (logs w) f (calls w).

(** The positions, counted from [n] and in order, of the parameters of
    [ps] that declare the group [g]. *)
Fixpoint members_from (n : nat) (g : string) (ps : list Param) : list nat :=
  match ps with
  | [] => []
  | p :: ps' =>
      (if String.eqb g (group p) then [n] else []) ++ members_from (S n) g ps'
  end.

Definition members (g : string) (ps : list Param) : list nat :=
  members_from 0 g ps.

(** The labels of [l] in the order of their first occurrence. *)
Fixpoint first_seen (l : list string) : list string :=
  match l with
  | [] => []
  | x :: l' => x :: filter (fun y => negb (String.eqb y x)) (first_seen l')
  end.

(** The parameter objects behind a list of references. *)
Fixpoint objects (ps : list Param) (refs : list nat) : list Param :=
  match refs with
  | [] => []
  | i :: refs' =>
      match nth_error ps i with
      | Some p => p :: objects ps refs'
      | None => objects ps refs'
      end
  end.

(** The list a group has so far: none yet counts as empty. *)
Definition old_members (o : option (list nat)) : list nat :=
  match o with
  | Some l => l
  | None => []
  end.

(** The labels of [l] added, each once and at the end, to the labels
    [ks] already there. *)
Fixpoint add_keys (ks l : list string) : list string :=
  match l with
  | [] => ks
  | x :: l' =>
      add_keys (if existsb (String.eqb x) ks then ks else ks ++ [x]) l'
  end.

(** The list of a group after more members arrive: a group without old
    or new members does not exist. *)
Definition extended (o : option (list nat)) (l : list nat)
  : option (list nat) :=
  match o, l with
  | None, [] => None
  | _, _ => Some (old_members o ++ l)
  end.










(** [L'] is [L] but for the objects of the catalog. *)
Definition SameButParameters (L L' : Launch) : Prop :=
  L' = set_parameters (parameters L') L.

(** What the session shows for a group and asks about it. *)
Definition group_header (g : string) : string :=
  Text.newline +++ Text.newline +++ "Parameter group: " +++ g.

Definition group_question : string :=
  "Do you want to change the group's defaults? [y/N]" +++ ": ".

(** The default as a parameter prompt shows it. *)
Definition shown_default (p : Param) : string :=
  if String.eqb (param_type p) "boolean"
  then (if py_truthy (default_value p) then "Y/n" else "y/N")
  else py_str (default_value p).

(** The last line of a parameter prompt: the option and, in brackets,
    its default. *)
Definition flag_line (p : Param) : string :=
  " --" +++ name p +++ " [" +++ shown_default p +++ "]".

(** A line of its own for a text that is there and not empty. *)
Definition own_line (o : option string) : string :=
  match o with
  | Some (String a s) => Text.newline +++ String a s
  | _ => EmptyString
  end.

(** The line of the choices, when there are any: they are called a
    range unless the parameter is a string. *)
Definition choices_line (p : Param) : string :=
  match choices p with
  | Some (c :: l) =>
      Text.newline
      +++ (if String.eqb (param_type p) "string" then "Choices" else "Range")
      +++ ": " +++ py_str_list (c :: l)
  | _ => EmptyString
  end.

(** The first prompt for a parameter: an empty line, the label, the
    usage and the choices when there are any, and the flag line. *)
Definition first_prompt (p : Param) : string :=
  own_line (label p) +++ own_line (usage p) +++ choices_line p
  +++ Text.newline +++ flag_line p +++ ": ".


(** What the terminal shows for the lines [bad] that a prompt for an
    integer refuses one after the other: each time the prompt, and the
    error for the line. *)
Definition refusals (prompt : string) (bad : list string) : list string :=
  flat_map (fun l => [prompt; "Error: " +++ l +++ " is not a valid integer"])
           bad.

(** The prompt for a parameter after a rejected value: the flag line
    alone. *)
Definition retry_prompt (p : Param) : string := flag_line p +++ ": ".

(** A parameter with its current value blanked: what is left is what
    the catalog declares. *)
Definition without_value (p : Param) : Param := set_value VNone p.


(** A default that the cast of its declared type accepts as it is: an
    integer for a parameter declared integer, a float for one declared
    decimal. *)
Definition CastableDefault (p : Param) : Prop :=
  (param_type p = "integer" -> exists z, default_value p = VInt z)
  /\ (param_type p = "decimal" -> exists x, default_value p = VFloat x).

(** The name [__init__] keeps for the workflow. *)
Definition final_name (env : Env) (workflow : string) : string :=
  if prepends env workflow then "nf-core/" +++ workflow else workflow.


(** No file was written and no command run between [w] and [w']. *)
Definition Untouched (w w' : World) : Prop :=
  files w' = files w /\ calls w' = calls w.

(** [L'] is [L] but for the flag Override Set. *)
Definition SameButFlags (L L' : Launch) : Prop :=
  L' = set_nxf_flags (nxf_flags L') L.

(** The command [launch_pipeline] hands to [subprocess] first: the pull
    of the workflow, unless a cached copy was found. *)
Definition pulls (env : Env) (name : string) : list string :=
  match find_local_wf name (local_workflows env) with
  | Some _ => []
  | None => ["nextflow pull " +++ name]
  end.

(** The catalog [launch_pipeline] works on: the parameters of the
    settings file when it gives any, and otherwise those collected from
    the configuration of the workflow. *)
Definition loaded_catalog (env : Env) (name : string) : list Param :=
  let ps := match parameter_settings env with
            | Some ps => ps
            | None => []
            end in
  if (length ps =? 0)%nat then
    match collect_items (fetch_wf_config env name) ps with
    | Ok ps' => ps'
    | Raise _ => ps
    end
  else ps.

(** The launcher of [launch_pipeline] when the prompts begin. *)
Definition prepared (env : Env) (name : string)
    (copy : option LocalWorkflow) : Launch :=
  group_parameters
    (set_parameters (loaded_catalog env name)
       (set_local_wf copy (new_launcher env name))).

(** The command [launch_pipeline] builds from the flag Override Set. *)
Definition built_command (env : Env) (name : string) (flags : dict pyval)
  : string :=
  ("nextflow run " +++ name) +++ tokens "" flags
  +++ " --params-file " +++ in_quotes (params_file env).


(** The reading of an escaped value: a backslash right before a double
    quote is dropped. *)
Fixpoint unescape_quotes (s : string) : string :=
  match s with
  | EmptyString => EmptyString
  | String a t =>
      match t with
      | String b t' =>
          if Ascii.eqb a Text.backslash && Ascii.eqb b Text.dquote
          then String b (unescape_quotes t')
          else String a (unescape_quotes t)
      | EmptyString => String a EmptyString
      end
  end.

(** The names of the five run flags. *)
Definition run_flags : list string :=
  ["-name"; "-r"; "-profile"; "-w"; "-resume"].

End Vocabulary.

(* ================================================================== *)
(** ** Concrete sessions *)
(* ================================================================== *)

Section Examples.
#[local] Existing Instance DecimalFloat.
#[local] Existing Instance Latin1Text.

(** No local copy, no schema, an empty configuration, a validator that
    accepts everything. *)
Definition env0 : Env :=
  {| path_exists := fun _ => false;
     getenv_NXF_WORK := None;
     local_workflows := [];
     nextflow_pull := fun n => Some (mkLocalWorkflow n "/cache");
     pull_error := fun _ => NonZeroExit;
     parameter_settings := None;
     fetch_wf_config := fun _ => [];
     getcwd := "/home/user";
     getcwd_at_import := "/home/user";
     validate := fun _ => None |}.

(** The same, with a configuration that declares one boolean. *)
Definition env_save_all : Env :=
  {| path_exists := fun _ => false;
     getenv_NXF_WORK := None;
     local_workflows := [];
     nextflow_pull := fun n => Some (mkLocalWorkflow n "/cache");
     pull_error := fun _ => NonZeroExit;
     parameter_settings := None;
     fetch_wf_config := fun _ => [("params.save_all", "true")];
     getcwd := "/home/user";
     getcwd_at_import := "/home/user";
     validate := fun _ => None |}.

(** A fresh terminal on which the operator will type [lines]. *)
Definition typing (lines : list string) : World := mkWorld lines [] [] [] [].

Definition reads : Param := build_param "reads" "integer" (VInt 1).
Definition outdir : Param := build_param "outdir" "string" (VStr "./results").
Definition save_all : Param := build_param "save_all" "boolean" (VBool true).
Definition genome : Param :=
  {| name := "genome"; label := None; usage := None; param_type := "string";
     choices := None; default_value := VStr "GRCh38"; value := VStr "GRCh38";
     pattern := ".*"; render := "textfield"; arity := None;
     group := "Reference" |}.

(** A launcher for nf-core/rnaseq with the catalog [ps], grouped. *)
Definition launcher_with (ps : list Param) : Launch :=
  group_parameters (set_parameters ps (new_launcher env0 "nf-core/rnaseq")).

(** A launcher in inline mode whose parameter Override Set holds one
    false boolean. *)
Definition inline_launcher : Launch :=
  {| workflow := "nf-core/rnaseq";
     local_wf := None;
     nxf_flag_defaults := nxf_flag_defaults (new_launcher env0 "nf-core/rnaseq");
     nxf_flag_help := nxf_flag_help (new_launcher env0 "nf-core/rnaseq");
     nxf_flags := [("-resume", VBool true)];
     parameters := [save_all];
     grouped_parameters := [("Pipeline parameters", [0])];
     params_user := [("save_all", VBool false)];
     nextflow_cmd := "nextflow run nf-core/rnaseq";
     use_params_file := false |}.


(** A run name with a double quote in it. *)
Definition odd_name : string := "run" +++ Text.chr Text.dquote +++ "1".


(** A configuration with two parameters and a key of another namespace. *)
Definition env_two_params : Env :=
  {| path_exists := fun _ => false;
     getenv_NXF_WORK := None;
     local_workflows := [];
     nextflow_pull := fun n => Some (mkLocalWorkflow n "/cache");
     pull_error := fun _ => NonZeroExit;
     parameter_settings := None;
     fetch_wf_config :=
       fun _ => [("params.reads", "2"); ("params.genome", "GRCh38");
                 ("process.cpus", "4")];
     getcwd := "/home/user";
     getcwd_at_import := "/home/user";
     validate := fun _ => None |}.

(** A validator that knows two genomes. *)
Definition env_genomes : Env :=
  {| path_exists := fun _ => false;
     getenv_NXF_WORK := None;
     local_workflows := [];
     nextflow_pull := fun n => Some (mkLocalWorkflow n "/cache");
     pull_error := fun _ => NonZeroExit;
     parameter_settings := None;
     fetch_wf_config := fun _ => [];
     getcwd := "/home/user";
     getcwd_at_import := "/home/user";
     validate :=
       fun p => if py_eqb (value p) (VStr "GRCh37")
                   || py_eqb (value p) (VStr "GRCh38")
                then None else Some "unknown genome" |}.

(** No cached copy, and a pull that fails. *)
Definition env_no_pull : Env :=
  {| path_exists := fun _ => false;
     getenv_NXF_WORK := None;
     local_workflows := [];
     nextflow_pull := fun _ => None;
     pull_error := fun _ => NonZeroExit;
     parameter_settings := None;
     fetch_wf_config := fun _ => [];
     getcwd := "/home/user";
     getcwd_at_import := "/home/user";
     validate := fun _ => None |}.

(** An integer parameter without a default. *)
Definition depth : Param :=
  {| name := "depth"; label := None; usage := None; param_type := "integer";
     choices := None; default_value := VNone; value := VNone;
     pattern := ".*"; render := "textfield"; arity := None;
     group := "Pipeline parameters" |}.

(** A catalog before grouping. *)
Definition ungrouped (ps : list Param) : Launch :=
  set_parameters ps (new_launcher env0 "nf-core/rnaseq").

(** The superscript two, code point 178: a digit that writes no
    number. *)
Definition superscript_two : string := Text.chr (Ascii.ascii_of_nat 178).

(** A configuration whose one parameter is set to a superscript two. *)
Definition env_power : Env :=
  {| path_exists := fun _ => false;
     getenv_NXF_WORK := None;
     local_workflows := [];
     nextflow_pull := fun n => Some (mkLocalWorkflow n "/cache");
     pull_error := fun _ => NonZeroExit;
     parameter_settings := None;
     fetch_wf_config := fun _ => [("params.power", superscript_two)];
     getcwd := "/home/user";
     getcwd_at_import := "/home/user";
     validate := fun _ => None |}.

(** No cached copy, and a pull that fails with an [OSError] other than
    a missing program. *)
Definition env_denied : Env :=
  {| path_exists := fun _ => false;
     getenv_NXF_WORK := None;
     local_workflows := [];
     nextflow_pull := fun _ => None;
     pull_error := fun _ => OtherOSError;
     parameter_settings := None;
     fetch_wf_config := fun _ => [];
     getcwd := "/home/user";
     getcwd_at_import := "/home/user";
     validate := fun _ => None |}.

End Examples.

(* ================================================================== *)
(** * Properties *)
(* ================================================================== *)

(** ** Text *)

Lemma append_empty_r (s : string) : s +++ "" = s.
Proof. induction s as [|c s IH]; simpl; [reflexivity | now rewrite IH]. Qed.

Lemma append_assoc (a b c : string) : (a +++ b) +++ c = a +++ b +++ c.
Proof. induction a as [|x a IH]; simpl; [reflexivity | now rewrite IH]. Qed.

Lemma prefix_spec (a b : string) :
  Text.starts_with a b = true <-> exists post, b = a +++ post.
Proof.
  revert b. induction a as [|x a IH]; intros b; simpl.
  - split; [intros _; now exists b | intros _; reflexivity].
  - destruct b as [|y b].
    + split; [discriminate | intros [post E]; discriminate].
    + destruct (Ascii.eqb_spec x y) as [->|N]; simpl.
      * rewrite IH. split; intros [post E]; exists post.
        -- now rewrite E.
        -- now injection E.
      * split; [discriminate | intros [post E]; injection E; congruence].
Qed.

Lemma contains_spec (sub s : string) :
  Text.contains sub s = true <-> Substring sub s.
Proof.
  unfold Substring. induction s as [|c s IH]; simpl.
  - rewrite orb_false_r, prefix_spec. split.
    + intros [post E]. now exists "", post.
    + intros [[|x pre] [post E]]; [now exists post | discriminate].
  - rewrite orb_true_iff, prefix_spec, IH. split.
    + intros [[post E] | [pre [post E]]].
      * now exists "", post.
      * exists (String c pre), post. simpl. now rewrite E.
    + intros [[|x pre] [post E]].
      * left. now exists post.
      * right. simpl in E. injection E as _ E. now exists pre, post.
Qed.

Lemma count_char_zero (c : ascii) (s : string) :
  Text.count_char c s = 0 <-> ~ HasChar c s.
Proof.
  unfold HasChar. induction s as [|a s IH]; simpl.
  - split; [intros _ [] | reflexivity].
  - destruct (Ascii.eqb_spec a c) as [->|N].
    + split; [discriminate | intros N; exfalso; apply N; now left].
    + simpl. rewrite IH. split.
      * intros N' [E|I]; [now apply N | now apply N'].
      * intros N' I. apply N'. now right.
Qed.

Section Properties.
Context `{PyFloat} `{PyText}.

(** ** The name of the workflow *)

Lemma prepends_spec (env : Env) (wf : string) :
  prepends env wf = true <-> BareName env wf.
Proof.
  unfold prepends, BareName.
  rewrite !andb_true_iff, !negb_true_iff, Nat.eqb_eq, count_char_zero.
  rewrite <- contains_spec, not_true_iff_false. tauto.
Qed.

Lemma find_local_wf_acc (name : string) (wfs : list LocalWorkflow)
    (acc : option LocalWorkflow) (wf : LocalWorkflow) :
  fold_left (fun found wf =>
               if String.eqb name (full_name wf) then Some wf else found)
            wfs acc = Some wf ->
  acc = Some wf \/ (In wf wfs /\ full_name wf = name).
Proof.
  revert acc. induction wfs as [|x wfs IH]; simpl; intros acc E.
  - now left.
  - apply IH in E. destruct E as [E | [I F]].
    + destruct (String.eqb_spec name (full_name x)) as [Q|Q].
      * injection E as ->. right. split; [now left | now symmetry].
      * now left.
    + right. split; [now right | assumption].
Qed.

Lemma init_fields (env : Env) (wf : string) (w : World) :
  exists L w',
    init env wf w = (Ok L, w')
    /\ workflow L = (if prepends env wf then "nf-core/" +++ wf else wf)
    /\ local_wf L = find_local_wf (workflow L) (local_workflows env)
    /\ nextflow_cmd L = "nextflow run " +++ workflow L.
Proof.
  unfold init, bind, ret, logging.
  destruct (prepends env wf); eexists; eexists; repeat split; reflexivity.
Qed.

(** C10. [Launch.__init__] always returns a launcher.  When the given
    name does not contain nf-core, has no slash and is not an existing
    path, the launcher's workflow is the name with nf-core/ put in
    front; when any of the three conditions fails it is the name as
    given.  The cached copy is looked up under that final name, the
    command starts from it, and so does the pull of [get_local_wf]. *)
Theorem init_prepends_organisation (env : Env) (wf : string) (w : World) :
  exists L w',
    init env wf w = (Ok L, w')
    /\ (BareName env wf -> workflow L = "nf-core/" +++ wf)
    /\ (~ BareName env wf -> workflow L = wf)
    /\ nextflow_cmd L = "nextflow run " +++ workflow L
    /\ (forall c, local_wf L = Some c ->
                  In c (local_workflows env) /\ full_name c = workflow L)
    /\ (forall L2 w1 w2, local_wf L = None ->
          get_local_wf env L w1 = (Ok L2, w2) ->
          local_wf L2 = nextflow_pull env (workflow L)).
Proof.
  destruct (init_fields env wf w) as (L & w' & E & Hwf & Hloc & Hcmd).
  exists L, w'. split; [exact E|]. repeat split.
  - intros B. apply prepends_spec in B. now rewrite Hwf, B.
  - intros N. rewrite Hwf. destruct (prepends env wf) eqn:P; [|reflexivity].
    apply prepends_spec in P. contradiction.
  - exact Hcmd.
  - match goal with
    | Hc : local_wf L = Some _ |- _ =>
        rewrite Hloc in Hc; apply find_local_wf_acc in Hc;
        destruct Hc as [?|[? ?]]; [discriminate|assumption]
    end.
  - match goal with
    | Hc : local_wf L = Some _ |- _ =>
        rewrite Hloc in Hc; apply find_local_wf_acc in Hc;
        destruct Hc as [?|[? ?]]; [discriminate|assumption]
    end.
  - intros L2 w1 w2 N. unfold get_local_wf. rewrite N.
    unfold bind, logging, subprocess_check_output, raise, ret.
    destruct (nextflow_pull env (workflow L)); intros Q.
    + injection Q as <- _. reflexivity.
    + destruct (pull_error env (workflow L)); try discriminate Q.
      injection Q as <- _. exact N.
Qed.

(** ** The catalog from the configuration *)

Lemma digits_acc_dec_value (s : string) (acc : Z) :
  Text.digits_acc acc s
  = (acc * 10 ^ Z.of_nat (String.length s) + dec_value s)%Z.
Proof.
  revert acc. induction s as [|a s IH]; intros acc; simpl String.length.
  - simpl. lia.
  - cbn [Text.digits_acc dec_value]. rewrite IH.
    rewrite Nat2Z.inj_succ, Z.pow_succ_r by lia. lia.
Qed.




Lemma all_digits_spec (s : string) :
  Text.all_digits s = true
  <-> Forall (fun a => Text.is_digit a = true) (Text.chars s).
Proof.
  induction s as [|a s IH]; simpl.
  - split; [constructor | reflexivity].
  - rewrite andb_true_iff, IH. split.
    + intros [D F]. now constructor.
    + intros F. inversion F. now split.
Qed.

Lemma plain_digits_spec (s : string) :
  Text.plain_digits s = true <-> DigitsOnly s.
Proof.
  unfold DigitsOnly. destruct s as [|a s].
  - simpl. split; [discriminate | intros [N _]; now elim N].
  - unfold Text.plain_digits. rewrite all_digits_spec. split.
    + intros F. split; [discriminate | exact F].
    + intros [_ F]. exact F.
Qed.

Lemma isdigit_of_digits (s : string) : DigitsOnly s -> str_isdigit s = true.
Proof. intros D. apply isdigit_plain. now apply plain_digits_spec. Qed.

Lemma int_of_digits (s : string) :
  DigitsOnly s -> int_of_str s = Some (dec_value s).
Proof.
  intros D. rewrite int_plain by now apply plain_digits_spec.
  rewrite digits_acc_dec_value. reflexivity.
Qed.

Lemma isdigit_ascii_digits (s : string) :
  Ascii7 s -> str_isdigit s = true -> DigitsOnly s.
Proof.
  intros A D. apply isdigit_ascii in D. destruct D as [N D].
  split; [exact N|]. apply Forall_forall. intros a I.
  apply D; [exact I|]. exact (proj1 (Forall_forall _ _) A a I).
Qed.

Lemma digits_not_word (s : string) :
  DigitsOnly s -> String.eqb s "true" || String.eqb s "false" = false.
Proof.
  intros [N F]. apply orb_false_iff.
  split; apply String.eqb_neq; intros ->;
    inversion F as [|? ? D _]; discriminate D.
Qed.

Lemma word_not_isdigit (s : string) :
  s = "true" \/ s = "false" -> str_isdigit s = false.
Proof.
  intros E. destruct (str_isdigit s) eqn:D; [|reflexivity].
  apply isdigit_ascii in D. destruct D as [_ D].
  destruct E as [-> | ->].
  - assert (Q : Text.is_digit "t" = true).
    { apply D; [now left|]. apply Nat.ltb_lt. reflexivity. }
    discriminate Q.
  - assert (Q : Text.is_digit "f" = true).
    { apply D; [now left|]. apply Nat.ltb_lt. reflexivity. }
    discriminate Q.
Qed.

Lemma isdigit_not_word (s : string) :
  str_isdigit s = true -> String.eqb s "true" || String.eqb s "false" = false.
Proof.
  intros D. apply orb_false_iff.
  split; apply String.eqb_neq; intros E;
    rewrite word_not_isdigit in D by auto; discriminate D.
Qed.

Lemma guess_param_integer (s : string) (z : Z) :
  str_isdigit s = true -> int_of_str s = Some z ->
  guess_param s = Ok ("integer", VInt z).
Proof.
  intros D I. unfold guess_param. rewrite D, I.
  now rewrite (isdigit_not_word s D).
Qed.

Lemma ascii7_check (s : string) :
  forallb (fun a => Nat.ltb (Ascii.nat_of_ascii a) 128) (Text.chars s) = true ->
  Ascii7 s.
Proof.
  unfold Ascii7. intros C. apply Forall_forall. intros a I.
  apply Nat.ltb_lt. exact (proj1 (forallb_forall _ _) C a I).
Qed.

(** X20. The guess of [collect_pipeline_param_defaults] on a configured
    value made of ASCII characters never raises and follows this
    precedence: digits only give an integer with the number they write;
    otherwise text that parses as a float gives a decimal; otherwise the
    type is string and the value the text itself; and the words true
    and false, in exactly that spelling, give a boolean whatever the
    numeric checks made of them. *)
Theorem guess_param_precedence (s : string) :
  Ascii7 s ->
  (DigitsOnly s -> guess_param s = Ok ("integer", VInt (dec_value s)))
  /\ (forall x, ~ DigitsOnly s -> float_of_string s = Some x ->
        s <> "true" -> s <> "false" ->
        guess_param s = Ok ("decimal", VFloat x))
  /\ (~ DigitsOnly s -> float_of_string s = None ->
        s <> "true" -> s <> "false" ->
        guess_param s = Ok ("string", VStr s))
  /\ (s = "true" -> guess_param s = Ok ("boolean", VBool true))
  /\ (s = "false" -> guess_param s = Ok ("boolean", VBool false)).
Proof.
  intros A.
  assert (W : forall t, t <> "true" -> t <> "false" ->
                String.eqb t "true" || String.eqb t "false" = false).
  { intros t T F. apply orb_false_iff. split; now apply String.eqb_neq. }
  assert (N : ~ DigitsOnly s -> str_isdigit s = false).
  { intros N. destruct (str_isdigit s) eqn:D; [|reflexivity].
    elim N. now apply isdigit_ascii_digits. }
  split; [|split; [|split; [|split]]].
  - intros D. apply guess_param_integer;
      [now apply isdigit_of_digits | now apply int_of_digits].
  - intros x D E T F. unfold guess_param. now rewrite (N D), E, (W s T F).
  - intros D E T F. unfold guess_param. now rewrite (N D), E, (W s T F).
  - intros ->. unfold guess_param.
    rewrite (word_not_isdigit "true") by auto.
    destruct (float_of_string "true"); reflexivity.
  - intros ->. unfold guess_param.
    rewrite (word_not_isdigit "false") by auto.
    destruct (float_of_string "false"); reflexivity.
Qed.

Lemma split_char_nochar (c : ascii) (a : string) :
  ~ HasChar c a -> Text.split_char c a = [a].
Proof.
  unfold HasChar. induction a as [|x a IH]; simpl; intros N; [reflexivity|].
  destruct (Ascii.eqb_spec x c) as [->|D].
  - exfalso. apply N. now left.
  - rewrite IH; [reflexivity | intros I; apply N; now right].
Qed.

Lemma split_char_app (c : ascii) (a s : string) :
  ~ HasChar c a ->
  Text.split_char c (a +++ String c s) = a :: Text.split_char c s.
Proof.
  unfold HasChar. induction a as [|x a IH]; simpl; intros N.
  - now rewrite Ascii.eqb_refl.
  - destruct (Ascii.eqb_spec x c) as [->|D].
    + exfalso. apply N. now left.
    + rewrite IH; [reflexivity | intros I; apply N; now right].
Qed.

Lemma split_char_join (c : ascii) (s : string) :
  Text.join (Text.chr c) (Text.split_char c s) = s.
Proof.
  unfold Text.join. induction s as [|x s IH]; [reflexivity|].
  cbn [Text.split_char]. destruct (Ascii.eqb_spec x c) as [->|D].
  - destruct (Text.split_char c s) as [|w ws] eqn:E.
    + simpl in IH. now subst s.
    + cbn [String.concat]. cbn [String.concat] in IH.
      destruct ws; simpl; simpl in IH; now rewrite IH.
  - destruct (Text.split_char c s) as [|w ws] eqn:E.
    + simpl in IH. now subst s.
    + cbn [String.concat]. cbn [String.concat] in IH.
      destruct ws; simpl; simpl in IH; now rewrite IH.
Qed.

Lemma split_char_parts (c : ascii) (s : string) :
  Forall (fun p => ~ HasChar c p) (Text.split_char c s).
Proof.
  unfold HasChar. induction s as [|x s IH]; simpl.
  - constructor; [intros [] | constructor].
  - destruct (Ascii.eqb_spec x c) as [->|D].
    + constructor; [intros [] | exact IH].
    + destruct (Text.split_char c s) as [|w ws].
      * constructor; [|constructor]. simpl. intros [E|[]]. now apply D.
      * inversion IH as [|? ? Hw Hws]; subst. constructor; [|exact Hws].
        simpl. intros [E|I]; [now apply D | now apply Hw].
Qed.

Lemma split_param_key (key n : string) :
  Text.split_char "." key = ["params"; n] <-> ParamKey key n.
Proof.
  unfold ParamKey. split.
  - intros E. split.
    + rewrite <- (split_char_join "." key), E. reflexivity.
    + pose proof (split_char_parts "." key) as F. rewrite E in F.
      inversion F as [|? ? _ F']; subst. now inversion F'.
  - intros [-> N].
    change ("params." +++ n) with ("params" +++ String "." n).
    rewrite split_char_app.
    + now rewrite (split_char_nochar "." n N).
    + unfold HasChar. simpl. intros I.
      repeat (destruct I as [I|I]; [discriminate I|]). exact I.
Qed.

Lemma guess_param_outcome (v : string) :
  (exists p_type p_default, guess_param v = Ok (p_type, p_default))
  \/ (guess_param v = Raise ValueError /\ Unreadable v).
Proof.
  unfold guess_param, Unreadable. destruct (str_isdigit v) eqn:D.
  - destruct (int_of_str v) as [z|].
    + left. rewrite (isdigit_not_word v D). eauto.
    + right. auto.
  - left. destruct (float_of_string v);
      destruct (String.eqb v "true" || String.eqb v "false"); eauto.
Qed.

Lemma collect_item_spec (ps : list Param) (key v : string) :
  (exists n,
      ParamKey key n
      /\ ((exists p_type p_default,
              guess_param v = Ok (p_type, p_default)
              /\ collect_item ps (key, v)
                 = Ok (ps ++ [build_param n p_type p_default]))
          \/ (Unreadable v /\ collect_item ps (key, v) = Raise ValueError)))
  \/ ((forall n, ~ ParamKey key n) /\ collect_item ps (key, v) = Ok ps).
Proof.
  unfold collect_item.
  destruct (Text.split_char "." key) as [|k0 [|k1 [|k2 ks]]] eqn:E.
  - right. split; [|reflexivity]. intros n K.
    apply split_param_key in K. congruence.
  - right. split; [|reflexivity]. intros n K.
    apply split_param_key in K. congruence.
  - destruct (String.eqb_spec k0 "params") as [->|D].
    + left. exists k1. split; [now apply split_param_key|].
      destruct (guess_param_outcome v) as [(t & d & G) | [G U]]; rewrite G.
      * left. exists t, d. split; reflexivity.
      * right. split; [exact U | reflexivity].
    + right. split; [|reflexivity]. intros n K.
      apply split_param_key in K. congruence.
  - right. split; [|reflexivity]. intros n K.
    apply split_param_key in K. congruence.
Qed.

Lemma collect_items_spec (config : dict string) (ps : list Param) :
  (exists new,
      collect_items config ps = Ok (ps ++ new)
      /\ Catalog config new /\ Forall Synthesized new)
  \/ (collect_items config ps = Raise ValueError
      /\ exists key n v, In (key, v) config /\ ParamKey key n /\ Unreadable v).
Proof.
  revert ps. induction config as [|[key v] config IH]; intros ps.
  - left. exists []. rewrite app_nil_r. repeat split; constructor.
  - cbn [collect_items].
    destruct (collect_item_spec ps key v)
      as [(n & K & [(t & d & G & E) | [U E]]) | [K E]]; rewrite E.
    + destruct (IH (ps ++ [build_param n t d]))
        as [(new & E' & C & F) | (E' & k & m & u & I & K' & U)].
      * left. exists (build_param n t d :: new). rewrite E', <- app_assoc.
        repeat split.
        -- now apply Catalog_keep.
        -- constructor; [|exact F]. repeat split.
      * right. split; [exact E'|]. exists k, m, u.
        split; [now right | now split].
    + right. split; [reflexivity|]. exists key, n, v.
      split; [now left | now split].
    + destruct (IH ps) as [(new & E' & C & F) | (E' & k & m & u & I & K' & U)].
      * left. exists new. repeat split; try assumption.
        now apply Catalog_skip.
      * right. split; [exact E'|]. exists k, m, u.
        split; [now right | now split].
Qed.

Lemma collect_items_readable (config : dict string) (ps : list Param) :
  Readable config ->
  exists new,
    collect_items config ps = Ok (ps ++ new)
    /\ Catalog config new /\ Forall Synthesized new.
Proof.
  intros R. destruct (collect_items_spec config ps)
    as [Ok | (_ & key & n & v & I & K & U)]; [exact Ok|].
  elim (R key n v I K U).
Qed.

Lemma collect_run (env : Env) (L : Launch) (w : World) :
  collect_pipeline_param_defaults env L w
  = (match collect_items (fetch_wf_config env (workflow L)) (parameters L) with
     | Ok ps => Ok (set_parameters ps L)
     | Raise e => Raise e
     end,
     add_logs [("info", "Collecting pipeline parameter defaults"
                        +++ Text.newline)] w).
Proof.
  unfold collect_pipeline_param_defaults, bind, logging, lift, ret, add_logs.
  destruct (collect_items _ _); reflexivity.
Qed.

(** C8. [collect_pipeline_param_defaults] either returns or raises
    [ValueError], and it raises only on a configuration in which a key
    of the shape params.<name> holds a value the guess cannot read.
    When it returns, the launcher is as before but for the catalog, and
    the parameters added to the catalog are, in the order of the
    configuration, one for each key of the shape params.<name> with no
    further dot in <name>, and none for any other key.  Each of them
    has label None, usage None, choices None, pattern ".*", render hint
    "textfield", arity None and group "Pipeline parameters". *)
Theorem collect_only_params_namespace (env : Env) (L : Launch) (w : World) :
  let config := fetch_wf_config env (workflow L) in
  (exists L' w' new,
      collect_pipeline_param_defaults env L w = (Ok L', w')
      /\ parameters L' = parameters L ++ new
      /\ workflow L' = workflow L /\ local_wf L' = local_wf L
      /\ nxf_flags L' = nxf_flags L /\ params_user L' = params_user L
      /\ grouped_parameters L' = grouped_parameters L
      /\ nextflow_cmd L' = nextflow_cmd L
      /\ Catalog config new
      /\ Forall Synthesized new)
  \/ (exists w' key n v,
        collect_pipeline_param_defaults env L w = (Raise ValueError, w')
        /\ In (key, v) config /\ ParamKey key n /\ Unreadable v).
Proof.
  intros config. rewrite collect_run. fold config.
  destruct (collect_items_spec config (parameters L))
    as [(new & E & C & F) | (E & key & n & v & I & K & U)]; rewrite E.
  - left. eexists. eexists. exists new. split; [reflexivity|].
    do 7 (split; [reflexivity|]). split; [exact C | exact F].
  - right. eexists. exists key, n, v. split; [reflexivity|].
    split; [exact I|]. split; [exact K | exact U].
Qed.

(** ** The command builder *)

Lemma add_logs_nil (w : World) : add_logs [] w = w.
Proof. destruct w. unfold add_logs. simpl. now rewrite app_nil_r. Qed.

Lemma add_logs_app (l1 l2 : list (string * string)) (w : World) :
  add_logs l2 (add_logs l1 w) = add_logs (l1 ++ l2) w.
Proof. unfold add_logs. simpl. now rewrite app_assoc. Qed.

Lemma quoted_in_quotes (s : string) : quoted s = in_quotes s.
Proof. reflexivity. Qed.

Lemma escape_backslashed (s : string) : escape_quotes s = backslashed s.
Proof.
  unfold escape_quotes. induction s as [|a s IH]; [reflexivity|].
  cbn [Text.replace_char backslashed].
  destruct (Ascii.eqb_spec a Text.dquote) as [->|N];
    cbn [Text.chr String.append]; now rewrite IH.
Qed.

Lemma backslashed_Escaped (s : string) : Escaped s (backslashed s).
Proof.
  induction s as [|a s IH]; [constructor|]. cbn [backslashed].
  destruct (Ascii.eqb_spec a Text.dquote) as [->|N]; now constructor.
Qed.

Lemma Escaped_backslashed (s e : string) : Escaped s e -> e = backslashed s.
Proof.
  induction 1 as [|s e E IH|a s e N E IH]; [reflexivity| |];
    cbn [backslashed].
  - rewrite Ascii.eqb_refl. now rewrite IH.
  - destruct (Ascii.eqb_spec a Text.dquote); [contradiction|]. now rewrite IH.
Qed.

Lemma add_token_run (dashes level msg cmd : string)
    (item : string * pyval) (w : World) :
  BoolOrText (snd item) ->
  add_token dashes level msg cmd item w
  = (Ok (cmd +++ token dashes item), add_logs (reports level msg [item]) w).
Proof.
  destruct item as [flag v]. unfold token, reports. cbn [fst snd].
  intros [[[|] ->] | [s ->]]; cbn [add_token filter is_false snd map].
  - unfold ret. now rewrite add_logs_nil.
  - unfold bind, logging, ret, add_logs. simpl. now rewrite append_empty_r.
  - unfold ret. now rewrite add_logs_nil, quoted_in_quotes, escape_backslashed.
Qed.

Lemma add_tokens_run (dashes level msg : string) (items : dict pyval)
    (cmd : string) (w : World) :
  Forall (fun item => BoolOrText (snd item)) items ->
  foldM (add_token dashes level msg) items cmd w
  = (Ok (cmd +++ tokens dashes items), add_logs (reports level msg items) w).
Proof.
  intros F. revert cmd w. induction F as [|item items B F IH]; intros cmd w.
  - cbn. unfold ret. now rewrite append_empty_r, add_logs_nil.
  - cbn [foldM]. unfold bind. rewrite (add_token_run _ _ _ _ _ _ B).
    rewrite IH, add_logs_app, append_assoc. cbn [tokens].
    f_equal. f_equal. unfold reports. cbn [filter].
    destruct (is_false item); reflexivity.
Qed.

Lemma escape_quotes_guarded (s : string) (prev : ascii) :
  guarded prev (escape_quotes s) = true.
Proof.
  unfold escape_quotes. revert prev.
  induction s as [|a s IH]; intros prev; [reflexivity|].
  cbn [Text.replace_char]. destruct (Ascii.eqb a Text.dquote) eqn:Q.
  - cbn [Text.chr String.append guarded]. rewrite IH.
    rewrite !Ascii.eqb_refl.
    change (Ascii.eqb Text.backslash Text.dquote) with false. reflexivity.
  - cbn [Text.chr String.append guarded]. now rewrite Q, IH.
Qed.

(** ** The launch gate *)

Lemma confirm_yes (text : string) (d : pyval) (w : World) (l : string)
    (rest : list string) :
  stdin w = l :: rest -> SaysYes l ->
  click_confirm text d w
  = (Ok (VBool true), with_stdin rest (show (text +++ ": ") w)).
Proof.
  unfold click_confirm. intros -> Y. cbn [confirm_loop].
  destruct Y as [-> | ->]; reflexivity.
Qed.

Lemma confirm_no (text : string) (w : World) (l : string)
    (rest : list string) :
  stdin w = l :: rest -> SaysNo l ->
  click_confirm text (VBool false) w
  = (Ok (VBool false), with_stdin rest (show (text +++ ": ") w)).
Proof.
  unfold click_confirm. intros -> N. cbn [confirm_loop].
  destruct N as [-> | [-> | ->]]; reflexivity.
Qed.

Lemma confirm_loop_frame (prompt : string) (d : pyval) (lines : list string)
    (w w' : World) (r : res pyval) :
  confirm_loop prompt d lines w = (r, w') ->
  logs w' = logs w /\ files w' = files w /\ calls w' = calls w
  /\ exists more, console w' = console w ++ more.
Proof.
  revert w. induction lines as [|l rest IH]; intros w; cbn [confirm_loop].
  - intros E. injection E as _ <-. simpl. eauto.
  - destruct (_ || _).
    { intros E. injection E as _ <-. simpl. eauto. }
    destruct (_ || _).
    { intros E. injection E as _ <-. simpl. eauto. }
    destruct (String.eqb _ _).
    { intros E. injection E as _ <-. simpl. eauto. }
    intros E. apply IH in E. simpl in E.
    destruct E as (E1 & E2 & E3 & more & E4).
    repeat split; try assumption.
    rewrite E4, <- !app_assoc. eauto.
Qed.

(** C9. [launch_workflow] shows the assembled command and then asks
    whether to run it, with no as the default.  On yes the command is
    given to [subprocess.call]; on no, or on an empty answer, nothing
    is run and nothing is logged.  Whatever the answers, the files
    already written stay as they are and at most this one command is
    run. *)
Theorem launch_asks_before_running (L : Launch) (w : World) :
  (forall l rest, stdin w = l :: rest -> SaysYes l ->
     launch_workflow L w
     = (Ok tt,
        mkWorld rest (console w ++ command_display L ++ [run_question])
          (logs w ++ [("info", "Launching workflow!")]) (files w)
          (calls w ++ [nextflow_cmd L])))
  /\ (forall l rest, stdin w = l :: rest -> SaysNo l ->
        launch_workflow L w
        = (Ok tt,
           mkWorld rest (console w ++ command_display L ++ [run_question])
             (logs w) (files w) (calls w)))
  /\ (forall r w', launch_workflow L w = (r, w') ->
        files w' = files w
        /\ (calls w' = calls w \/ calls w' = calls w ++ [nextflow_cmd L])
        /\ exists more, console w' = console w ++ command_display L ++ more).
Proof.
  unfold launch_workflow, bind, echo. split; [|split].
  - intros l rest S Y. erewrite confirm_yes by (simpl; eauto).
    cbn [py_truthy]. unfold logging, subprocess_call, with_stdin, show.
    simpl. now rewrite <- !app_assoc.
  - intros l rest S N. erewrite confirm_no by (simpl; eauto).
    cbn [py_truthy]. unfold ret, with_stdin, show.
    simpl. now rewrite <- !app_assoc.
  - intros r w'.
    destruct (click_confirm _ _ _) as [[v|e] w1] eqn:C;
      unfold click_confirm in C; apply confirm_loop_frame in C;
      simpl in C; destruct C as (C1 & C2 & C3 & more & C4).
    + destruct (py_truthy v); unfold logging, subprocess_call, ret; simpl;
        intros E; injection E as _ <-; simpl; rewrite C3, C4, <- !app_assoc;
        (repeat split; [assumption | auto | eexists; reflexivity]).
    + intros E; injection E as _ <-. rewrite C3, C4, <- !app_assoc.
      repeat split; [assumption | auto | eexists; reflexivity].
Qed.

(** C7 (amended). With Override Sets whose values are booleans or text,
    the command of [build_command] is the base command and the flag
    tokens, followed in file mode by the one reference to the params
    file, its path between double quotes, and in inline mode by the
    tokens of the parameter Override Set: one for each entry that is
    true or text, none for a false boolean, which is logged as an
    error.  File mode writes the params file, with the name and current
    value of every parameter of the catalog, and the audit file; inline
    mode writes no file. *)
Theorem build_command_modes (env : Env) (L : Launch) (w : World) :
  Forall (fun item => BoolOrText (snd item)) (nxf_flags L) ->
  Forall (fun item => BoolOrText (snd item)) (params_user L) ->
  let cmd := nextflow_cmd L +++ tokens "" (nxf_flags L) in
  let w1 := add_logs (reports "warning"
              "TODO: Can't set false boolean flags currently." (nxf_flags L)) w in
  (use_params_file L = true ->
     build_command env L w
     = (Ok (set_nextflow_cmd
              (cmd +++ " --params-file " +++ in_quotes (params_file env)) L),
        with_files
          (dict_set (audit_file env) (in_full_json (parameters L))
             (dict_set (params_file env) (in_nextflow_json (parameters L))
                (files w))) w1))
  /\ (use_params_file L = false ->
        build_command env L w
        = (Ok (set_nextflow_cmd (cmd +++ tokens "--" (params_user L)) L),
           add_logs (reports "error" "Can't set false boolean flags."
                       (params_user L)) w1))
  /\ in_nextflow_json (parameters L)
     = JObj (map (fun p => (name p, json_of_pyval (value p))) (parameters L)).
Proof.
  intros F P cmd w1. unfold build_command, bind.
  unfold add_flag. rewrite (add_tokens_run _ _ _ _ _ _ F). fold cmd w1.
  split; [|split; [|reflexivity]]; intros ->.
  - unfold create_nfx_params_file, write_params_as_full_json, bind,
      write_file, ret. reflexivity.
  - unfold add_param. rewrite (add_tokens_run _ _ _ _ _ _ P). reflexivity.
Qed.

(** ** Grouping *)

Lemma dict_get_set {V} (k k' : string) (v : V) (d : dict V) :
  dict_get k (dict_set k' v d)
  = if String.eqb k k' then Some v else dict_get k d.
Proof.
  induction d as [|[x y] d IH]; cbn [dict_set dict_get].
  - reflexivity.
  - destruct (String.eqb_spec k' x) as [->|N]; cbn [dict_get].
    + destruct (String.eqb k x); reflexivity.
    + rewrite IH. destruct (String.eqb_spec k x) as [->|N'].
      * destruct (String.eqb_spec x k'); [congruence | reflexivity].
      * reflexivity.
Qed.

Lemma dict_keys_set {V} (k : string) (v : V) (d : dict V) :
  dict_keys (dict_set k v d)
  = if dict_mem k d then dict_keys d else dict_keys d ++ [k].
Proof.
  unfold dict_mem, dict_keys.
  induction d as [|[x y] d IH]; cbn [dict_set dict_get map fst app].
  - reflexivity.
  - destruct (String.eqb_spec k x) as [->|N]; cbn [map fst].
    + reflexivity.
    + rewrite IH. destruct (dict_get k d); reflexivity.
Qed.

Lemma dict_mem_keys {V} (k : string) (d : dict V) :
  dict_mem k d = existsb (String.eqb k) (dict_keys d).
Proof.
  unfold dict_mem, dict_keys.
  induction d as [|[x y] d IH]; cbn [dict_get map fst existsb].
  - reflexivity.
  - destruct (String.eqb k x); [reflexivity | exact IH].
Qed.

Lemma group_one_get (g : dict (list nat)) (i : nat) (p : Param) (k : string) :
  dict_get k (group_one g (i, p))
  = if String.eqb k (group p)
    then Some (old_members (dict_get (group p) g) ++ [i])
    else dict_get k g.
Proof.
  unfold group_one, dict_mem.
  destruct (dict_get (group p) g) as [l|] eqn:E; cbn [negb old_members].
  - rewrite E, dict_get_set. reflexivity.
  - rewrite dict_get_set, String.eqb_refl, !dict_get_set.
    destruct (String.eqb k (group p)); reflexivity.
Qed.

Lemma group_one_keys (g : dict (list nat)) (i : nat) (p : Param) :
  dict_keys (group_one g (i, p))
  = if dict_mem (group p) g then dict_keys g else dict_keys g ++ [group p].
Proof.
  unfold group_one.
  destruct (dict_mem (group p) g) eqn:M; cbn [negb].
  - unfold dict_mem in M. destruct (dict_get (group p) g) eqn:E;
      [|discriminate]. rewrite dict_keys_set. unfold dict_mem. now rewrite E.
  - rewrite dict_get_set, String.eqb_refl, dict_keys_set.
    unfold dict_mem at 1. rewrite dict_get_set, String.eqb_refl.
    now rewrite dict_keys_set, M.
Qed.

Lemma group_fold_get (ps : list Param) (n : nat) (g : dict (list nat))
    (k : string) :
  dict_get k (fold_left group_one (combine (seq n (length ps)) ps) g)
  = extended (dict_get k g) (members_from n k ps).
Proof.
  revert n g. induction ps as [|p ps IH]; intros n g.
  - cbn. destruct (dict_get k g); cbn; [now rewrite app_nil_r | reflexivity].
  - cbn [length seq combine fold_left members_from].
    rewrite IH, group_one_get.
    destruct (String.eqb_spec k (group p)) as [->|N].
    + unfold extended. cbn [old_members app].
      rewrite <- app_assoc. cbn [app].
      destruct (dict_get (group p) g); reflexivity.
    + reflexivity.
Qed.

Lemma group_fold_keys (ps : list Param) (n : nat) (g : dict (list nat)) :
  dict_keys (fold_left group_one (combine (seq n (length ps)) ps) g)
  = add_keys (dict_keys g) (map group ps).
Proof.
  revert n g. induction ps as [|p ps IH]; intros n g; [reflexivity|].
  cbn [length seq combine fold_left map add_keys].
  now rewrite IH, group_one_keys, dict_mem_keys.
Qed.

Lemma filter_subsumed {A} (f g : A -> bool) (l : list A) :
  (forall a, f a = true -> g a = true) ->
  filter f (filter g l) = filter f l.
Proof.
  intros I. induction l as [|a l IH]; [reflexivity|]. cbn [filter].
  destruct (g a) eqn:G; cbn [filter]; rewrite IH; [reflexivity|].
  destruct (f a) eqn:F; [|reflexivity]. apply I in F. congruence.
Qed.

Lemma filter_all {A} (f : A -> bool) (l : list A) :
  (forall a, f a = true) -> filter f l = l.
Proof.
  intros T. induction l as [|a l IH]; [reflexivity|].
  cbn [filter]. now rewrite T, IH.
Qed.

Lemma filter_both {A} (f g : A -> bool) (l : list A) :
  filter f (filter g l) = filter (fun a => f a && g a) l.
Proof.
  induction l as [|a l IH]; [reflexivity|]. cbn [filter].
  destruct (g a); cbn [filter]; rewrite IH.
  - now rewrite andb_true_r.
  - now rewrite andb_false_r.
Qed.

Lemma add_keys_first_seen (l ks : list string) :
  add_keys ks l
  = ks ++ filter (fun y => negb (existsb (String.eqb y) ks)) (first_seen l).
Proof.
  revert ks. induction l as [|x l IH]; intros ks.
  - cbn. now rewrite app_nil_r.
  - cbn [add_keys first_seen filter]. rewrite IH.
    destruct (existsb (String.eqb x) ks) eqn:E; cbn [negb].
    + f_equal. symmetry. apply filter_subsumed. intros y Y.
      apply negb_true_iff. apply String.eqb_neq. intros ->.
      rewrite E in Y. discriminate.
    + rewrite <- app_assoc. cbn [app]. f_equal. f_equal.
      rewrite filter_both. apply filter_ext. intros y.
      rewrite existsb_app. cbn [existsb]. rewrite orb_false_r, negb_orb.
      reflexivity.
Qed.

Lemma objects_members_from (pre ps : list Param) (g : string) :
  objects (pre ++ ps) (members_from (length pre) g ps)
  = filter (fun p => String.eqb g (group p)) ps.
Proof.
  revert pre. induction ps as [|p ps IH]; intros pre; [reflexivity|].
  cbn [members_from filter].
  assert (T : objects (pre ++ p :: ps) (members_from (S (length pre)) g ps)
              = filter (fun q => String.eqb g (group q)) ps).
  { specialize (IH (pre ++ [p])). rewrite <- app_assoc in IH. cbn [app] in IH.
    rewrite length_app in IH. cbn [length] in IH.
    now rewrite Nat.add_1_r in IH. }
  destruct (String.eqb g (group p)); cbn [app objects].
  - rewrite nth_error_app2, Nat.sub_diag by lia. cbn [nth_error].
    now rewrite T.
  - exact T.
Qed.

Lemma grouped_after (L : Launch) :
  grouped_parameters (group_parameters L)
  = fold_left group_one
      (combine (seq 0 (length (parameters L))) (parameters L))
      (grouped_parameters L).
Proof. reflexivity. Qed.

(** X21. Starting from an empty grouping, [group_parameters] makes in
    one pass over the catalog an ordered map whose groups come in the
    order of their first parameter and whose lists hold the parameter
    objects of the group in catalog order; it changes nothing else of
    the launcher. *)
Theorem group_parameters_first_seen_order (L : Launch) :
  grouped_parameters L = [] ->
  let ps := parameters L in
  let G := grouped_parameters (group_parameters L) in
  dict_keys G = first_seen (map group ps)
  /\ (forall g, dict_get g G = match members g ps with
                               | [] => None
                               | l => Some l
                               end)
  /\ (forall g, objects ps (members g ps)
                = filter (fun p => String.eqb g (group p)) ps)
  /\ parameters (group_parameters L) = ps
  /\ workflow (group_parameters L) = workflow L
  /\ nxf_flags (group_parameters L) = nxf_flags L
  /\ params_user (group_parameters L) = params_user L
  /\ nextflow_cmd (group_parameters L) = nextflow_cmd L.
Proof.
  intros E ps G.
  split; [|split; [|split; [|repeat split]]].
  - unfold G. rewrite grouped_after, group_fold_keys, E, add_keys_first_seen.
    cbn [dict_keys map app]. apply filter_all. reflexivity.
  - intros g. unfold G. rewrite grouped_after, group_fold_get, E.
    unfold members, extended. cbn [dict_get old_members app]. fold ps.
    destruct (members_from 0 g ps); reflexivity.
  - intros g. exact (objects_members_from [] ps g).
Qed.

(** ** The interactive session *)

Lemma chars_append (a b : string) :
  Text.chars (a +++ b) = Text.chars a ++ Text.chars b.
Proof. induction a as [|x a IH]; simpl; [reflexivity | now rewrite IH]. Qed.




















Lemma prompt_text (text d : string) (w : World) (l : string)
    (rest : list string) :
  stdin w = l :: rest ->
  click_prompt text (VStr d) w
  = (Ok (if String.eqb l "" then VStr d else VStr l),
     with_stdin rest (show (text +++ ": ") w)).
Proof.
  unfold click_prompt. intros ->. cbn [prompt_loop convert_type click_convert].
  destruct (String.eqb l ""); reflexivity.
Qed.



Lemma bind_run {W A B} (m : M W A) (k : A -> M W B) (w w' : W) (a : A) :
  m w = (Ok a, w') -> bind m k w = k a w'.
Proof. unfold bind. now intros ->. Qed.

Lemma bind_echo {B} (s : string) (k : unit -> IO B) (w : World) :
  bind (echo s) k w = k tt (show s w).
Proof. reflexivity. Qed.

Lemma bind_lift {W A B} (a : A) (k : A -> M W B) (w : W) :
  bind (lift (Ok a)) k w = k a w.
Proof. reflexivity. Qed.

Lemma same_refl (L : Launch) : SameButParameters L L.
Proof. destruct L. reflexivity. Qed.

Lemma same_trans (L1 L2 L3 : Launch) :
  SameButParameters L1 L2 -> SameButParameters L2 L3 ->
  SameButParameters L1 L3.
Proof.
  unfold SameButParameters. intros E1 E2. rewrite E2 at 1. rewrite E1.
  reflexivity.
Qed.

Lemma foldM_invariant {W A B} (R : B -> B -> Prop) (f : B -> A -> M W B)
    (l : list A) :
  (forall b, R b b) ->
  (forall b1 b2 b3, R b1 b2 -> R b2 b3 -> R b1 b3) ->
  (forall b a w b' w', In a l -> f b a w = (Ok b', w') -> R b b') ->
  forall b w b' w', foldM f l b w = (Ok b', w') -> R b b'.
Proof.
  intros Rr Rt. induction l as [|a l IH]; intros Rf b w b' w'; cbn [foldM].
  - unfold ret. intros E. injection E as <- _. apply Rr.
  - unfold bind. destruct (f b a w) as [[b1|e] w1] eqn:F; [|discriminate].
    intros E. eapply Rt.
    + eapply Rf; [now left | exact F].
    + eapply IH; [|exact E]. intros b0 a0 w0 b0' w0' I.
      apply Rf. now right.
Qed.

Lemma prompt_value_frame (env : Env) (fuel i : nat) (first : bool)
    (L L' : Launch) (w w' : World) :
  prompt_value env fuel i first L w = (Ok L', w') -> SameButParameters L L'.
Proof.
  revert first L w. induction fuel as [|fuel IH]; intros first L w;
    cbn [prompt_value]; [discriminate|].
  unfold bind at 1, lift at 1.
  destruct (of_option IndexError (nth_error (parameters L) i)) as [p|e];
    [|discriminate].
  unfold bind at 1.
  destruct (ask_value p first w) as [[v|e] w1]; [|discriminate].
  destruct (validate env (set_value v p)) as [msg|].
  - rewrite !bind_echo. intros E. apply IH in E.
    eapply same_trans; [|exact E]. reflexivity.
  - unfold ret. intros E. injection E as <- _. reflexivity.
Qed.

Lemma prompt_param_flags_frame (env : Env) (L L' : Launch) (w w' : World) :
  prompt_param_flags env L w = (Ok L', w') -> SameButParameters L L'.
Proof.
  unfold prompt_param_flags.
  apply (foldM_invariant SameButParameters); [apply same_refl|apply same_trans|].
  intros b [g refs] w0 b' w0' _. unfold prompt_group, bind, echo.
  destruct (click_confirm _ _ _) as [[a|e] w1]; [|discriminate].
  destruct (negb (py_truthy a)).
  - unfold ret. intros E. injection E as <- _. apply same_refl.
  - apply (foldM_invariant SameButParameters);
      [apply same_refl|apply same_trans|].
    intros b0 i w2 b2 w2' _. unfold prompt_parameter.
    apply prompt_value_frame.
Qed.



Lemma store_value_other (i : nat) (v : pyval) (ps : list Param) (j : nat) :
  j <> i -> nth_error (store_value i v ps) j = nth_error ps j.
Proof.
  revert i j. induction ps as [|p ps IH]; intros [|i] [|j] N;
    cbn [store_value nth_error]; try reflexivity.
  - contradiction.
  - apply IH. congruence.
Qed.

(** ** What the prompts can return *)

Lemma prompt_loop_text (prompt : string) (d : pyval) (lines : list string)
    (w w' : World) (u : pyval) :
  convert_type d = STRING ->
  prompt_loop prompt d lines w = (Ok u, w') ->
  u = d \/ exists s, u = VStr s.
Proof.
  intros T. revert w. induction lines as [|l rest IH]; intros w;
    cbn [prompt_loop]; [discriminate|].
  rewrite T. cbn [click_convert]. destruct (String.eqb l "").
  - destruct d; try (intros E; injection E as <- _; now left). apply IH.
  - intros E. injection E as <- _. right. now exists l.
Qed.

Lemma normalize_bool_or_text (u : pyval) :
  BoolOrText u -> BoolOrText (normalize_flag u).
Proof.
  intros [[b ->] | [s ->]]; cbn [normalize_flag].
  - left. now exists b.
  - destruct (String.eqb _ "true"); [left; now exists true|].
    destruct (String.eqb _ "false"); [left; now exists false|].
    right. eauto.
Qed.

Lemma dict_set_Forall {V} (P : string * V -> Prop) (k : string) (v : V)
    (d : dict V) :
  P (k, v) -> Forall P d -> Forall P (dict_set k v d).
Proof.
  intros Pk F. induction F as [|[x y] d Px F IH]; cbn [dict_set].
  - now constructor.
  - destruct (String.eqb k x); now constructor.
Qed.

Lemma prompt_flag_bool_or_text (L L' : Launch) (flag : string) (f0 : pyval)
    (w w' : World) :
  BoolOrText (prompt_default f0) ->
  prompt_flag L (flag, f0) w = (Ok L', w') ->
  Forall (fun item => BoolOrText (snd item)) (nxf_flags L) ->
  Forall (fun item => BoolOrText (snd item)) (nxf_flags L').
Proof.
  intros B. unfold prompt_flag, bind at 1, lift.
  destruct (of_option KeyError (dict_get flag (nxf_flag_help L))) as [help|e];
    [|discriminate].
  unfold bind.
  destruct (click_prompt _ _ w) as [[u|e] w1] eqn:C; [|discriminate].
  assert (U : BoolOrText u).
  { unfold click_prompt in C. apply prompt_loop_text in C.
    - destruct C as [-> | [s ->]]; [exact B | right; eauto].
    - destruct B as [[b ->] | [s ->]]; reflexivity. }
  destruct (negb (py_eqb u (prompt_default f0))); unfold ret;
    intros E; injection E as <- _; [|trivial].
  intros F. cbn [nxf_flags set_nxf_flags].
  apply dict_set_Forall; [|exact F]. cbn [snd].
  now apply normalize_bool_or_text.
Qed.

Lemma new_launcher_flags_bool_or_text (env : Env) (wf : string)
    (w0 w' : World) (L' : Launch) :
  prompt_core_nxf_flags (new_launcher env wf) w0 = (Ok L', w') ->
  Forall (fun item => BoolOrText (snd item)) (nxf_flags L').
Proof.
  unfold prompt_core_nxf_flags. rewrite bind_echo. intros E.
  set (R := fun L1 L2 : Launch =>
              Forall (fun item => BoolOrText (snd item)) (nxf_flags L1) ->
              Forall (fun item => BoolOrText (snd item)) (nxf_flags L2)).
  assert (Inv : R (new_launcher env wf) L').
  { eapply (foldM_invariant R); [| | |exact E].
    - intros L1 P. exact P.
    - intros L1 L2 L3 P Q F. apply Q, P, F.
    - intros L1 [flag f0] w1 L2 w2 I P. unfold R.
      apply (prompt_flag_bool_or_text L1 L2 flag f0 w1 w2); [|exact P].
      cbn [nxf_flag_defaults new_launcher] in I.
      repeat (destruct I as [I|I];
              [injection I as _ <-; cbn [prompt_default];
               (right; eexists; reflexivity) || (left; eexists; reflexivity)|]).
      destruct I. }
  apply Inv. constructor.
Qed.

(** ** The retry loop never runs out of rounds *)

Lemma prompt_loop_consumes (prompt : string) (d : pyval)
    (lines : list string) (w w' : World) (r : res pyval) :
  prompt_loop prompt d lines w = (r, w') ->
  (forall u, r = Ok u -> length (stdin w') < length lines)
  /\ r <> Raise FuelOut.
Proof.
  revert w. induction lines as [|l rest IH]; intros w; cbn [prompt_loop].
  - intros E. injection E as <- _. split; discriminate.
  - assert (Done : forall (a : res pyval) (w1 : World),
              a <> Raise FuelOut ->
              (a, with_stdin rest w1) = (r, w') ->
              (forall u, r = Ok u -> length (stdin w') < length (l :: rest))
              /\ r <> Raise FuelOut).
    { intros a w1 N E. injection E as <- <-. split; [|exact N].
      intros _ _. cbn. lia. }
    assert (Again : forall w1, prompt_loop prompt d rest w1 = (r, w') ->
              (forall u, r = Ok u -> length (stdin w') < length (l :: rest))
              /\ r <> Raise FuelOut).
    { intros w1 E. apply IH in E. destruct E as [E N]. split; [|exact N].
      intros u U. specialize (E u U). cbn. lia. }
    destruct (String.eqb l "").
    + destruct d; try (apply Done; discriminate). apply Again.
    + destruct (click_convert (convert_type d) l).
      * apply Done. discriminate.
      * apply Again.
Qed.

Lemma confirm_loop_consumes (prompt : string) (d : pyval)
    (lines : list string) (w w' : World) (r : res pyval) :
  confirm_loop prompt d lines w = (r, w') ->
  (forall u, r = Ok u -> length (stdin w') < length lines)
  /\ r <> Raise FuelOut.
Proof.
  revert w. induction lines as [|l rest IH]; intros w; cbn [confirm_loop].
  - intros E. injection E as <- _. split; discriminate.
  - assert (Done : forall (a : res pyval) (w1 : World),
              a <> Raise FuelOut ->
              (a, with_stdin rest w1) = (r, w') ->
              (forall u, r = Ok u -> length (stdin w') < length (l :: rest))
              /\ r <> Raise FuelOut).
    { intros a w1 N E. injection E as <- <-. split; [|exact N].
      intros _ _. cbn. lia. }
    destruct (_ || _); [apply Done; discriminate|].
    destruct (_ || _); [apply Done; discriminate|].
    destruct (String.eqb _ ""); [apply Done; discriminate|].
    intros E. apply IH in E. destruct E as [E N]. split; [|exact N].
    intros u U. specialize (E u U). cbn. lia.
Qed.

Lemma coerce_no_fuel (p_type : string) (a : pyval) :
  coerce p_type a <> Raise FuelOut.
Proof.
  unfold coerce. destruct (String.eqb p_type "integer").
  - destruct a as [| | |x|s]; cbn; try discriminate.
    + destruct (Z_of_float x); discriminate.
    + destruct (int_of_str s); discriminate.
  - destruct (String.eqb p_type "decimal"); [|discriminate].
    destruct a as [|b|z| |s]; cbn; try discriminate.
    + destruct (float_of_Z (Z_of_bool b)); discriminate.
    + destruct (float_of_Z z); discriminate.
    + destruct (float_of_string s); discriminate.
Qed.

Lemma ask_value_consumes (p : Param) (first : bool) (w w' : World)
    (r : res pyval) :
  ask_value p first w = (r, w') ->
  (forall v, r = Ok v -> length (stdin w') < length (stdin w))
  /\ r <> Raise FuelOut.
Proof.
  unfold ask_value, bind, lift.
  destruct (String.eqb (param_type p) "boolean").
  - destruct (click_confirm _ _ w) as [[a|e] w1] eqn:C;
      unfold click_confirm in C; apply confirm_loop_consumes in C;
      destruct C as [C N]; intros E; injection E as <- <-.
    + split; [intros v _; now apply (C a) | apply coerce_no_fuel].
    + split; [discriminate | exact N].
  - destruct (click_prompt _ _ w) as [[a|e] w1] eqn:C;
      unfold click_prompt in C; apply prompt_loop_consumes in C;
      destruct C as [C N]; intros E; injection E as <- <-.
    + split; [intros v _; now apply (C a) | apply coerce_no_fuel].
    + split; [discriminate | exact N].
Qed.

Lemma prompt_value_fuel (env : Env) (fuel i : nat) (first : bool)
    (L : Launch) (w : World) :
  length (stdin w) < fuel ->
  fst (prompt_value env fuel i first L w) <> Raise FuelOut.
Proof.
  revert first L w. induction fuel as [|fuel IH]; intros first L w F;
    [lia|]. cbn [prompt_value]. unfold bind at 1, lift at 1.
  destruct (of_option IndexError (nth_error (parameters L) i)) as [p|e] eqn:D.
  - unfold bind at 1.
    destruct (ask_value p first w) as [[v|e] w1] eqn:A;
      apply ask_value_consumes in A; destruct A as [A N].
    + specialize (A v eq_refl).
      destruct (validate env (set_value v p)) as [msg|].
      * rewrite !bind_echo. apply IH. cbn [stdin show]. lia.
      * discriminate.
    + cbn [fst]. intros Q. apply N. injection Q as ->. reflexivity.
  - destruct (nth_error (parameters L) i); cbn in D; [discriminate|].
    injection D as <-. discriminate.
Qed.

Lemma prompt_parameter_no_fuel (env : Env) (L : Launch) (i : nat)
    (w : World) :
  fst (prompt_parameter env L i w) <> Raise FuelOut.
Proof. unfold prompt_parameter. apply prompt_value_fuel. lia. Qed.

(** C6. The flag prompts of a new launcher leave only booleans and text
    in the flag Override Set.  On such a set the loop of
    [build_command] appends, entry by entry: the bare flag for a true
    boolean; nothing for a false boolean, for which it logs a warning;
    the flag and, between two double quotes, the text with a backslash
    put before each of its double quotes, so that every double quote
    of the value comes after a backslash. *)
Theorem build_command_flag_tokens (flags : dict pyval) (cmd : string)
    (w : World) :
  Forall (fun item => BoolOrText (snd item)) flags ->
  foldM add_flag flags cmd w
  = (Ok (cmd +++ tokens "" flags),
     add_logs (reports "warning"
                 "TODO: Can't set false boolean flags currently." flags) w)
  /\ (forall flag, token "" (flag, VBool true) = " " +++ flag)
  /\ (forall flag, token "" (flag, VBool false) = "")
  /\ (forall flag s,
        exists e,
          Escaped s e
          /\ token "" (flag, VStr s)
             = " " +++ flag +++ " "
               +++ String Text.dquote (e +++ String Text.dquote "")
          /\ QuotesEscaped e)
  /\ (forall s e e', Escaped s e -> Escaped s e' -> e = e')
  /\ (forall env wf w0 L' w',
        prompt_core_nxf_flags (new_launcher env wf) w0 = (Ok L', w') ->
        Forall (fun item => BoolOrText (snd item)) (nxf_flags L')).
Proof.
  intros F. split; [|split; [|split; [|split; [|split]]]].
  - unfold add_flag. now apply add_tokens_run.
  - reflexivity.
  - reflexivity.
  - intros flag s. exists (backslashed s).
    split; [apply backslashed_Escaped|]. split; [reflexivity|].
    rewrite <- escape_backslashed. apply escape_quotes_guarded.
  - intros s e e' E E'. apply Escaped_backslashed in E, E'. congruence.
  - intros env wf w0 L' w'. apply new_launcher_flags_bool_or_text.
Qed.


(** ** More on the catalog from the configuration *)

Lemma guess_param_typed (v p_type : string) (p_default : pyval) :
  guess_param v = Ok (p_type, p_default) ->
  runtime_type p_default = Some p_type.
Proof.
  unfold guess_param. destruct (str_isdigit v).
  - destruct (int_of_str v); [|discriminate].
    destruct (_ || _); intros E; injection E as <- <-; reflexivity.
  - destruct (float_of_string v);
      destruct (_ || _); intros E; injection E as <- <-; reflexivity.
Qed.

Lemma Catalog_typed (config : dict string) (new : list Param) :
  Catalog config new ->
  Forall (fun p => runtime_type (default_value p) = Some (param_type p)) new.
Proof.
  induction 1 as [|key n v t d config ps K G C IH|key v config ps K C IH].
  - constructor.
  - constructor; [|exact IH]. exact (guess_param_typed v t d G).
  - exact IH.
Qed.

(** X1. On a configuration whose parameter values the guess can all
    read, [collect_pipeline_param_defaults] returns, and every parameter
    it has added to the catalog has a default whose runtime type is the
    type it declares: an integer for integer, a float for decimal, a
    boolean for boolean, text for string. *)
Theorem synthesized_defaults_have_declared_type (env : Env) (L : Launch)
    (w : World) :
  Readable (fetch_wf_config env (workflow L)) ->
  exists L' w' new,
    collect_pipeline_param_defaults env L w = (Ok L', w')
    /\ parameters L' = parameters L ++ new
    /\ Forall (fun p => runtime_type (default_value p) = Some (param_type p))
         new.
Proof.
  intros R.
  destruct (collect_items_readable _ (parameters L) R) as (new & E & C & _).
  rewrite collect_run, E. eexists. eexists. exists new.
  split; [reflexivity|]. split; [reflexivity|].
  exact (Catalog_typed _ _ C).
Qed.

Lemma Catalog_names (config : dict string) (new : list Param) :
  Catalog config new ->
  forall n, In n (map name new) ->
            In ("params." +++ n) (map fst config) /\ ~ HasChar "." n.
Proof.
  induction 1 as [|key n0 v t d config ps K G C IH|key v config ps K C IH];
    intros n I.
  - destruct I.
  - destruct K as [-> N]. cbn [map name build_param] in I. cbn [map fst].
    destruct I as [<-|I].
    + split; [now left | exact N].
    + destruct (IH n I) as [I' N']. split; [now right | exact N'].
  - destruct (IH n I) as [I' N']. split; [now right | exact N'].
Qed.

Lemma Catalog_NoDup (config : dict string) (new : list Param) :
  Catalog config new -> NoDup (map fst config) -> NoDup (map name new).
Proof.
  induction 1 as [|key n v t d config ps K G C IH|key v config ps K C IH];
    cbn [map fst]; intros D.
  - constructor.
  - inversion D as [|? ? Nk Dk]; subst. cbn [name build_param].
    constructor; [|now apply IH].
    intros I. apply (Catalog_names _ _ C) in I. destruct I as [I _].
    destruct K as [-> _]. contradiction.
  - inversion D; subst. now apply IH.
Qed.

(** X2. When the fallback runs on an empty catalog and the keys of the
    configuration are distinct, as those of a dictionary are, and its
    parameter values are ones the guess can read, it returns, and the
    parameters of the resulting catalog have distinct names, none of
    which contains a dot. *)
Theorem synthesized_names_are_distinct (env : Env) (L : Launch) (w : World) :
  parameters L = [] ->
  NoDup (map fst (fetch_wf_config env (workflow L))) ->
  Readable (fetch_wf_config env (workflow L)) ->
  exists L' w',
    collect_pipeline_param_defaults env L w = (Ok L', w')
    /\ NoDup (map name (parameters L'))
    /\ Forall (fun p => ~ HasChar "." (name p)) (parameters L').
Proof.
  intros Hp D R.
  destruct (collect_items_readable _ (parameters L) R) as (new & E & C & _).
  rewrite collect_run, E, Hp. eexists. eexists. split; [reflexivity|].
  cbn [parameters set_parameters app]. split.
  - now apply Catalog_NoDup with (config := fetch_wf_config env (workflow L)).
  - apply Forall_forall. intros p I.
    apply (Catalog_names _ _ C). now apply in_map.
Qed.

(** ** More on the parameter prompts *)

Lemma store_value_same (i : nat) (v : pyval) (ps : list Param) (p : Param) :
  nth_error ps i = Some p ->
  nth_error (store_value i v ps) i = Some (set_value v p).
Proof.
  revert i. induction ps as [|q ps IH]; intros [|i]; cbn [nth_error store_value];
    try discriminate.
  - intros E. now injection E as ->.
  - apply IH.
Qed.

Lemma store_value_twice (i : nat) (v v' : pyval) (ps : list Param) :
  store_value i v (store_value i v' ps) = store_value i v ps.
Proof.
  revert i. induction ps as [|q ps IH]; intros [|i]; cbn [store_value];
    try reflexivity.
  now rewrite IH.
Qed.

Lemma store_value_shape (i : nat) (v : pyval) (ps : list Param) :
  map without_value (store_value i v ps) = map without_value ps.
Proof.
  revert i. induction ps as [|q ps IH]; intros [|i]; cbn [store_value map];
    try reflexivity.
  now rewrite IH.
Qed.

Lemma eqb_empty_false (l : string) : l <> "" -> String.eqb l "" = false.
Proof. intros N. now apply String.eqb_neq. Qed.

Lemma first_prompt_lines (p : Param) :
  Text.join Text.newline (param_plines p true) +++ ": " = first_prompt p.
Proof.
  unfold param_plines, first_prompt, own_line, choices_line, flag_line,
    shown_default, truthy_text, truthy_list, Text.join.
  destruct (label p) as [[|a s]|]; destruct (usage p) as [[|b t]|];
    destruct (choices p) as [[|c l]|];
    destruct (String.eqb (param_type p) "string");
    cbn [String.eqb negb app String.concat String.append Text.newline];
    repeat first [rewrite append_assoc | progress cbn [String.append]];
    reflexivity.
Qed.

Lemma retry_prompt_lines (p : Param) :
  Text.join Text.newline (param_plines p false) +++ ": " = retry_prompt p.
Proof.
  unfold param_plines, retry_prompt, flag_line, shown_default, Text.join.
  cbn [String.concat].
  repeat first [rewrite append_assoc | progress cbn [String.append]].
  reflexivity.
Qed.

Lemma ask_text (p : Param) (first : bool) (d a : string) (w : World)
    (rest : list string) :
  param_type p = "string" -> default_value p = VStr d ->
  stdin w = a :: rest -> a <> "" ->
  ask_value p first w
  = (Ok (VStr a),
     with_stdin rest
       (show (Text.join Text.newline (param_plines p first) +++ ": ") w)).
Proof.
  intros Ht Hd Hs Ha. unfold ask_value. rewrite Ht, Hd.
  cbn [String.eqb Ascii.eqb Bool.eqb].
  erewrite bind_run; [|apply prompt_text; exact Hs].
  rewrite (eqb_empty_false a Ha). reflexivity.
Qed.

(** X4. An integer parameter without a default is read as text, and the
    cast to integer is outside the [try]: when the operator types text
    that [int] refuses, the session does not ask again but ends with
    [ValueError], after the one prompt. *)
Theorem integer_without_default_raises (env : Env) (L : Launch) (i : nat)
    (p : Param) (w : World) (l : string) (rest : list string) :
  nth_error (parameters L) i = Some p ->
  param_type p = "integer" -> default_value p = VNone ->
  stdin w = l :: rest -> l <> "" -> int_of_str l = None ->
  prompt_parameter env L i w
  = (Raise ValueError, with_stdin rest (show (first_prompt p) w)).
Proof.
  intros Hn Ht Hd Hs Hl Hi. unfold prompt_parameter. rewrite Hs.
  cbn [length prompt_value]. rewrite Hn. cbn [of_option]. rewrite bind_lift.
  unfold bind at 1, ask_value. rewrite Ht, Hd.
  cbn [String.eqb Ascii.eqb Bool.eqb]. unfold bind, click_prompt. rewrite Hs.
  cbn [prompt_loop convert_type click_convert]. rewrite (eqb_empty_false l Hl).
  unfold lift, coerce. cbn [String.eqb Ascii.eqb Bool.eqb py_int].
  rewrite Hi, first_prompt_lines. reflexivity.
Qed.

(** X5. A value that [validate] rejects is reported and asked again: for
    a string parameter and two typed lines, of which the validator
    rejects the first and accepts the second, the session shows the
    full prompt, the error, the request to try again and then only the
    flag line of the prompt (the option and its default in brackets),
    and the parameter ends with the second line as its value. *)
Theorem rejected_value_is_asked_again (env : Env) (L : Launch) (i : nat)
    (p : Param) (w : World) (d a1 a2 msg : string) (rest : list string) :
  nth_error (parameters L) i = Some p ->
  param_type p = "string" -> default_value p = VStr d ->
  stdin w = a1 :: a2 :: rest -> a1 <> "" -> a2 <> "" ->
  validate env (set_value (VStr a1) p) = Some msg ->
  validate env (set_value (VStr a2) p) = None ->
  prompt_parameter env L i w
  = (Ok (set_parameters (store_value i (VStr a2) (parameters L)) L),
     mkWorld rest
       (console w ++ [first_prompt p; Text.newline +++ "ERROR: " +++ msg;
                      "Please try again:"; retry_prompt p])
       (logs w) (files w) (calls w)).
Proof.
  intros Hn Ht Hd Hs H1 H2 Hv1 Hv2. unfold prompt_parameter. rewrite Hs.
  cbn [length prompt_value]. rewrite Hn. cbn [of_option]. rewrite bind_lift.
  erewrite bind_run; [|eapply ask_text; eassumption].
  rewrite Hv1, !bind_echo.
  cbn [parameters set_parameters].
  rewrite (store_value_same i (VStr a1) _ p Hn). cbn [of_option].
  rewrite bind_lift.
  erewrite bind_run;
    [|eapply (ask_text _ false d a2);
      [exact Ht | exact Hd | reflexivity | exact H2]].
  change (validate env (set_value (VStr a2) (set_value (VStr a1) p)))
    with (validate env (set_value (VStr a2) p)).
  rewrite Hv2, store_value_twice. unfold ret, with_stdin, show.
  cbn [stdin console logs files calls].
  rewrite first_prompt_lines, retry_prompt_lines, <- !app_assoc. reflexivity.
Qed.

Lemma decline_group (env : Env) (L : Launch) (item : string * list nat)
    (w : World) (a : string) (rest : list string) :
  stdin w = a :: rest -> SaysNo a ->
  prompt_group env L item w
  = (Ok L,
     mkWorld rest (console w ++ [group_header (fst item); group_question])
       (logs w) (files w) (calls w)).
Proof.
  intros Hs Ha. destruct item as [g refs]. unfold prompt_group.
  rewrite bind_echo. erewrite bind_run; [|eapply confirm_no; [exact Hs|exact Ha]].
  cbn [py_truthy negb]. unfold ret, with_stdin, show.
  cbn [stdin console logs files calls fst].
  rewrite <- app_assoc. reflexivity.
Qed.

Lemma decline_groups (env : Env) (L : Launch) (items : dict (list nat))
    (answers rest : list string) (w : World) :
  length answers = length items -> Forall SaysNo answers ->
  stdin w = answers ++ rest ->
  foldM (prompt_group env) items L w
  = (Ok L,
     mkWorld rest
       (console w
        ++ flat_map (fun item => [group_header (fst item); group_question])
             items)
       (logs w) (files w) (calls w)).
Proof.
  revert answers w. induction items as [|item items IH];
    intros [|a answers] w Hl Hf Hs; try discriminate Hl.
  - cbn [foldM flat_map]. cbn [app] in Hs. unfold ret.
    rewrite app_nil_r, <- Hs. now destruct w.
  - inversion Hf as [|? ? Ha Hf']; subst. cbn [foldM].
    erewrite bind_run; [|eapply decline_group; [exact Hs | exact Ha]].
    rewrite (IH answers); [|now injection Hl | exact Hf' | reflexivity].
    cbn [console logs files calls flat_map]. now rewrite <- app_assoc.
Qed.

(** X6. When the operator answers no (or just Enter) to the question of
    every group, the session asks for no parameter: it reads one line a
    group, shows the header and the question of each group in order,
    and leaves the launcher, the log and the files as they were. *)
Theorem declined_groups_are_skipped (env : Env) (L : Launch) (w : World)
    (answers rest : list string) :
  length answers = length (grouped_parameters L) ->
  Forall SaysNo answers ->
  stdin w = answers ++ rest ->
  prompt_param_flags env L w
  = (Ok L,
     mkWorld rest
       (console w
        ++ flat_map (fun item => [group_header (fst item); group_question])
             (grouped_parameters L))
       (logs w) (files w) (calls w)).
Proof. unfold prompt_param_flags. apply decline_groups. Qed.

Lemma prompt_value_shape (env : Env) (fuel i : nat) (first : bool)
    (L L' : Launch) (w w' : World) :
  prompt_value env fuel i first L w = (Ok L', w') ->
  map without_value (parameters L') = map without_value (parameters L).
Proof.
  revert first L w. induction fuel as [|fuel IH]; intros first L w;
    cbn [prompt_value]; [discriminate|].
  unfold bind at 1, lift at 1.
  destruct (of_option IndexError (nth_error (parameters L) i)) as [p|e];
    [|discriminate].
  unfold bind at 1.
  destruct (ask_value p first w) as [[v|e] w1]; [|discriminate].
  destruct (validate env (set_value v p)) as [msg|].
  - rewrite !bind_echo. intros E. apply IH in E. rewrite E.
    cbn [parameters set_parameters]. apply store_value_shape.
  - unfold ret. intros E. injection E as <- _.
    cbn [parameters set_parameters]. apply store_value_shape.
Qed.

Lemma prompt_param_flags_shape (env : Env) (L L' : Launch) (w w' : World) :
  prompt_param_flags env L w = (Ok L', w') ->
  map without_value (parameters L') = map without_value (parameters L).
Proof.
  unfold prompt_param_flags.
  apply (foldM_invariant
           (fun L1 L2 : Launch =>
              map without_value (parameters L2)
              = map without_value (parameters L1))).
  - reflexivity.
  - intros L1 L2 L3 E1 E2. now rewrite E2.
  - intros b [g refs] w0 b' w0' _. unfold prompt_group. rewrite bind_echo.
    unfold bind.
    destruct (click_confirm _ _ _) as [[a|e] w1]; [|discriminate].
    destruct (negb (py_truthy a)).
    + unfold ret. intros E. now injection E as <- _.
    + apply (foldM_invariant
               (fun L1 L2 : Launch =>
                  map without_value (parameters L2)
                  = map without_value (parameters L1))).
      * reflexivity.
      * intros L1 L2 L3 E1 E2. now rewrite E2.
      * intros b0 i w2 b2 w2' _. unfold prompt_parameter.
        apply prompt_value_shape.
Qed.

(** X7. The parameter prompts change current values and nothing else: in
    a session that completes, the catalog keeps its length and order,
    every parameter keeps its name, type, default, choices and group,
    and every other field of the launcher is as before. *)
Theorem session_changes_values_only (env : Env) (L L' : Launch)
    (w w' : World) :
  prompt_param_flags env L w = (Ok L', w') ->
  map without_value (parameters L') = map without_value (parameters L)
  /\ length (parameters L') = length (parameters L)
  /\ L' = set_parameters (parameters L') L.
Proof.
  intros E. pose proof (prompt_param_flags_shape _ _ _ _ _ E) as S.
  split; [exact S|]. split.
  - apply (f_equal (@length _)) in S. now rewrite !length_map in S.
  - exact (prompt_param_flags_frame _ _ _ _ _ E).
Qed.


(** ** More on grouping *)

Lemma members_from_In (ps : list Param) (n : nat) (g : string) (i : nat) :
  In i (members_from n g ps)
  <-> exists p, n <= i /\ nth_error ps (i - n) = Some p /\ group p = g.
Proof.
  revert n. induction ps as [|q ps IH]; intros n; cbn [members_from].
  - split; [intros [] | intros (p & _ & E & _)].
    destruct (i - n); discriminate E.
  - rewrite in_app_iff, IH. split.
    + intros [I | (p & Hn & E & G)].
      * destruct (String.eqb_spec g (group q)) as [->|N]; [|destruct I].
        destruct I as [<-|[]]. exists q. rewrite Nat.sub_diag.
        repeat split. lia.
      * exists p. split; [lia|]. split; [|exact G].
        replace (i - n) with (S (i - S n)) by lia. exact E.
    + intros (p & Hn & E & G). destruct (Nat.eq_dec i n) as [->|D].
      * left. rewrite Nat.sub_diag in E. cbn in E. injection E as ->.
        rewrite <- G, String.eqb_refl. now left.
      * right. exists p. split; [lia|]. split; [|exact G].
        replace (i - n) with (S (i - S n)) in E by lia. exact E.
Qed.

Lemma members_from_NoDup (ps : list Param) (n : nat) (g : string) :
  NoDup (members_from n g ps).
Proof.
  revert n. induction ps as [|q ps IH]; intros n; cbn [members_from].
  - constructor.
  - destruct (String.eqb g (group q)); cbn [app]; [|apply IH].
    constructor; [|apply IH]. intros I. apply members_from_In in I.
    destruct I as (p & Hn & _). lia.
Qed.

Lemma first_seen_NoDup (l : list string) : NoDup (first_seen l).
Proof.
  induction l as [|x l IH]; cbn [first_seen]; constructor.
  - intros I. apply filter_In in I. destruct I as [_ N].
    now rewrite String.eqb_refl in N.
  - now apply NoDup_filter.
Qed.

Lemma grouped_from_empty (L : Launch) :
  grouped_parameters L = [] ->
  dict_keys (grouped_parameters (group_parameters L))
  = first_seen (map group (parameters L))
  /\ forall g, dict_get g (grouped_parameters (group_parameters L))
               = match members g (parameters L) with
                 | [] => None
                 | l => Some l
                 end.
Proof.
  intros E. split.
  - rewrite grouped_after, group_fold_keys, E, add_keys_first_seen.
    cbn [dict_keys map app]. apply filter_all. reflexivity.
  - intros g. rewrite grouped_after, group_fold_get, E.
    unfold members, extended. cbn [dict_get old_members app].
    destruct (members_from 0 g (parameters L)); reflexivity.
Qed.

(** X8. Grouping a catalog, from the empty grouping, partitions it: the
    group labels of the map are distinct, the list of a group holds
    exactly the positions of the parameters that declare this group,
    each once, and every parameter of the catalog is in the list of its
    own group. *)
Theorem grouping_is_a_partition (L : Launch) :
  grouped_parameters L = [] ->
  let ps := parameters L in
  let G := grouped_parameters (group_parameters L) in
  NoDup (dict_keys G)
  /\ (forall g l, dict_get g G = Some l ->
        NoDup l
        /\ forall i, In i l <-> exists p, nth_error ps i = Some p /\ group p = g)
  /\ (forall i p, nth_error ps i = Some p ->
        exists l, dict_get (group p) G = Some l /\ In i l).
Proof.
  intros E ps G. destruct (grouped_from_empty L E) as [K M].
  fold ps in K, M. fold G in K, M.
  assert (I0 : forall g i, In i (members g ps)
                           <-> exists p, nth_error ps i = Some p /\ group p = g).
  { intros g i. unfold members. rewrite members_from_In.
    rewrite Nat.sub_0_r. split.
    - intros (p & _ & A & B). eauto.
    - intros (p & A & B). exists p. repeat split; [lia| |]; assumption. }
  split; [|split].
  - rewrite K. apply first_seen_NoDup.
  - intros g l D. rewrite M in D.
    assert (Q : l = members g ps).
    { destruct (members g ps); [discriminate | now injection D]. }
    subst l. split; [apply members_from_NoDup | apply I0].
  - intros i p N. exists (members (group p) ps).
    assert (I : In i (members (group p) ps)) by (apply I0; eauto).
    split; [|exact I]. rewrite M.
    destruct (members (group p) ps); [destruct I | reflexivity].
Qed.


(** ** How the parameter session can end *)

Lemma foldM_safe {W A B} (Inv : B -> Prop) (Q : exn -> Prop)
    (f : B -> A -> M W B) (l : list A) :
  (forall b a w, In a l -> Inv b ->
     match f b a w with
     | (Ok b', _) => Inv b'
     | (Raise e, _) => Q e
     end) ->
  forall b w, Inv b ->
    match foldM f l b w with
    | (Ok b', _) => Inv b'
    | (Raise e, _) => Q e
    end.
Proof.
  induction l as [|a l IH]; intros Step b w I; cbn [foldM].
  - exact I.
  - unfold bind. specialize (Step b a w (or_introl eq_refl) I) as S1.
    destruct (f b a w) as [[b1|e] w1]; [|exact S1].
    apply IH; [|exact S1]. intros b0 a0 w0 I0. apply Step. now right.
Qed.

Lemma prompt_loop_outcome (prompt : string) (d : pyval)
    (lines : list string) (w : World) :
  match prompt_loop prompt d lines w with
  | (Ok u, _) => u = d \/ exists l, click_convert (convert_type d) l = inl u
  | (Raise e, _) => e = Abort
  end.
Proof.
  revert w. induction lines as [|l rest IH]; intros w; cbn [prompt_loop].
  - reflexivity.
  - destruct (String.eqb l "").
    + destruct d; try (now left). apply IH.
    + destruct (click_convert (convert_type d) l) eqn:C; [|apply IH].
      right. now exists l.
Qed.

Lemma confirm_loop_outcome (prompt : string) (d : pyval)
    (lines : list string) (w : World) :
  match confirm_loop prompt d lines w with
  | (Ok _, _) => True
  | (Raise e, _) => e = Abort
  end.
Proof.
  revert w. induction lines as [|l rest IH]; intros w; cbn [confirm_loop].
  - reflexivity.
  - destruct (_ || _); [exact I|].
    destruct (_ || _); [exact I|].
    destruct (String.eqb _ ""); [exact I | apply IH].
Qed.

Lemma ask_value_safe (p : Param) (first : bool) (w : World) :
  CastableDefault p ->
  match ask_value p first w with
  | (Ok _, _) => True
  | (Raise e, _) => e = Abort
  end.
Proof.
  intros [Ci Cd]. unfold ask_value, bind, lift.
  destruct (String.eqb_spec (param_type p) "boolean") as [B|B].
  - pose proof (confirm_loop_outcome
                  (Text.join Text.newline (param_plines p first) +++ ": ")
                  (default_value p) (stdin w) w) as O.
    unfold click_confirm.
    destruct (confirm_loop _ _ _ w) as [[a|e] w1]; [|exact O].
    rewrite B. exact I.
  - pose proof (prompt_loop_outcome
                  (Text.join Text.newline (param_plines p first) +++ ": ")
                  (default_value p) (stdin w) w) as O.
    unfold click_prompt.
    destruct (prompt_loop _ _ _ w) as [[a|e] w1]; [|exact O].
    unfold coerce.
    destruct (String.eqb_spec (param_type p) "integer") as [Ti|Ti].
    + destruct (Ci Ti) as [z Dz]. rewrite Dz in O. cbn [convert_type] in O.
      assert (A : exists z', a = VInt z').
      { destruct O as [-> | [l C]]; [eauto|]. cbn [click_convert] in C.
        destruct (int_of_str l); [|discriminate].
        injection C as <-. eauto. }
      destruct A as [z' ->]. exact I.
    + destruct (String.eqb_spec (param_type p) "decimal") as [Td|Td];
        [|exact I].
      destruct (Cd Td) as [x Dx]. rewrite Dx in O. cbn [convert_type] in O.
      assert (A : exists x', a = VFloat x').
      { destruct O as [-> | [l C]]; [eauto|]. cbn [click_convert] in C.
        destruct (float_of_string l); [|discriminate].
        injection C as <-. eauto. }
      destruct A as [x' ->]. exact I.
Qed.

Lemma store_value_length (i : nat) (v : pyval) (ps : list Param) :
  length (store_value i v ps) = length ps.
Proof.
  revert i. induction ps as [|q ps IH]; intros [|i]; cbn [store_value length];
    try reflexivity.
  now rewrite IH.
Qed.

Lemma store_value_castable (i : nat) (v : pyval) (ps : list Param) :
  Forall CastableDefault ps -> Forall CastableDefault (store_value i v ps).
Proof.
  intros F. revert i. induction F as [|q ps Q F IH]; intros [|i];
    cbn [store_value]; constructor; auto.
Qed.

Lemma prompt_value_safe (env : Env) (n fuel i : nat) (first : bool)
    (L : Launch) (w : World) :
  Forall CastableDefault (parameters L) -> length (parameters L) = n ->
  i < n -> length (stdin w) < fuel ->
  match prompt_value env fuel i first L w with
  | (Ok L', _) =>
      Forall CastableDefault (parameters L') /\ length (parameters L') = n
  | (Raise e, _) => e = Abort
  end.
Proof.
  revert first L w. induction fuel as [|fuel IH]; intros first L w F Hn Hi Hf;
    [lia|]. cbn [prompt_value]. unfold bind at 1, lift at 1.
  destruct (nth_error (parameters L) i) as [p|] eqn:D.
  2:{ apply nth_error_None in D. lia. }
  cbn [of_option]. unfold bind at 1.
  assert (Cp : CastableDefault p).
  { apply nth_error_In in D. revert D. now apply Forall_forall. }
  pose proof (ask_value_safe p first w Cp) as S.
  destruct (ask_value p first w) as [[v|e] w1] eqn:A; [|exact S].
  apply ask_value_consumes in A. destruct A as [A _].
  specialize (A v eq_refl).
  destruct (validate env (set_value v p)) as [msg|].
  - rewrite !bind_echo. apply IH.
    + cbn [parameters set_parameters]. now apply store_value_castable.
    + cbn [parameters set_parameters]. now rewrite store_value_length.
    + exact Hi.
    + cbn [stdin show]. lia.
  - unfold ret. cbn [parameters set_parameters]. split.
    + now apply store_value_castable.
    + now rewrite store_value_length.
Qed.

Lemma prompt_group_safe (env : Env) (n : nat) (L : Launch)
    (item : string * list nat) (w : World) :
  Forall CastableDefault (parameters L) /\ length (parameters L) = n ->
  Forall (fun i => i < n) (snd item) ->
  match prompt_group env L item w with
  | (Ok L', _) =>
      Forall CastableDefault (parameters L') /\ length (parameters L') = n
  | (Raise e, _) => e = Abort
  end.
Proof.
  intros Inv R. destruct item as [g refs]. cbn [snd] in R.
  unfold prompt_group. rewrite bind_echo. unfold bind.
  pose proof (confirm_loop_outcome
                ("Do you want to change the group's defaults? [y/N]" +++ ": ")
                (VBool false)
                (stdin (show (Text.newline +++ Text.newline
                              +++ "Parameter group: " +++ g) w))
                (show (Text.newline +++ Text.newline
                       +++ "Parameter group: " +++ g) w)) as O.
  unfold click_confirm.
  destruct (confirm_loop _ _ _ _) as [[a|e] w1]; [|exact O].
  destruct (negb (py_truthy a)); [exact Inv|].
  apply (foldM_safe
           (fun L1 : Launch =>
              Forall CastableDefault (parameters L1)
              /\ length (parameters L1) = n)
           (fun e => e = Abort)); [|exact Inv].
  intros L1 i w2 Ii [F Hn]. unfold prompt_parameter.
  apply prompt_value_safe; try assumption.
  - exact (proj1 (Forall_forall _ _) R i Ii).
  - lia.
Qed.

Lemma dict_get_In {V} (k : string) (v : V) (d : dict V) :
  NoDup (dict_keys d) -> In (k, v) d -> dict_get k d = Some v.
Proof.
  unfold dict_keys. induction d as [|[x y] d IH]; [intros _ []|].
  cbn [map fst dict_get]. intros ND I. inversion ND as [|? ? Nx Nd]; subst.
  destruct I as [Q|I].
  - injection Q as -> ->. now rewrite String.eqb_refl.
  - destruct (String.eqb_spec k x) as [->|_]; [|now apply IH].
    exfalso. apply Nx. exact (in_map fst _ _ I).
Qed.

Lemma group_parameters_refs (L : Launch) :
  grouped_parameters L = [] ->
  Forall (fun item => Forall (fun i => i < length (parameters L)) (snd item))
    (grouped_parameters (group_parameters L)).
Proof.
  intros E. destruct (grouped_from_empty L E) as [K M].
  apply Forall_forall. intros [g l] I. cbn [snd].
  apply dict_get_In in I; [|rewrite K; apply first_seen_NoDup].
  rewrite M in I.
  assert (Q : l = members g (parameters L)).
  { destruct (members g (parameters L)); [discriminate | now injection I]. }
  subst l. apply Forall_forall. intros i Ii. unfold members in Ii.
  apply members_from_In in Ii. destruct Ii as (p & _ & Nth & _).
  rewrite Nat.sub_0_r in Nth. apply nth_error_Some. congruence.
Qed.

(** X9. On a catalog grouped by [group_parameters], in which every
    integer parameter has an integer default and every decimal
    parameter a float default, the parameter session can only end in
    two ways: it completes, or the input ends at a prompt and click
    aborts.  No answer of the operator and no verdict of [validate]
    makes it raise anything else. *)
Theorem session_completes_or_aborts (env : Env) (L : Launch) (w w' : World)
    (e : exn) :
  grouped_parameters L = [] ->
  Forall CastableDefault (parameters L) ->
  prompt_param_flags env (group_parameters L) w = (Raise e, w') ->
  e = Abort.
Proof.
  intros E F R.
  pose proof (foldM_safe
                (fun L1 : Launch =>
                   Forall CastableDefault (parameters L1)
                   /\ length (parameters L1) = length (parameters L))
                (fun e => e = Abort)
                (prompt_group env)
                (grouped_parameters (group_parameters L))) as S.
  unfold prompt_param_flags in R.
  specialize (S (fun L1 item w1 I Inv =>
                   prompt_group_safe env _ L1 item w1 Inv
                     (proj1 (Forall_forall _ _) (group_parameters_refs L E)
                        item I))
                (group_parameters L) w (conj F eq_refl)).
  rewrite R in S. exact S.
Qed.



(** ** The two record files *)

Lemma record_names_differ (a b : string) :
  a +++ "nfx-params.json" <> b +++ "full-params.json".
Proof.
  intros E. apply (f_equal Text.chars) in E.
  rewrite !chars_append in E. apply (f_equal (@rev ascii)) in E.
  rewrite !rev_app_distr in E. cbn in E. discriminate E.
Qed.

Lemma path_join_suffix (dir name : string) :
  exists pre, Text.path_join dir name = pre +++ name.
Proof.
  unfold Text.path_join. destruct (Text.last_char dir) as [c|].
  - destruct (Ascii.eqb c "/").
    + now exists dir.
    + exists (dir +++ "/"). now rewrite append_assoc.
  - now exists "".
Qed.

Lemma record_files_differ (env : Env) : params_file env <> audit_file env.
Proof.
  unfold params_file, audit_file.
  destruct (path_join_suffix (getcwd env) "nfx-params.json") as [a ->].
  destruct (path_join_suffix (getcwd_at_import env) "full-params.json")
    as [b ->].
  apply record_names_differ.
Qed.

(** X10. In file mode, with booleans and text in the flag Override Set,
    [build_command] succeeds and afterwards both record files are
    there, whatever the two directories are: the params file holds the
    serialized catalog values, the audit file the full record, and no
    other file has changed.  The terminal and the list of commands run
    are untouched. *)
Theorem file_mode_leaves_both_files (env : Env) (L : Launch) (w : World) :
  use_params_file L = true ->
  Forall (fun item => BoolOrText (snd item)) (nxf_flags L) ->
  exists L' w',
    build_command env L w = (Ok L', w')
    /\ dict_get (params_file env) (files w')
       = Some (in_nextflow_json (parameters L))
    /\ dict_get (audit_file env) (files w')
       = Some (in_full_json (parameters L))
    /\ (forall path, path <> params_file env -> path <> audit_file env ->
          dict_get path (files w') = dict_get path (files w))
    /\ stdin w' = stdin w /\ console w' = console w /\ calls w' = calls w.
Proof.
  intros U F. unfold build_command, bind, add_flag.
  rewrite (add_tokens_run _ _ _ _ _ _ F), U.
  unfold create_nfx_params_file, write_params_as_full_json, bind,
    write_file, ret.
  eexists. eexists. split; [reflexivity|].
  cbn [stdin console logs files calls add_logs].
  fold (params_file env). fold (audit_file env).
  repeat split.
  - rewrite !dict_get_set, String.eqb_refl.
    destruct (String.eqb_spec (params_file env) (audit_file env)) as [Q|_];
      [|reflexivity].
    now apply record_files_differ in Q.
  - now rewrite dict_get_set, String.eqb_refl.
  - intros path N1 N2. rewrite !dict_get_set.
    destruct (String.eqb_spec path (audit_file env)); [contradiction|].
    destruct (String.eqb_spec path (params_file env)); [contradiction|].
    reflexivity.
Qed.

(** ** A refused line is asked again *)

Lemma foldM_app {W A B} (f : B -> A -> M W B) (l1 l2 : list A) (b : B)
    (w : W) :
  foldM f (l1 ++ l2) b w = bind (foldM f l1 b) (fun b' => foldM f l2 b') w.
Proof.
  revert b w. induction l1 as [|a l1 IH]; intros b w; cbn [app foldM].
  - reflexivity.
  - unfold bind. destruct (f b a w) as [[b1|e] w1]; [|reflexivity].
    rewrite IH. reflexivity.
Qed.

Lemma prompt_loop_refused (prompt : string) (d z : Z) (bad : list string)
    (good : string) (rest : list string) (w : World) :
  Forall (fun l => l <> "" /\ int_of_str l = None) bad ->
  good <> "" -> int_of_str good = Some z ->
  prompt_loop prompt (VInt d) (bad ++ good :: rest) w
  = (Ok (VInt z),
     mkWorld rest (console w ++ refusals prompt bad ++ [prompt])
       (logs w) (files w) (calls w)).
Proof.
  intros F G Z. revert w. induction F as [|l bad [N I] F IH]; intros w.
  - cbn [app prompt_loop convert_type click_convert refusals flat_map].
    now rewrite (eqb_empty_false good G), Z.
  - cbn [app prompt_loop convert_type click_convert].
    rewrite (eqb_empty_false l N), I, IH.
    unfold refusals. cbn [flat_map show with_stdin stdin console logs files
                          calls app].
    now rewrite <- !app_assoc.
Qed.

Lemma prompt_loop_exhausted (prompt : string) (d : Z) (bad : list string)
    (w : World) :
  Forall (fun l => l <> "" /\ int_of_str l = None) bad ->
  prompt_loop prompt (VInt d) bad w
  = (Raise Abort,
     mkWorld [] (console w ++ refusals prompt bad ++ [prompt])
       (logs w) (files w) (calls w)).
Proof.
  intros F. revert w. induction F as [|l bad [N I] F IH]; intros w.
  - reflexivity.
  - cbn [prompt_loop convert_type click_convert].
    rewrite (eqb_empty_false l N), I, IH.
    unfold refusals. cbn [flat_map show with_stdin stdin console logs files
                          calls app].
    now rewrite <- !app_assoc.
Qed.

Lemma integer_is_no_boolean (p : Param) :
  param_type p = "integer" -> String.eqb (param_type p) "boolean" = false.
Proof. now intros ->. Qed.

Lemma ask_integer (p : Param) (d z : Z) (bad : list string) (good : string)
    (rest : list string) (w : World) :
  param_type p = "integer" -> default_value p = VInt d ->
  stdin w = bad ++ good :: rest ->
  Forall (fun l => l <> "" /\ int_of_str l = None) bad ->
  good <> "" -> int_of_str good = Some z ->
  ask_value p true w
  = (Ok (VInt z),
     mkWorld rest
       (console w ++ refusals (first_prompt p) bad ++ [first_prompt p])
       (logs w) (files w) (calls w)).
Proof.
  intros Ht Hd Hs F G Z. unfold ask_value.
  rewrite (integer_is_no_boolean p Ht), Hd. unfold bind, click_prompt.
  rewrite Hs, first_prompt_lines, (prompt_loop_refused _ d z bad good rest w F G Z).
  rewrite Ht. reflexivity.
Qed.

Lemma ask_integer_exhausted (p : Param) (d : Z) (bad : list string)
    (w : World) :
  param_type p = "integer" -> default_value p = VInt d ->
  stdin w = bad ->
  Forall (fun l => l <> "" /\ int_of_str l = None) bad ->
  ask_value p true w
  = (Raise Abort,
     mkWorld []
       (console w ++ refusals (first_prompt p) bad ++ [first_prompt p])
       (logs w) (files w) (calls w)).
Proof.
  intros Ht Hd Hs F. unfold ask_value.
  rewrite (integer_is_no_boolean p Ht), Hd. unfold bind, click_prompt.
  now rewrite Hs, first_prompt_lines, (prompt_loop_exhausted _ d bad w F).
Qed.

Lemma accept_group (env : Env) (L : Launch) (g : string) (refs : list nat)
    (w : World) (rest : list string) :
  stdin w = "y" :: rest ->
  prompt_group env L (g, refs) w
  = foldM (prompt_parameter env) refs L
      (mkWorld rest (console w ++ [group_header g; group_question])
         (logs w) (files w) (calls w)).
Proof.
  intros Hs. unfold prompt_group. rewrite bind_echo.
  erewrite bind_run;
    [|eapply confirm_yes; [cbn [stdin show]; exact Hs | left; reflexivity]].
  cbn [py_truthy negb]. unfold with_stdin, show.
  cbn [stdin console logs files calls]. now rewrite <- app_assoc.
Qed.

Lemma ask_integer_value (p : Param) (first : bool) (w w' : World)
    (v : pyval) :
  param_type p = "integer" ->
  ask_value p first w = (Ok v, w') -> exists z, v = VInt z.
Proof.
  intros Ht. unfold ask_value, bind, lift. rewrite Ht.
  cbn [String.eqb Ascii.eqb Bool.eqb].
  destruct (click_prompt _ _ w) as [[a|e] w1]; [|discriminate].
  unfold coerce. cbn [String.eqb Ascii.eqb Bool.eqb].
  destruct (py_int a) as [z|e]; [|discriminate].
  intros E. injection E as <- _. now exists z.
Qed.

Lemma prompt_value_accepts (env : Env) (fuel i : nat) (first : bool)
    (L L' : Launch) (w w' : World) (p : Param) :
  nth_error (parameters L) i = Some p -> param_type p = "integer" ->
  prompt_value env fuel i first L w = (Ok L', w') ->
  exists z,
    nth_error (parameters L') i = Some (set_value (VInt z) p)
    /\ validate env (set_value (VInt z) p) = None.
Proof.
  revert first L w p. induction fuel as [|fuel IH]; intros first L w p Hi Ht;
    cbn [prompt_value]; [discriminate|].
  rewrite Hi. cbn [of_option]. rewrite bind_lift. unfold bind at 1.
  destruct (ask_value p first w) as [[v|e] w1] eqn:A; [|discriminate].
  destruct (ask_integer_value p first w w1 v Ht A) as [z ->].
  destruct (validate env (set_value (VInt z) p)) as [msg|] eqn:V.
  - rewrite !bind_echo. intros E.
    apply (IH _ _ _ (set_value (VInt z) p)) in E.
    + exact E.
    + exact (store_value_same i (VInt z) _ p Hi).
    + exact Ht.
  - unfold ret. intros E. injection E as <- _. exists z.
    split; [exact (store_value_same i (VInt z) _ p Hi) | exact V].
Qed.

Lemma file_mode_params_file (env : Env) (L : Launch) (w : World) :
  use_params_file L = true ->
  Forall (fun item => BoolOrText (snd item)) (nxf_flags L) ->
  exists L' w',
    build_command env L w = (Ok L', w')
    /\ dict_get (params_file env) (files w')
       = Some (in_nextflow_json (parameters L)).
Proof.
  intros U F. unfold build_command, bind, add_flag.
  rewrite (add_tokens_run _ _ _ _ _ _ F), U.
  unfold create_nfx_params_file, write_params_as_full_json, bind,
    write_file, ret.
  eexists. eexists. split; [reflexivity|].
  cbn [stdin console logs files calls add_logs].
  fold (params_file env). fold (audit_file env).
  rewrite !dict_get_set, String.eqb_refl.
  destruct (String.eqb_spec (params_file env) (audit_file env)) as [Q|_];
    [|reflexivity].
  now apply record_files_differ in Q.
Qed.

(** C1 (amended). Scenario A, for any lines in place of abc and 4: the
    catalog holds an integer parameter reads with an integer default,
    alone in the first group; the operator answers yes for the group,
    types any number of lines that are no integers, then a line that
    is one, and answers no for the other groups; the validator accepts
    the integer.  The session shows the prompt and the error for each
    refused line, the same prompt every time, and ends with the integer
    as the current value of reads.  There is no way past the prompt:
    when the input ends after refused lines the session is aborted,
    and whatever is typed, the prompt for reads is only ever left, the
    session going on, with an integer that the validator accepts.
    Every other parameter object is as before, and so are both Override
    Sets: the value lives in the parameter object, from which
    [build_command] in file mode writes it under the name reads to the
    params file. *)
Theorem scenario_reads_retry (env : Env) (L : Launch) (i : nat) (p : Param)
    (d z : Z) (others : dict (list nat)) (w : World)
    (bad : list string) (good : string) (noes rest : list string) :
  nth_error (parameters L) i = Some p ->
  name p = "reads" -> param_type p = "integer" -> default_value p = VInt d ->
  grouped_parameters L = (group p, [i]) :: others ->
  Forall (fun l => l <> "" /\ int_of_str l = None) bad ->
  good <> "" -> int_of_str good = Some z ->
  validate env (set_value (VInt z) p) = None ->
  length noes = length others -> Forall SaysNo noes ->
  stdin w = "y" :: bad ++ good :: noes ++ rest ->
  let L' := set_parameters (store_value i (VInt z) (parameters L)) L in
  let asked := [group_header (group p); group_question]
               ++ refusals (first_prompt p) bad ++ [first_prompt p] in
  prompt_param_flags env L w
  = (Ok L',
     mkWorld rest
       (console w ++ asked
        ++ flat_map (fun item => [group_header (fst item); group_question])
             others)
       (logs w) (files w) (calls w))
  /\ (forall w0, stdin w0 = "y" :: bad ->
        prompt_param_flags env L w0
        = (Raise Abort,
           mkWorld [] (console w0 ++ asked) (logs w0) (files w0) (calls w0)))
  /\ (forall w0 L2 w2,
        prompt_parameter env L i w0 = (Ok L2, w2) ->
        exists z',
          nth_error (parameters L2) i = Some (set_value (VInt z') p)
          /\ validate env (set_value (VInt z') p) = None)
  /\ nth_error (parameters L') i = Some (set_value (VInt z) p)
  /\ (forall j, j <> i ->
        nth_error (parameters L') j = nth_error (parameters L) j)
  /\ params_user L' = params_user L /\ nxf_flags L' = nxf_flags L
  /\ (forall w1,
        Forall (fun item => BoolOrText (snd item)) (nxf_flags L) ->
        use_params_file L = true ->
        exists L2 w2 fields,
          build_command env L' w1 = (Ok L2, w2)
          /\ dict_get (params_file env) (files w2) = Some (JObj fields)
          /\ nth_error fields i = Some ("reads", JInt z)).
Proof.
  intros Hi Hn Ht Hd Hg Hb Hgood Hz Hv Hl Hno Hs L' asked.
  split; [|split; [|split; [|split; [|split; [|split; [|split]]]]]].
  - unfold prompt_param_flags. rewrite Hg. cbn [foldM].
    rewrite bind_run with (a := L')
      (w' := mkWorld (noes ++ rest) (console w ++ asked)
               (logs w) (files w) (calls w)).
    + rewrite (decline_groups env L' others noes rest
                 (mkWorld (noes ++ rest) (console w ++ asked)
                    (logs w) (files w) (calls w)) Hl Hno eq_refl).
      cbn [console logs files calls]. now rewrite <- app_assoc.
    + rewrite (accept_group env L (group p) [i] w _ Hs). cbn [foldM].
      erewrite bind_run; [reflexivity|].
      unfold prompt_parameter. cbn [stdin length prompt_value].
      rewrite Hi. cbn [of_option]. rewrite bind_lift.
      erewrite bind_run;
        [|apply (ask_integer p d z bad good (noes ++ rest));
          [exact Ht | exact Hd | reflexivity | exact Hb | exact Hgood
          | exact Hz]].
      rewrite Hv. unfold ret, asked. cbn [console logs files calls].
      now rewrite <- !app_assoc.
  - intros w0 Hs0. unfold prompt_param_flags. rewrite Hg. cbn [foldM].
    unfold bind at 1.
    rewrite (accept_group env L (group p) [i] w0 _ Hs0). cbn [foldM].
    unfold bind at 1, prompt_parameter. cbn [stdin length prompt_value].
    rewrite Hi. cbn [of_option]. rewrite bind_lift. unfold bind at 1.
    erewrite (ask_integer_exhausted p d bad);
      [|exact Ht | exact Hd | reflexivity | exact Hb].
    unfold asked. cbn [console logs files calls].
    now rewrite <- !app_assoc.
  - intros w0 L2 w2. unfold prompt_parameter.
    now apply prompt_value_accepts.
  - exact (store_value_same i (VInt z) _ p Hi).
  - intros j N. now apply store_value_other.
  - reflexivity.
  - reflexivity.
  - intros w1 Hf Hu.
    destruct (file_mode_params_file env L' w1 Hu Hf) as (L2 & w2 & E & G).
    exists L2, w2,
      (map (fun q => (name q, json_of_pyval (value q))) (parameters L')).
    split; [exact E|]. split; [exact G|].
    rewrite nth_error_map. cbn [parameters set_parameters L'].
    rewrite (store_value_same i (VInt z) _ p Hi). cbn [option_map].
    change (name (set_value (VInt z) p)) with (name p). now rewrite Hn.
Qed.

(** ** A pull that fails *)

Lemma init_run (env : Env) (wf : string) (w : World) :
  init env wf w
  = (Ok (new_launcher env (final_name env wf)),
     add_logs
       ((if prepends env wf
         then [("debug", "Prepending nf-core/ to workflow")] else [])
        ++ [("info", "Launching " +++ final_name env wf)]) w).
Proof.
  unfold init, final_name, bind, logging, ret, add_logs.
  destruct (prepends env wf); cbn [stdin console logs files calls app];
    [now rewrite <- app_assoc | reflexivity].
Qed.

(** X11. When the workflow has no cached copy and the pull fails, the
    launch ends before anything is asked: with [AssertionError] when
    the program is missing or exits with an error status; and when the
    pull fails with another [OSError], which [get_local_wf] drops, with
    the [AttributeError] of [parse_parameter_settings] looking for the
    path of a local copy that is not there, unless the caller named a
    settings file.  No line of input is read, nothing is shown, no file
    is written, and the pull is the only command the module has
    handed to [subprocess]. *)
Theorem failed_pull_stops_the_launch (env : Env) (wf : string)
    (params_local_uri : option string) (direct : bool) (w : World) :
  find_local_wf (final_name env wf) (local_workflows env) = None ->
  nextflow_pull env (final_name env wf) = None ->
  pull_error env (final_name env wf) <> OtherOSError
  \/ given params_local_uri = false ->
  exists w',
    launch_pipeline env wf params_local_uri direct w
    = (Raise match pull_error env (final_name env wf) with
             | OtherOSError => AttributeError
             | _ => AssertionError
             end, w')
    /\ stdin w' = stdin w /\ console w' = console w
    /\ files w' = files w
    /\ calls w' = calls w ++ ["nextflow pull " +++ final_name env wf].
Proof.
  intros Hl Hp Hk. unfold launch_pipeline.
  erewrite bind_run; [|apply init_run].
  unfold bind at 1, get_local_wf.
  cbn [local_wf workflow new_launcher]. rewrite Hl.
  unfold bind at 1 2, logging, subprocess_check_output, raise. rewrite Hp.
  destruct (pull_error env (final_name env wf)).
  - eexists. split; [reflexivity|]. repeat split.
  - destruct Hk as [Hk|Hk]; [now elim Hk|].
    unfold ret at 1, bind at 1, parse_parameter_settings, bind at 1.
    rewrite Hk. cbn [local_wf new_launcher]. rewrite Hl. unfold raise.
    eexists. split; [reflexivity|]. repeat split.
  - eexists. split; [reflexivity|]. repeat split.
Qed.


(** ** What the phases of a launch leave alone *)

Lemma untouched_refl (w : World) : Untouched w w.
Proof. split; reflexivity. Qed.

Lemma untouched_trans (w1 w2 w3 : World) :
  Untouched w1 w2 -> Untouched w2 w3 -> Untouched w1 w3.
Proof. intros [A B] [C D]. split; congruence. Qed.

Lemma foldM_frame {A B} (P : World -> World -> Prop)
    (f : B -> A -> IO B) (l : list A) :
  (forall w, P w w) ->
  (forall w1 w2 w3, P w1 w2 -> P w2 w3 -> P w1 w3) ->
  (forall b a w r w', f b a w = (r, w') -> P w w') ->
  forall b w r w', foldM f l b w = (r, w') -> P w w'.
Proof.
  intros Pr Pt Pf. induction l as [|a l IH]; intros b w r w'; cbn [foldM].
  - unfold ret. intros E. injection E as _ <-. apply Pr.
  - unfold bind. destruct (f b a w) as [[b1|e] w1] eqn:F.
    + intros E. eapply Pt; [eapply Pf; exact F | eapply IH; exact E].
    + intros E. injection E as _ <-. eapply Pf; exact F.
Qed.

Lemma prompt_loop_untouched (prompt : string) (d : pyval)
    (lines : list string) (w w' : World) (r : res pyval) :
  prompt_loop prompt d lines w = (r, w') -> Untouched w w'.
Proof.
  revert w. induction lines as [|l rest IH]; intros w; cbn [prompt_loop].
  - intros E. injection E as _ <-. split; reflexivity.
  - destruct (String.eqb l "").
    + destruct d; try (intros E; injection E as _ <-; split; reflexivity).
      intros E. apply IH in E. exact E.
    + destruct (click_convert (convert_type d) l).
      * intros E. injection E as _ <-. split; reflexivity.
      * intros E. apply IH in E. exact E.
Qed.

Lemma confirm_loop_untouched (prompt : string) (d : pyval)
    (lines : list string) (w w' : World) (r : res pyval) :
  confirm_loop prompt d lines w = (r, w') -> Untouched w w'.
Proof.
  intros E. apply confirm_loop_frame in E.
  destruct E as (_ & F & C & _). split; assumption.
Qed.

Lemma prompt_flag_untouched (L : Launch) (item : string * pyval)
    (w w' : World) (r : res Launch) :
  prompt_flag L item w = (r, w') -> Untouched w w'.
Proof.
  destruct item as [flag f0]. unfold prompt_flag, bind at 1, lift.
  destruct (of_option KeyError (dict_get flag (nxf_flag_help L))) as [help|e].
  - unfold bind. destruct (click_prompt _ _ w) as [[u|e] w1] eqn:C;
      unfold click_prompt in C; apply prompt_loop_untouched in C.
    + destruct (negb _); unfold ret; intros E; injection E as _ <-; exact C.
    + intros E. injection E as _ <-. exact C.
  - intros E. injection E as _ <-. apply untouched_refl.
Qed.

Lemma flags_untouched (L : Launch) (w w' : World) (r : res Launch) :
  prompt_core_nxf_flags L w = (r, w') -> Untouched w w'.
Proof.
  unfold prompt_core_nxf_flags. rewrite bind_echo. intros E.
  apply (foldM_frame Untouched) in E;
    [exact E | apply untouched_refl | apply untouched_trans |].
  intros b a w0 r0 w0'. apply prompt_flag_untouched.
Qed.

Lemma ask_value_untouched (p : Param) (first : bool) (w w' : World)
    (r : res pyval) :
  ask_value p first w = (r, w') -> Untouched w w'.
Proof.
  unfold ask_value, bind, lift.
  destruct (String.eqb (param_type p) "boolean").
  - destruct (click_confirm _ _ w) as [[a|e] w1] eqn:C;
      unfold click_confirm in C; apply confirm_loop_untouched in C;
      intros E; injection E as _ <-; exact C.
  - destruct (click_prompt _ _ w) as [[a|e] w1] eqn:C;
      unfold click_prompt in C; apply prompt_loop_untouched in C;
      intros E; injection E as _ <-; exact C.
Qed.

Lemma prompt_value_untouched (env : Env) (fuel i : nat) (first : bool)
    (L : Launch) (w w' : World) (r : res Launch) :
  prompt_value env fuel i first L w = (r, w') -> Untouched w w'.
Proof.
  revert first L w. induction fuel as [|fuel IH]; intros first L w;
    cbn [prompt_value].
  - intros E. injection E as _ <-. apply untouched_refl.
  - unfold bind at 1, lift at 1.
    destruct (of_option IndexError (nth_error (parameters L) i)) as [p|e].
    2:{ intros E. injection E as _ <-. apply untouched_refl. }
    unfold bind at 1.
    destruct (ask_value p first w) as [[v|e] w1] eqn:A;
      apply ask_value_untouched in A.
    2:{ intros E. injection E as _ <-. exact A. }
    destruct (validate env (set_value v p)) as [msg|].
    + rewrite !bind_echo. intros E. apply IH in E.
      eapply untouched_trans; [exact A|]. exact E.
    + unfold ret. intros E. injection E as _ <-. exact A.
Qed.

Lemma session_untouched (env : Env) (L : Launch) (w w' : World)
    (r : res Launch) :
  prompt_param_flags env L w = (r, w') -> Untouched w w'.
Proof.
  unfold prompt_param_flags. apply (foldM_frame Untouched);
    [apply untouched_refl | apply untouched_trans |].
  intros b [g refs] w0 r0 w0'. unfold prompt_group. rewrite bind_echo.
  unfold bind.
  destruct (click_confirm _ _ _) as [[a|e] w1] eqn:C;
    unfold click_confirm in C; apply confirm_loop_untouched in C.
  2:{ intros E. injection E as _ <-. exact C. }
  destruct (negb (py_truthy a)).
  - unfold ret. intros E. injection E as _ <-. exact C.
  - intros E. eapply untouched_trans; [exact C|].
    revert E. apply (foldM_frame Untouched);
      [apply untouched_refl | apply untouched_trans |].
    intros b0 i w2 r2 w2'. unfold prompt_parameter.
    apply prompt_value_untouched.
Qed.

Lemma prompt_flag_same (L L' : Launch) (item : string * pyval)
    (w w' : World) :
  prompt_flag L item w = (Ok L', w') -> SameButFlags L L'.
Proof.
  destruct item as [flag f0]. unfold prompt_flag, bind at 1, lift.
  destruct (of_option KeyError (dict_get flag (nxf_flag_help L))) as [help|e];
    [|discriminate].
  unfold bind. destruct (click_prompt _ _ w) as [[u|e] w1]; [|discriminate].
  destruct (negb _); unfold ret; intros E; injection E as <- _.
  - reflexivity.
  - destruct L. reflexivity.
Qed.

Lemma flags_same (L L' : Launch) (w w' : World) :
  prompt_core_nxf_flags L w = (Ok L', w') -> SameButFlags L L'.
Proof.
  unfold prompt_core_nxf_flags. rewrite bind_echo.
  generalize (nxf_flag_defaults L). intros items.
  apply (foldM_invariant SameButFlags).
  - intros b. destruct b. reflexivity.
  - unfold SameButFlags. intros b1 b2 b3 E1 E2. rewrite E2 at 1. rewrite E1.
    reflexivity.
  - intros b a w0 b' w0' _. apply prompt_flag_same.
Qed.

Lemma flag_prompts_bool_or_text (L L' : Launch) (w w' : World) :
  Forall (fun item => BoolOrText (prompt_default (snd item)))
    (nxf_flag_defaults L) ->
  Forall (fun item => BoolOrText (snd item)) (nxf_flags L) ->
  prompt_core_nxf_flags L w = (Ok L', w') ->
  Forall (fun item => BoolOrText (snd item)) (nxf_flags L').
Proof.
  intros D F. unfold prompt_core_nxf_flags. rewrite bind_echo. intros E.
  revert F.
  apply (foldM_invariant
           (fun L1 L2 : Launch =>
              Forall (fun item => BoolOrText (snd item)) (nxf_flags L1) ->
              Forall (fun item => BoolOrText (snd item)) (nxf_flags L2))
           prompt_flag (nxf_flag_defaults L)) with (4 := E).
  - intros L1 P. exact P.
  - intros L1 L2 L3 P Q F. apply Q, P, F.
  - intros L1 [flag f0] w1 L2 w2 I P.
    apply (prompt_flag_bool_or_text L1 L2 flag f0 w1 w2); [|exact P].
    exact (proj1 (Forall_forall _ _) D (flag, f0) I).
Qed.


(** ** The launch as a whole *)

Lemma get_local_wf_outcome (env : Env) (L : Launch) (w w' : World)
    (r : res Launch) :
  get_local_wf env L w = (r, w') ->
  files w' = files w
  /\ calls w' = calls w ++ match local_wf L with
                          | Some _ => []
                          | None => ["nextflow pull " +++ workflow L]
                          end
  /\ forall L', r = Ok L' -> exists copy, L' = set_local_wf copy L.
Proof.
  unfold get_local_wf. destruct (local_wf L) as [c|] eqn:C.
  - unfold ret. intros E. injection E as <- <-. split; [reflexivity|].
    split; [now rewrite app_nil_r|].
    intros L' Q. injection Q as <-. exists (Some c). rewrite <- C.
    destruct L. reflexivity.
  - unfold bind, logging, subprocess_check_output, raise, ret.
    destruct (nextflow_pull env (workflow L)) as [c|].
    + intros E. injection E as <- <-. split; [reflexivity|].
      split; [reflexivity|]. intros L' Q. injection Q as <-. eauto.
    + destruct (pull_error env (workflow L)); intros E; injection E as <- <-;
        (split; [reflexivity|]); (split; [reflexivity|]);
        intros L' Q; try discriminate Q.
      injection Q as <-. exists None. rewrite <- C. destruct L. reflexivity.
Qed.

Lemma load_catalog_outcome {B} (env : Env) (name : string)
    (params_local_uri : option string) (copy : option LocalWorkflow)
    (k : Launch -> IO B) (w w' : World) (r : res B) :
  bind (parse_parameter_settings env params_local_uri
          (set_local_wf copy (new_launcher env name)))
    (fun l =>
       bind (if (length (parameters l) =? 0)%nat
             then collect_pipeline_param_defaults env l
             else ret l) k) w
  = (r, w') ->
  ((exists e, r = Raise e) /\ Untouched w w')
  \/ (exists w1,
        Untouched w w1
        /\ k (set_parameters (loaded_catalog env name)
                (set_local_wf copy (new_launcher env name))) w1
           = (r, w')).
Proof.
  set (L0 := set_local_wf copy (new_launcher env name)).
  assert (Collect : forall (L1 : Launch) (w0 : World),
            Untouched w w0 ->
            parameters L1 = [] -> workflow L1 = name ->
            (forall ps, set_parameters ps L1 = set_parameters ps L0) ->
            match parameter_settings env with
            | Some (_ :: _) => False
            | _ => True
            end ->
            bind (collect_pipeline_param_defaults env L1) k w0 = (r, w') ->
            ((exists e, r = Raise e) /\ Untouched w w')
            \/ (exists w1,
                  Untouched w w1
                  /\ k (set_parameters (loaded_catalog env name) L0) w1
                     = (r, w'))).
  { intros L1 w0 U P N S E. unfold bind. rewrite collect_run, P, N.
    unfold loaded_catalog.
    assert (Q : match parameter_settings env with
                | Some ps => ps
                | None => []
                end = []).
    { destruct (parameter_settings env) as [[|q ps]|];
        [reflexivity | contradiction | reflexivity]. }
    rewrite Q. cbn [length Nat.eqb].
    destruct (collect_items (fetch_wf_config env name) []) as [ps|e].
    - intros K. right. eexists. split; [|rewrite <- S; exact K].
      destruct U as [Uf Uc]. split; [exact Uf | exact Uc].
    - intros K. injection K as <- <-. left. split; [eauto|].
      destruct U as [Uf Uc]. split; [exact Uf | exact Uc]. }
  unfold parse_parameter_settings. unfold bind at 1 2.
  assert (Guard : forall w0 : World,
            (if given params_local_uri then ret tt
             else match local_wf L0 with
                  | Some _ => ret tt
                  | None => raise AttributeError
                  end) w0
            = (Ok tt, w0)
            \/ (if given params_local_uri then ret tt
                else match local_wf L0 with
                     | Some _ => ret tt
                     | None => raise AttributeError
                     end) w0
               = (Raise AttributeError, w0)).
  { intros w0. destruct (given params_local_uri); [now left|].
    destruct (local_wf L0); [now left | now right]. }
  destruct (Guard w) as [G|G]; rewrite G; clear G Guard.
  2:{ intros E. injection E as <- <-. left. split; [eauto|].
      apply untouched_refl. }
  destruct (parameter_settings env) as [[|q ps]|] eqn:P.
  - unfold ret at 1. cbn [parameters set_parameters length Nat.eqb].
    apply Collect; [apply untouched_refl|reflexivity|reflexivity| |exact I].
    intros ps. reflexivity.
  - unfold ret at 1. cbn [parameters set_parameters length Nat.eqb].
    unfold bind, ret. intros E. right. exists w.
    split; [apply untouched_refl|]. unfold loaded_catalog. rewrite P.
    cbn [length Nat.eqb]. exact E.
  - rewrite bind_echo. unfold ret at 1.
    change (length (parameters L0) =? 0)%nat with true. cbv iota.
    apply Collect; [split; reflexivity|reflexivity|reflexivity| |exact I].
    intros ps. reflexivity.
Qed.

Lemma confirm_loop_console (prompt : string) (d : pyval)
    (lines : list string) (w w' : World) (r : res pyval) :
  confirm_loop prompt d lines w = (r, w') ->
  exists more, console w' = console w ++ prompt :: more.
Proof.
  revert w. induction lines as [|l rest IH]; intros w; cbn [confirm_loop].
  - intros E. injection E as _ <-. now exists [].
  - destruct (_ || _).
    { intros E. injection E as _ <-. now exists []. }
    destruct (_ || _).
    { intros E. injection E as _ <-. now exists []. }
    destruct (String.eqb _ _).
    { intros E. injection E as _ <-. now exists []. }
    intros E. apply IH in E. destruct E as [more E]. rewrite E.
    cbn [console show with_stdin]. rewrite <- !app_assoc. cbn [app]. eauto.
Qed.

Lemma launch_workflow_outcome (L : Launch) (w w' : World) (r : res unit) :
  launch_workflow L w = (r, w') ->
  files w' = files w
  /\ (exists more,
        console w' = console w ++ command_display L ++ run_question :: more)
  /\ (calls w' = calls w
      \/ (r = Ok tt /\ calls w' = calls w ++ [nextflow_cmd L])).
Proof.
  unfold launch_workflow. rewrite !bind_echo. unfold bind.
  destruct (click_confirm _ _ _) as [[v|e] w1] eqn:C;
    unfold click_confirm in C;
    pose proof (confirm_loop_console _ _ _ _ _ _ C) as [more Cm];
    apply confirm_loop_untouched in C;
    destruct C as [Cf Cc]; cbn [files calls console show] in Cf, Cc, Cm;
    rewrite <- !app_assoc in Cm.
  - destruct (py_truthy v); unfold logging, subprocess_call, ret;
      intros E; injection E as <- <-; cbn [files calls console];
      (split; [exact Cf|]); (split; [exists more; exact Cm|]).
    + right. split; [reflexivity | now rewrite Cc].
    + now left.
  - intros E. injection E as <- <-. split; [exact Cf|].
    split; [exists more; exact Cm | now left].
Qed.

Lemma prepared_build (env : Env) (name : string)
    (copy : option LocalWorkflow) (fl : dict pyval) (cat : list Param)
    (w : World) :
  Forall (fun item => BoolOrText (snd item)) fl ->
  let L := set_parameters cat (set_nxf_flags fl (prepared env name copy)) in
  build_command env L w
  = (Ok (set_nextflow_cmd (built_command env name fl) L),
     with_files
       (dict_set (audit_file env) (in_full_json cat)
          (dict_set (params_file env) (in_nextflow_json cat) (files w)))
       (add_logs (reports "warning"
                    "TODO: Can't set false boolean flags currently." fl) w)).
Proof.
  intros F L. unfold build_command, bind, add_flag.
  change (nxf_flags L) with fl. rewrite (add_tokens_run _ _ _ _ _ _ F).
  change (use_params_file L) with true.
  change (nextflow_cmd L) with ("nextflow run " +++ name).
  change (parameters L) with cat.
  unfold create_nfx_params_file, write_params_as_full_json, bind,
    write_file, ret, built_command. cbn [parameters].
  change (parameters L) with cat.
  rewrite !append_assoc. reflexivity.
Qed.


Lemma prepared_defaults (env : Env) (name : string)
    (copy : option LocalWorkflow) :
  Forall (fun item => BoolOrText (prompt_default (snd item)))
    (nxf_flag_defaults (prepared env name copy)).
Proof.
  cbn [prepared group_parameters set_grouped_parameters set_parameters
       set_local_wf new_launcher nxf_flag_defaults].
  repeat (apply Forall_cons;
          [cbn [snd prompt_default];
           (right; eexists; reflexivity) || (left; eexists; reflexivity)|]).
  apply Forall_nil.
Qed.

Lemma launch_outcome (env : Env) (wf : string)
    (params_local_uri : option string) (direct : bool)
    (w w' : World) (r : res unit) :
  launch_pipeline env wf params_local_uri direct w = (r, w') ->
  ((exists e, r = Raise e)
   /\ files w' = files w
   /\ calls w' = calls w ++ pulls env (final_name env wf))
  \/ (exists fl cat pre more,
        Forall (fun item => BoolOrText (snd item)) fl
        /\ map without_value cat
           = map without_value (loaded_catalog env (final_name env wf))
        /\ (direct = true -> cat = loaded_catalog env (final_name env wf))
        /\ files w'
           = dict_set (audit_file env) (in_full_json cat)
               (dict_set (params_file env) (in_nextflow_json cat) (files w))
        /\ console w'
           = pre ++ [Text.newline +++ Text.newline +++ "Nextflow command:";
                     "  " +++ built_command env (final_name env wf) fl
                     +++ Text.newline +++ Text.newline;
                     run_question] ++ more
        /\ (calls w' = calls w ++ pulls env (final_name env wf)
            \/ (r = Ok tt
                /\ calls w'
                   = calls w ++ pulls env (final_name env wf)
                     ++ [built_command env (final_name env wf) fl]))).
Proof.
  unfold launch_pipeline. rewrite (bind_run _ _ _ _ _ (init_run env wf w)).
  set (name := final_name env wf). set (w0 := add_logs _ w).
  set (P := fun v : World =>
              files v = files w /\ calls v = calls w ++ pulls env name).
  assert (Keep : forall v v', P v -> Untouched v v' -> P v').
  { intros v v' [Pf Pc] [Uf Uc]. split; congruence. }
  unfold bind at 1.
  destruct (get_local_wf env (new_launcher env name) w0) as [[L1|e] w1] eqn:G;
    apply get_local_wf_outcome in G; destruct G as (Gf & Gc & G);
    assert (P1 : P w1) by (split; [exact Gf | exact Gc]); clear Gf Gc.
  { destruct (G L1 eq_refl) as [copy ->]. clear G.
    intros E. apply load_catalog_outcome in E.
    destruct E as [[Er U]|(w3 & U3 & E)].
    { left. split; [exact Er|]. exact (Keep _ _ P1 U). }
    pose proof (Keep _ _ P1 U3) as P3. clear P1 U3 w1. revert E.
    change (group_parameters
              (set_parameters (loaded_catalog env name)
                 (set_local_wf copy (new_launcher env name))))
      with (prepared env name copy).
    unfold bind at 1.
    destruct (prompt_core_nxf_flags (prepared env name copy) w3)
      as [[L5|e] w5] eqn:Fl.
    2:{ intros E. injection E as <- <-. left. split; [eauto|].
        apply flags_untouched in Fl. exact (Keep _ _ P3 Fl). }
    pose proof (Keep _ _ P3 (flags_untouched _ _ _ _ Fl)) as P5.
    pose proof (flag_prompts_bool_or_text _ _ _ _
                  (prepared_defaults env name copy) (Forall_nil _) Fl) as F.
    apply flags_same in Fl. unfold SameButFlags in Fl.
    rewrite Fl. clear Fl. revert F. generalize (nxf_flags L5).
    intros fl F. clear L5 P3 w3.
    unfold bind at 1.
    assert (Built : forall cat w6,
              P w6 ->
              map without_value cat
              = map without_value (loaded_catalog env name) ->
              (direct = true -> cat = loaded_catalog env name) ->
              bind (build_command env
                      (set_parameters cat
                         (set_nxf_flags fl (prepared env name copy))))
                (fun launcher => launch_workflow launcher) w6 = (r, w') ->
              exists fl0 cat0 pre more,
                Forall (fun item => BoolOrText (snd item)) fl0
                /\ map without_value cat0
                   = map without_value (loaded_catalog env name)
                /\ (direct = true -> cat0 = loaded_catalog env name)
                /\ files w'
                   = dict_set (audit_file env) (in_full_json cat0)
                       (dict_set (params_file env) (in_nextflow_json cat0)
                          (files w))
                /\ console w'
                   = pre ++ [Text.newline +++ Text.newline
                             +++ "Nextflow command:";
                             "  " +++ built_command env name fl0
                             +++ Text.newline +++ Text.newline;
                             run_question] ++ more
                /\ (calls w' = calls w ++ pulls env name
                    \/ (r = Ok tt
                        /\ calls w'
                           = calls w ++ pulls env name
                             ++ [built_command env name fl0]))).
    { intros cat w6 [Pf Pc] Sh Dir.
      rewrite (bind_run _ _ _ _ _ (prepared_build env name copy fl cat w6 F)).
      intros E. apply launch_workflow_outcome in E.
      cbn [files calls console with_files add_logs nextflow_cmd
           set_nextflow_cmd command_display] in E.
      destruct E as (Ef & [more Em] & Ec). exists fl, cat, (console w6), more.
      split; [exact F|]. split; [exact Sh|]. split; [exact Dir|].
      split; [now rewrite Ef, Pf|]. split; [exact Em|].
      rewrite Pc in Ec. rewrite <- app_assoc in Ec. exact Ec. }
    destruct direct; cbn [negb].
    - unfold ret at 1. intros E. right.
      apply (Built _ _ P5 eq_refl (fun _ => eq_refl) E).
    - destruct (prompt_param_flags env
                  (set_nxf_flags fl (prepared env name copy)) w5)
        as [[L6|e] w6] eqn:Se.
      2:{ intros E. injection E as <- <-. left. split; [eauto|].
          apply session_untouched in Se. exact (Keep _ _ P5 Se). }
      pose proof (Keep _ _ P5 (session_untouched _ _ _ _ _ Se)) as P6.
      pose proof (prompt_param_flags_shape _ _ _ _ _ Se) as Sh.
      apply prompt_param_flags_frame in Se. unfold SameButParameters in Se.
      rewrite Se. intros E. right. apply (Built _ _ P6 Sh); [discriminate|].
      exact E. }
  intros E. injection E as <- <-. left. split; [eauto | exact P1].
Qed.

(** X12. A launch hands at most two commands of its own to
    [subprocess].  The first is the pull of the workflow, exactly when
    no cached copy was found.
    The second is started only by a launch that completes, and it is
    the command the launch showed before asking whether to run it:
    nextflow run and the workflow's final name, the tokens of a flag
    set of booleans and text, and the reference to the params file. *)
Theorem launch_runs_at_most_its_command (env : Env) (wf : string)
    (params_local_uri : option string) (direct : bool) (w w' : World)
    (r : res unit) :
  launch_pipeline env wf params_local_uri direct w = (r, w') ->
  calls w' = calls w ++ pulls env (final_name env wf)
  \/ (r = Ok tt
      /\ exists cmd fl pre more,
           calls w' = calls w ++ pulls env (final_name env wf) ++ [cmd]
           /\ console w'
              = pre ++ [Text.newline +++ Text.newline +++ "Nextflow command:";
                        "  " +++ cmd +++ Text.newline +++ Text.newline;
                        run_question] ++ more
           /\ Forall (fun item => BoolOrText (snd item)) fl
           /\ cmd = built_command env (final_name env wf) fl).
Proof.
  intros E. apply launch_outcome in E.
  destruct E as [(_ & _ & C)
                | (fl & cat & pre & more & F & _ & _ & _ & K & [C | [R C]])].
  - now left.
  - now left.
  - right. split; [exact R|].
    exists (built_command env (final_name env wf) fl), fl, pre, more.
    repeat split; assumption.
Qed.

(** X13. A launch that completes has written the two record files from
    the catalog it loaded: the parameters of the settings file when it
    gives any, else those collected from the configuration.  They are
    written in full, with the names, types, defaults and groups as
    loaded; in a direct launch the values are those loaded too.  A
    launch that raises before the command is built writes no file. *)
Theorem launch_writes_the_loaded_catalog (env : Env) (wf : string)
    (params_local_uri : option string) (direct : bool) (w w' : World)
    (r : res unit) :
  launch_pipeline env wf params_local_uri direct w = (r, w') ->
  (r = Ok tt ->
     exists cat,
       map without_value cat
       = map without_value (loaded_catalog env (final_name env wf))
       /\ (direct = true -> cat = loaded_catalog env (final_name env wf))
       /\ files w'
          = dict_set (audit_file env) (in_full_json cat)
              (dict_set (params_file env) (in_nextflow_json cat) (files w)))
  /\ (files w' = files w
      \/ exists cat,
           files w'
           = dict_set (audit_file env) (in_full_json cat)
               (dict_set (params_file env) (in_nextflow_json cat) (files w))).
Proof.
  intros E. apply launch_outcome in E.
  destruct E as [([e ->] & Uf & _)
                | (fl & cat & pre & more & _ & Sh & Dir & Fi & _)].
  - split; [discriminate | now left].
  - split; [intros _; exists cat; repeat split; assumption|].
    right. now exists cat.
Qed.


(** ** Escaped values can be read back *)

Lemma escape_quotes_cons (a : ascii) (s : string) :
  escape_quotes (String a s)
  = if Ascii.eqb a Text.dquote
    then String Text.backslash (String Text.dquote (escape_quotes s))
    else String a (escape_quotes s).
Proof.
  unfold escape_quotes. cbn [Text.replace_char].
  destruct (Ascii.eqb a Text.dquote); reflexivity.
Qed.

Lemma escape_quotes_head (s : string) (t : string) :
  escape_quotes s <> String Text.dquote t.
Proof.
  destruct s as [|a s]; [discriminate|]. rewrite escape_quotes_cons.
  destruct (Ascii.eqb_spec a Text.dquote) as [->|N].
  - discriminate.
  - intros E. injection E as E _. contradiction.
Qed.

Lemma unescape_escape (s : string) :
  unescape_quotes (escape_quotes s) = s.
Proof.
  induction s as [|a s IH]; [reflexivity|]. rewrite escape_quotes_cons.
  destruct (Ascii.eqb_spec a Text.dquote) as [->|N].
  - cbn [unescape_quotes]. rewrite !Ascii.eqb_refl. cbn [andb].
    now rewrite IH.
  - cbn [unescape_quotes].
    destruct (escape_quotes s) as [|b t] eqn:E.
    + destruct s as [|c s']; [reflexivity|].
      rewrite escape_quotes_cons in E.
      destruct (Ascii.eqb c Text.dquote); discriminate E.
    + destruct (Ascii.eqb_spec b Text.dquote) as [->|Nb].
      * exfalso. exact (escape_quotes_head s t E).
      * rewrite andb_false_r. now rewrite IH.
Qed.

(** X14. Escaping the double quotes of a flag value loses nothing:
    dropping the backslash before each double quote gives the value
    back, so two values with the same escaped text, and hence the same
    token in the command, are the same value. *)
Theorem escaped_value_reads_back (s1 s2 flag : string) :
  unescape_quotes (escape_quotes s1) = s1
  /\ (escape_quotes s1 = escape_quotes s2 -> s1 = s2)
  /\ (token "" (flag, VStr s1) = token "" (flag, VStr s2) -> s1 = s2).
Proof.
  split; [apply unescape_escape|].
  assert (I : escape_quotes s1 = escape_quotes s2 -> s1 = s2).
  { intros E. rewrite <- (unescape_escape s1), <- (unescape_escape s2).
    now rewrite E. }
  split; [exact I|]. unfold token. cbn [fst snd]. intros E.
  rewrite <- !escape_backslashed in E.
  change (in_quotes (escape_quotes s1))
    with (Text.chr Text.dquote +++ escape_quotes s1 +++ Text.chr Text.dquote)
    in E.
  change (in_quotes (escape_quotes s2))
    with (Text.chr Text.dquote +++ escape_quotes s2 +++ Text.chr Text.dquote)
    in E.
  apply I.
  assert (C : forall a x y, a +++ x = a +++ y -> x = y).
  { induction a as [|c a IHa]; cbn; intros x y Q; [exact Q|].
    injection Q as Q. now apply IHa. }
  apply C in E. apply C in E. apply C in E. apply C in E. apply C in E.
  assert (R : forall x y c, x +++ Text.chr c = y +++ Text.chr c -> x = y).
  { induction x as [|a x IHx]; intros [|b y] c Q; cbn in Q.
    - reflexivity.
    - injection Q as _ Q. destruct y; discriminate Q.
    - injection Q as _ Q. destruct x; discriminate Q.
    - injection Q as -> Q. f_equal. now apply (IHx y c). }
  exact (R _ _ _ E).
Qed.

(** ** The flag prompts and the end of the input *)

Lemma prompt_flag_step (L : Launch) (item : string * pyval) (w : World) :
  dict_get (fst item) (nxf_flag_help L) <> None ->
  match prompt_flag L item w with
  | (Ok L', w') =>
      length (stdin w') < length (stdin w)
      /\ nxf_flag_help L' = nxf_flag_help L
  | (Raise e, _) => e = Abort
  end.
Proof.
  destruct item as [flag f0]. cbn [fst]. intros Hh.
  unfold prompt_flag, bind at 1, lift.
  destruct (dict_get flag (nxf_flag_help L)) as [help|]; [|contradiction].
  cbn [of_option]. unfold bind, click_prompt.
  pose proof (prompt_loop_outcome
                (flag_prompt_text help flag f0 +++ ": ") (prompt_default f0)
                (stdin w) w) as O.
  destruct (prompt_loop _ _ _ w) as [[u|e] w1] eqn:P; [|exact O].
  apply prompt_loop_consumes in P. destruct P as [P _].
  specialize (P u eq_refl).
  destruct (negb _); unfold ret; split; try exact P; reflexivity.
Qed.

Lemma flags_need_input (items : dict pyval) (L : Launch) (w : World) :
  (forall item, In item items ->
                dict_get (fst item) (nxf_flag_help L) <> None) ->
  length (stdin w) < length items ->
  exists w', foldM prompt_flag items L w = (Raise Abort, w').
Proof.
  revert L w. induction items as [|item items IH]; intros L w Hh Hl;
    [cbn in Hl; lia|].
  cbn [foldM]. unfold bind.
  pose proof (prompt_flag_step L item w (Hh item (or_introl eq_refl))) as S.
  destruct (prompt_flag L item w) as [[L1|e] w1].
  - destruct S as [S1 S2]. apply IH.
    + intros it I. rewrite S2. apply Hh. now right.
    + cbn [length] in Hl. lia.
  - subst e. eauto.
Qed.

(** X15. The flag prompts read at least one line for every run flag:
    when fewer lines are left on the input than there are flags, the
    prompts end with click's [Abort], having written no file and run
    no command. *)
Theorem flag_prompts_abort_on_short_input (L : Launch) (w : World) :
  (forall item, In item (nxf_flag_defaults L) ->
                dict_get (fst item) (nxf_flag_help L) <> None) ->
  length (stdin w) < length (nxf_flag_defaults L) ->
  exists w',
    prompt_core_nxf_flags L w = (Raise Abort, w')
    /\ files w' = files w /\ calls w' = calls w.
Proof.
  intros Hh Hl.
  destruct (flags_need_input (nxf_flag_defaults L) L
              (show "Main nextflow options" w) Hh Hl) as [w' E].
  exists w'. unfold prompt_core_nxf_flags. rewrite bind_echo.
  split; [exact E|].
  assert (U : Untouched w w').
  { apply (flags_untouched L w w' (Raise Abort)).
    unfold prompt_core_nxf_flags. now rewrite bind_echo. }
  exact U.
Qed.

(** ** The keys of the flag Override Set *)

Lemma dict_mem_In {V} (k : string) (d : dict V) :
  dict_mem k d = false -> ~ In k (dict_keys d).
Proof.
  rewrite dict_mem_keys. intros E I.
  assert (T : existsb (String.eqb k) (dict_keys d) = true).
  { apply existsb_exists. exists k. split; [exact I | apply String.eqb_refl]. }
  congruence.
Qed.

Lemma dict_set_NoDup {V} (k : string) (v : V) (d : dict V) :
  NoDup (dict_keys d) -> NoDup (dict_keys (dict_set k v d)).
Proof.
  intros N. rewrite dict_keys_set. destruct (dict_mem k d) eqn:M; [exact N|].
  apply dict_mem_In in M. apply NoDup_app; [exact N | repeat constructor; intros [] |].
  intros x I [<-|[]]. contradiction.
Qed.

Lemma dict_set_keys_incl {V} (k : string) (v : V) (d : dict V) (x : string) :
  In x (dict_keys (dict_set k v d)) -> In x (dict_keys d) \/ x = k.
Proof.
  rewrite dict_keys_set. destruct (dict_mem k d); [now left|].
  rewrite in_app_iff. intros [I|[<-|[]]]; [now left | now right].
Qed.

Lemma prompt_flag_keys (L L' : Launch) (flag : string) (f0 : pyval)
    (w w' : World) :
  prompt_flag L (flag, f0) w = (Ok L', w') ->
  (NoDup (dict_keys (nxf_flags L)) -> NoDup (dict_keys (nxf_flags L')))
  /\ forall x, In x (dict_keys (nxf_flags L')) ->
               In x (dict_keys (nxf_flags L)) \/ x = flag.
Proof.
  unfold prompt_flag, bind at 1, lift.
  destruct (of_option KeyError (dict_get flag (nxf_flag_help L))) as [help|e];
    [|discriminate].
  unfold bind. destruct (click_prompt _ _ w) as [[u|e] w1]; [|discriminate].
  destruct (negb _); unfold ret; intros E; injection E as <- _;
    cbn [nxf_flags set_nxf_flags].
  - split; [apply dict_set_NoDup | apply dict_set_keys_incl].
  - split; [trivial | now left].
Qed.

(** X16. Whatever the operator types, the flag Override Set a new
    launcher ends with holds each flag at most once, and holds only the
    five run flags. *)
Theorem flag_override_set_has_run_flags_once (env : Env) (wf : string)
    (w w' : World) (L' : Launch) :
  prompt_core_nxf_flags (new_launcher env wf) w = (Ok L', w') ->
  NoDup (dict_keys (nxf_flags L'))
  /\ incl (dict_keys (nxf_flags L')) run_flags.
Proof.
  unfold prompt_core_nxf_flags. rewrite bind_echo. intros E.
  set (R := fun L1 L2 : Launch =>
              (NoDup (dict_keys (nxf_flags L1)) ->
               NoDup (dict_keys (nxf_flags L2)))
              /\ forall x, In x (dict_keys (nxf_flags L2)) ->
                           In x (dict_keys (nxf_flags L1)) \/ In x run_flags).
  assert (Inv : R (new_launcher env wf) L').
  { eapply (foldM_invariant R); [| | |exact E].
    - intros L1. split; [trivial | now left].
    - intros L1 L2 L3 [N1 I1] [N2 I2]. split; [auto|].
      intros x X. destruct (I2 x X) as [X2|X2]; [|now right].
      apply I1, X2.
    - intros L1 [flag f0] w1 L2 w2 I P.
      apply prompt_flag_keys in P. destruct P as [N K]. split; [exact N|].
      intros x X. destruct (K x X) as [X1| ->]; [now left|]. right.
      cbn [nxf_flag_defaults new_launcher] in I. unfold run_flags.
      repeat (destruct I as [I|I]; [injection I as <- _; cbn; tauto|]).
      destruct I. }
  destruct Inv as [N I]. split.
  - apply N. constructor.
  - intros x X. destruct (I x X) as [[]|X']. exact X'.
Qed.


(** ** The lookup of the cached copy *)

Lemma find_local_wf_none (name : string) (wfs : list LocalWorkflow)
    (acc : option LocalWorkflow) :
  (forall c, In c wfs -> full_name c <> name) ->
  fold_left (fun found wf =>
               if String.eqb name (full_name wf) then Some wf else found)
            wfs acc = acc.
Proof.
  revert acc. induction wfs as [|x wfs IH]; intros acc N; [reflexivity|].
  cbn [fold_left]. rewrite IH by (intros c I; apply N; now right).
  destruct (String.eqb_spec name (full_name x)) as [E|_]; [|reflexivity].
  exfalso. apply (N x); [now left | now symmetry].
Qed.

Lemma find_local_wf_some (name : string) (wfs : list LocalWorkflow)
    (c : LocalWorkflow) :
  fold_left (fun found wf =>
               if String.eqb name (full_name wf) then Some wf else found)
            wfs (Some c) <> None.
Proof.
  revert c. induction wfs as [|x wfs IH]; intros c; cbn [fold_left].
  - discriminate.
  - destruct (String.eqb name (full_name x)); apply IH.
Qed.

(** X17. The loop of [__init__] over the local workflows finds a cached
    copy exactly when one has the final name as its full name, and when
    several have it, it keeps the last of them. *)
Theorem cached_copy_is_last_match (name : string)
    (wfs : list LocalWorkflow) :
  (find_local_wf name wfs = None
   <-> forall c, In c wfs -> full_name c <> name)
  /\ (forall pre c post,
        wfs = pre ++ c :: post -> full_name c = name ->
        (forall d, In d post -> full_name d <> name) ->
        find_local_wf name wfs = Some c).
Proof.
  split.
  - split.
    + intros E c I F.
      apply in_split in I. destruct I as (pre & post & ->).
      unfold find_local_wf in E. rewrite fold_left_app in E.
      cbn [fold_left] in E. rewrite F, String.eqb_refl in E.
      exact (find_local_wf_some _ _ _ E).
    + intros N. unfold find_local_wf. now apply find_local_wf_none.
  - intros pre c post -> F N. unfold find_local_wf.
    rewrite fold_left_app. cbn [fold_left].
    rewrite F, String.eqb_refl. now apply find_local_wf_none.
Qed.

(** ** What [build_command] does to the command *)

Lemma add_token_appends (dashes level msg cmd : string)
    (item : string * pyval) (w : World) (cmd' : string) (w' : World) :
  add_token dashes level msg cmd item w = (Ok cmd', w') ->
  exists s, cmd' = cmd +++ s.
Proof.
  destruct item as [flag v].
  destruct v as [|[|]|z|f|s]; cbn [add_token]; unfold raise;
    try discriminate.
  - unfold ret. intros E. injection E as <- _.
    now exists (" " +++ dashes +++ flag).
  - unfold bind, logging, ret. intros E. injection E as <- _.
    exists "". now rewrite append_empty_r.
  - unfold ret. intros E. injection E as <- _.
    now exists (" " +++ dashes +++ flag +++ " " +++ quoted (escape_quotes s)).
Qed.

Lemma add_tokens_append (dashes level msg : string) (items : dict pyval)
    (cmd : string) (w : World) (cmd' : string) (w' : World) :
  foldM (add_token dashes level msg) items cmd w = (Ok cmd', w') ->
  exists s, cmd' = cmd +++ s.
Proof.
  apply (foldM_invariant (fun c c' => exists s, c' = c +++ s)).
  - intros b. exists "". now rewrite append_empty_r.
  - intros b1 b2 b3 [s ->] [t ->]. exists (s +++ t).
    now rewrite append_assoc.
  - intros b a w0 b' w0' _. apply add_token_appends.
Qed.

(** X18. Whenever [build_command] returns, the launcher it leaves is the
    one it was given but for the command, and the new command is the old
    one with text put after it: nothing already in the command is
    removed or rewritten, in either mode. *)
Theorem build_command_only_appends (env : Env) (L : Launch) (w : World)
    (L' : Launch) (w' : World) :
  build_command env L w = (Ok L', w') ->
  exists suffix, L' = set_nextflow_cmd (nextflow_cmd L +++ suffix) L.
Proof.
  unfold build_command, add_flag, add_param. unfold bind at 1.
  destruct (foldM _ (nxf_flags L) (nextflow_cmd L) w)
    as [[cmd|e] w1] eqn:F; [|discriminate].
  apply add_tokens_append in F. destruct F as [s ->].
  destruct (use_params_file L).
  - unfold bind at 1.
    destruct (create_nfx_params_file env L w1) as [[path|e] w2];
      [|discriminate].
    unfold bind at 1.
    destruct (write_params_as_full_json env L w2) as [[o|e] w3];
      [|discriminate].
    unfold ret. intros E. injection E as <- _.
    exists (s +++ " " +++ "--params-file" +++ " " +++ quoted path).
    now rewrite append_assoc.
  - unfold bind at 1.
    destruct (foldM _ (params_user L) _ w1) as [[cmd'|e] w2] eqn:P;
      [|discriminate].
    apply add_tokens_append in P. destruct P as [t ->].
    unfold ret. intros E. injection E as <- _.
    exists (s +++ t). now rewrite append_assoc.
Qed.

Lemma add_tokens_raise (dashes level msg : string) (items : dict pyval)
    (item : string * pyval) (cmd : string) (w : World) :
  In item items -> ~ BoolOrText (snd item) ->
  exists w', foldM (add_token dashes level msg) items cmd w
             = (Raise AttributeError, w')
             /\ Untouched w w'.
Proof.
  intros I N. revert cmd w.
  induction items as [|[flag v] items IH]; intros cmd w; [contradiction|].
  assert (T : BoolOrText v -> In item items).
  { intros B. destruct I as [<-|I]; [contradiction | exact I]. }
  cbn [foldM]. unfold bind.
  destruct v as [|b|z|f|s];
    try (exists w; split; [reflexivity | apply untouched_refl]).
  - rewrite add_token_run by (left; now exists b).
    destruct (IH (T (or_introl (ex_intro _ b eq_refl)))
                 (cmd +++ token dashes (flag, VBool b))
                 (add_logs (reports level msg [(flag, VBool b)]) w))
      as (w' & E & U).
    exists w'. split; [exact E|].
    destruct U as [U1 U2]. split; [exact U1 | exact U2].
  - rewrite add_token_run by (right; now exists s).
    destruct (IH (T (or_intror (ex_intro _ s eq_refl)))
                 (cmd +++ token dashes (flag, VStr s))
                 (add_logs (reports level msg [(flag, VStr s)]) w))
      as (w' & E & U).
    exists w'. split; [exact E|].
    destruct U as [U1 U2]. split; [exact U1 | exact U2].
Qed.

(** X19. A flag Override Set holding a value that is neither a boolean
    nor a text (nothing, or a number) makes [build_command] raise
    [AttributeError], from [val.replace], before either parameter file
    is written and with nothing run. *)
Theorem non_text_flag_raises (env : Env) (L : Launch) (w : World)
    (flag : string) (v : pyval) :
  In (flag, v) (nxf_flags L) -> ~ BoolOrText v ->
  exists w', build_command env L w = (Raise AttributeError, w')
             /\ files w' = files w /\ calls w' = calls w.
Proof.
  intros I N.
  destruct (add_tokens_raise "" "warning"
              "TODO: Can't set false boolean flags currently."
              (nxf_flags L) (flag, v) (nextflow_cmd L) w I N)
    as (w' & E & U).
  exists w'. split; [|exact U].
  unfold build_command, add_flag. unfold bind at 1. now rewrite E.
Qed.

End Properties.

(* ================================================================== *)
(** * The claims on concrete sessions *)
(* ================================================================== *)

Section Sessions.
#[local] Existing Instance DecimalFloat.
#[local] Existing Instance Latin1Text.

Lemma bare_rnaseq : BareName env0 "rnaseq".
Proof. apply prepends_spec. reflexivity. Defined.

(** [__init__] on the bare name rnaseq. *)
Lemma init_prepends_organisation_witness :
  exists L w',
    init env0 "rnaseq" (typing []) = (Ok L, w')
    /\ workflow L = "nf-core/rnaseq".
Proof.
  destruct (init_prepends_organisation env0 "rnaseq" (typing []))
    as (L & w' & E & B & _).
  exists L, w'. split; [exact E | exact (B bare_rnaseq)].
Defined.

Lemma digits_12 : DigitsOnly "12".
Proof. apply plain_digits_spec. reflexivity. Defined.

Lemma not_digits (s : string) : Text.plain_digits s = false -> ~ DigitsOnly s.
Proof. intros E D. apply plain_digits_spec in D. congruence. Defined.

(** The guess on 12, on 1.5, on a path, and on the two words. *)
Lemma guess_param_precedence_witness :
  guess_param "12" = Ok ("integer", VInt 12)
  /\ guess_param "1.5" = Ok ("decimal", VFloat (Decimal.mk 15 1))
  /\ guess_param "./results" = Ok ("string", VStr "./results")
  /\ guess_param "true" = Ok ("boolean", VBool true)
  /\ guess_param "false" = Ok ("boolean", VBool false).
Proof.
  split; [|split; [|split; [|split]]].
  - exact (proj1 (guess_param_precedence "12" (ascii7_check "12" eq_refl))
             digits_12).
  - apply (proj1 (proj2 (guess_param_precedence "1.5"
                           (ascii7_check "1.5" eq_refl)))).
    + apply not_digits. reflexivity.
    + reflexivity.
    + discriminate.
    + discriminate.
  - apply (proj1 (proj2 (proj2 (guess_param_precedence "./results"
                                  (ascii7_check "./results" eq_refl))))).
    + apply not_digits. reflexivity.
    + reflexivity.
    + discriminate.
    + discriminate.
  - apply (proj1 (proj2 (proj2 (proj2 (guess_param_precedence "true"
                                         (ascii7_check "true" eq_refl)))))).
    reflexivity.
  - apply (proj2 (proj2 (proj2 (proj2 (guess_param_precedence "false"
                                         (ascii7_check "false" eq_refl)))))).
    reflexivity.
Defined.

(** C4. A configured value that is a superscript two: [str.isdigit]
    holds of it, so the guess takes the integer branch, and [int]
    refuses it.  The text is not made of decimal digits and is no
    float, so the precedence of the claim makes it a string; the guess
    raises [ValueError] instead, and with it the fallback and the
    launch. *)
Theorem digit_that_writes_no_number_raises :
  ~ DigitsOnly superscript_two
  /\ float_of_string superscript_two = None
  /\ superscript_two <> "true" /\ superscript_two <> "false"
  /\ str_isdigit superscript_two = true
  /\ int_of_str superscript_two = None
  /\ guess_param superscript_two = Raise ValueError
  /\ fst (collect_pipeline_param_defaults env_power
            (new_launcher env_power "nf-core/rnaseq") (typing []))
     = Raise ValueError
  /\ fst (launch_pipeline env_power "rnaseq" None true (typing []))
     = Raise ValueError.
Proof.
  split; [apply not_digits; reflexivity|].
  split; [reflexivity|]. split; [discriminate|]. split; [discriminate|].
  split; [reflexivity|]. split; [reflexivity|]. split; [reflexivity|].
  split; reflexivity.
Qed.

Lemma flags_bool_or_text :
  Forall (fun item : string * pyval => BoolOrText (snd item))
    [("-name", VStr odd_name); ("-resume", VBool true); ("-r", VBool false)].
Proof.
  apply Forall_cons; [right; now exists odd_name|].
  apply Forall_cons; [left; now exists true|].
  apply Forall_cons; [left; now exists false|].
  apply Forall_nil.
Defined.

(** The flag loop on a name with a quote in it, a resume toggle and a
    false revision. *)
Lemma build_command_flag_tokens_witness :
  foldM add_flag
    [("-name", VStr odd_name); ("-resume", VBool true); ("-r", VBool false)]
    "nextflow run nf-core/rnaseq" (typing [])
  = (Ok ("nextflow run nf-core/rnaseq -name "
         +++ in_quotes ("run" +++ String Text.backslash (Text.chr Text.dquote)
                        +++ "1")
         +++ " -resume"),
     mkWorld [] []
       [("warning", "TODO: Can't set false boolean flags currently.")] [] []).
Proof.
  exact (proj1 (build_command_flag_tokens _ "nextflow run nf-core/rnaseq"
                  (typing []) flags_bool_or_text)).
Defined.

(** The gate, answered with y. *)
Lemma launch_asks_before_running_witness :
  launch_workflow (launcher_with [reads]) (typing ["y"])
  = (Ok tt,
     mkWorld [] (command_display (launcher_with [reads]) ++ [run_question])
       [("info", "Launching workflow!")] []
       ["nextflow run nf-core/rnaseq"]).
Proof.
  apply (proj1 (launch_asks_before_running (launcher_with [reads])
                  (typing ["y"])) "y" []).
  - reflexivity.
  - left. reflexivity.
Defined.

(** Grouping a catalog of three parameters in two groups. *)
Lemma group_parameters_first_seen_order_witness :
  grouped_parameters (launcher_with [reads; genome; outdir])
  = [("Pipeline parameters", [0; 2]); ("Reference", [1])]
  /\ dict_keys (grouped_parameters (launcher_with [reads; genome; outdir]))
     = first_seen (map group [reads; genome; outdir]).
Proof.
  split; [reflexivity|].
  exact (proj1 (group_parameters_first_seen_order
                  (set_parameters [reads; genome; outdir]
                     (new_launcher env0 "nf-core/rnaseq"))
                  eq_refl)).
Defined.

(** C5. [group_parameters] run a second time on the same launcher: the
    grouping of the catalog of three parameters in two groups is not
    reproduced; the groups and their order are kept, and every
    parameter is in its group twice. *)
Theorem group_parameters_not_idempotent :
  let L := launcher_with [reads; genome; outdir] in
  parameters (group_parameters L) = [reads; genome; outdir]
  /\ grouped_parameters L
     = [("Pipeline parameters", [0; 2]); ("Reference", [1])]
  /\ grouped_parameters (group_parameters L)
     = [("Pipeline parameters", [0; 2; 0; 2]); ("Reference", [1; 1])]
  /\ objects (parameters L) [0; 2; 0; 2] = [reads; outdir; reads; outdir]
  /\ group_parameters L <> L.
Proof.
  intros L. split; [reflexivity|]. split; [reflexivity|].
  split; [reflexivity|]. split; [reflexivity|].
  intros E. apply (f_equal grouped_parameters) in E. discriminate E.
Qed.

Lemma inline_sets_bool_or_text :
  Forall (fun item : string * pyval => BoolOrText (snd item))
    (nxf_flags inline_launcher)
  /\ Forall (fun item : string * pyval => BoolOrText (snd item))
       (params_user inline_launcher).
Proof.
  split; (apply Forall_cons; [left; eexists; reflexivity | apply Forall_nil]).
Defined.

(** The two modes of [build_command] on the same launcher. *)
Lemma build_command_modes_witness :
  build_command env0 inline_launcher (typing [])
  = (Ok (set_nextflow_cmd "nextflow run nf-core/rnaseq -resume"
           inline_launcher),
     mkWorld [] [] [("error", "Can't set false boolean flags.")] [] []).
Proof.
  exact (proj1 (proj2 (build_command_modes env0 inline_launcher (typing [])
                         (proj1 inline_sets_bool_or_text)
                         (proj2 inline_sets_bool_or_text)))
           eq_refl).
Defined.

(** C7, the claim as stated: in inline mode the parameter Override Set
    holds the entry save_all and the command text has no token for it. *)
Lemma inline_mode_omits_false_entry :
  exists L' w',
    build_command env0 inline_launcher (typing []) = (Ok L', w')
    /\ params_user L' = [("save_all", VBool false)]
    /\ nextflow_cmd L' = "nextflow run nf-core/rnaseq -resume"
    /\ Text.contains "save_all" (nextflow_cmd L') = false.
Proof. eexists. eexists. repeat split. Qed.



Lemma reads_accepted : validate env0 (set_value (VInt 4) reads) = None.
Proof. reflexivity. Defined.

Lemma abc_and_a_decimal_refused :
  Forall (fun l => l <> "" /\ int_of_str l = None) ["abc"; "4.5"].
Proof.
  apply Forall_cons; [split; [discriminate | reflexivity]|].
  apply Forall_cons; [split; [discriminate | reflexivity]|].
  apply Forall_nil.
Defined.

Lemma one_refusal : Forall SaysNo ["n"].
Proof. apply Forall_cons; [left; reflexivity | apply Forall_nil]. Defined.

Lemma four_is_typed : "4" <> "".
Proof. discriminate. Defined.

(** Scenario A on a fresh terminal, with a second refused line and a
    second parameter, in a group the operator declines. *)
Lemma scenario_reads_retry_witness :
  prompt_param_flags env0 (launcher_with [reads; genome])
    (typing ["y"; "abc"; "4.5"; "4"; "n"])
  = (Ok (set_parameters [set_value (VInt 4) reads; genome]
           (launcher_with [reads; genome])),
     mkWorld []
       [group_header "Pipeline parameters"; group_question;
        first_prompt reads; "Error: abc is not a valid integer";
        first_prompt reads; "Error: 4.5 is not a valid integer";
        first_prompt reads;
        group_header "Reference"; group_question] [] [] []).
Proof.
  exact (proj1 (scenario_reads_retry env0 (launcher_with [reads; genome])
                  0 reads 1 4 [("Reference", [1])]
                  (typing ["y"; "abc"; "4.5"; "4"; "n"])
                  ["abc"; "4.5"] "4" ["n"] []
                  eq_refl eq_refl eq_refl eq_refl eq_refl
                  abc_and_a_decimal_refused four_is_typed eq_refl
                  reads_accepted eq_refl one_refusal eq_refl)).
Defined.

(** C1, the claim as stated: after Scenario A the value 4 is held by the
    parameter and the parameter Override Set has no entry for reads. *)
Lemma scenario_reads_not_in_override_set :
  exists L' w',
    prompt_param_flags env0 (launcher_with [reads])
      (typing ["y"; "abc"; "4"]) = (Ok L', w')
    /\ map value (parameters L') = [VInt 4]
    /\ params_user L' = []
    /\ dict_get "reads" (params_user L') <> Some (VInt 4).
Proof.
  eexists. eexists. split; [reflexivity|].
  repeat split. discriminate.
Qed.

(** C3. The whole launch for a configuration that declares the boolean
    save_all = true: the operator keeps the flag defaults, opens the
    group and answers y.  The catalog declares save_all boolean, and
    the value the session leaves in it, and writes to the params file,
    is the text True. *)
Theorem boolean_answer_stored_as_text :
  let run := launch_pipeline env_save_all "rnaseq" None false
               (typing [""; ""; ""; ""; ""; "y"; "y"; "n"]) in
  fst run = Ok tt
  /\ files (snd run)
     = [("/home/user/nfx-params.json", JObj [("save_all", JStr "True")]);
        ("/home/user/full-params.json",
         JObj [("save_all",
                JObj [("type", JStr "boolean"); ("label", JNull);
                      ("usage", JNull); ("choices", JNull);
                      ("group", JStr "Pipeline parameters");
                      ("value", JStr "True")])])]
  /\ coerce "boolean" (VBool true) = Ok (VStr "True")
  /\ runtime_type (VStr "True") <> Some "boolean".
Proof.
  intros run. split; [reflexivity|]. split; [reflexivity|].
  split; [reflexivity | discriminate].
Qed.


Lemma two_params_readable :
  Readable (fetch_wf_config env_two_params
              (workflow (new_launcher env_two_params "nf-core/rnaseq"))).
Proof.
  intros key n v I K [D N]. cbn [fetch_wf_config env_two_params] in I.
  destruct I as [E|[E|[E|[]]]]; injection E as <- <-.
  - discriminate N.
  - discriminate D.
  - discriminate N.
Defined.

(** The fallback on two parameters: their defaults. *)
Lemma synthesized_defaults_have_declared_type_witness :
  exists L' w',
    collect_pipeline_param_defaults env_two_params
      (new_launcher env_two_params "nf-core/rnaseq") (typing []) = (Ok L', w')
    /\ Forall (fun p => runtime_type (default_value p) = Some (param_type p))
         (parameters L').
Proof.
  destruct (synthesized_defaults_have_declared_type env_two_params
              (new_launcher env_two_params "nf-core/rnaseq") (typing [])
              two_params_readable)
    as (L' & w' & new & E & P & T).
  exists L', w'. split; [exact E|]. rewrite P. exact T.
Defined.

(** The fallback on two parameters: their names. *)
Lemma synthesized_names_are_distinct_witness :
  exists L' w',
    collect_pipeline_param_defaults env_two_params
      (new_launcher env_two_params "nf-core/rnaseq") (typing []) = (Ok L', w')
    /\ NoDup (map name (parameters L'))
    /\ Forall (fun p => ~ HasChar "." (name p)) (parameters L').
Proof.
  apply (synthesized_names_are_distinct env_two_params
           (new_launcher env_two_params "nf-core/rnaseq") (typing [])).
  - reflexivity.
  - cbn. repeat constructor; cbn; intuition discriminate.
  - exact two_params_readable.
Defined.

(** Text typed for depth, which has no default. *)
Lemma integer_without_default_raises_witness :
  prompt_parameter env0 (launcher_with [depth]) 0 (typing ["deep"])
  = (Raise ValueError, mkWorld [] [first_prompt depth] [] [] []).
Proof.
  apply (integer_without_default_raises env0 (launcher_with [depth]) 0 depth
           (typing ["deep"]) "deep" []); try reflexivity.
  discriminate.
Defined.

(** A genome the validator does not know, then one it knows. *)
Lemma rejected_value_is_asked_again_witness :
  prompt_parameter env_genomes (launcher_with [genome]) 0
    (typing ["hg19"; "GRCh37"])
  = (Ok (set_parameters [set_value (VStr "GRCh37") genome]
           (launcher_with [genome])),
     mkWorld []
       [first_prompt genome; Text.newline +++ "ERROR: " +++ "unknown genome";
        "Please try again:"; retry_prompt genome] [] [] []).
Proof.
  apply (rejected_value_is_asked_again env_genomes (launcher_with [genome]) 0
           genome (typing ["hg19"; "GRCh37"]) "GRCh38" "hg19" "GRCh37"
           "unknown genome" []); try reflexivity; discriminate.
Defined.

Lemma two_refusals : Forall SaysNo ["n"; ""].
Proof.
  apply Forall_cons; [left; reflexivity|].
  apply Forall_cons; [right; right; reflexivity | apply Forall_nil].
Defined.

(** Two groups, both declined, and one line left for what follows. *)
Lemma declined_groups_are_skipped_witness :
  prompt_param_flags env0 (launcher_with [reads; genome])
    (typing ["n"; ""; "y"])
  = (Ok (launcher_with [reads; genome]),
     mkWorld ["y"]
       [group_header "Pipeline parameters"; group_question;
        group_header "Reference"; group_question] [] [] []).
Proof.
  exact (declined_groups_are_skipped env0 (launcher_with [reads; genome])
           (typing ["n"; ""; "y"]) ["n"; ""] ["y"]
           eq_refl two_refusals eq_refl).
Defined.

(** A session that changes outdir. *)
Lemma session_changes_values_only_witness :
  map without_value [set_value (VStr "out") outdir]
  = map without_value (parameters (launcher_with [outdir])).
Proof.
  exact (proj1 (session_changes_values_only env0 (launcher_with [outdir])
                  (set_parameters [set_value (VStr "out") outdir]
                     (launcher_with [outdir]))
                  (typing ["y"; "out"])
                  (mkWorld []
                     [group_header "Pipeline parameters"; group_question;
                      first_prompt outdir] [] [] [])
                  eq_refl)).
Defined.

(** The partition of three parameters in two groups. *)
Lemma grouping_is_a_partition_witness :
  NoDup (dict_keys (grouped_parameters
                      (group_parameters (ungrouped [reads; genome; outdir])))).
Proof.
  exact (proj1 (grouping_is_a_partition (ungrouped [reads; genome; outdir])
                  eq_refl)).
Defined.

Lemma reads_castable : Forall CastableDefault [reads].
Proof.
  apply Forall_cons; [|apply Forall_nil]. split.
  - intros _. now exists 1%Z.
  - discriminate.
Defined.

(** The input ends at the prompt for reads. *)
Lemma session_completes_or_aborts_witness :
  fst (prompt_param_flags env0 (group_parameters (ungrouped [reads]))
         (typing ["y"]))
  = Raise Abort.
Proof.
  destruct (prompt_param_flags env0 (group_parameters (ungrouped [reads]))
              (typing ["y"])) as [[L'|e] w'] eqn:E.
  - discriminate E.
  - cbn [fst]. f_equal.
    exact (session_completes_or_aborts env0 (ungrouped [reads]) (typing ["y"])
             w' e eq_refl reads_castable E).
Defined.

(** File mode on a launcher with one parameter. *)
Lemma file_mode_leaves_both_files_witness :
  exists L' w',
    build_command env0 (launcher_with [reads]) (typing []) = (Ok L', w')
    /\ dict_get "/home/user/nfx-params.json" (files w')
       = Some (JObj [("reads", JInt 1)]).
Proof.
  destruct (file_mode_leaves_both_files env0 (launcher_with [reads])
              (typing []) eq_refl (Forall_nil _))
    as (L' & w' & E & P & _).
  exists L', w'. split; [exact E | exact P].
Defined.

Lemma exit_status_is_no_oserror :
  pull_error env_no_pull (final_name env_no_pull "rnaseq") <> OtherOSError
  \/ given None = false.
Proof. left. discriminate. Defined.

(** A launch of rnaseq when the pull ends with an error status. *)
Lemma failed_pull_stops_the_launch_witness :
  exists w',
    launch_pipeline env_no_pull "rnaseq" None false (typing ["y"])
    = (Raise AssertionError, w')
    /\ stdin w' = ["y"] /\ console w' = []
    /\ calls w' = ["nextflow pull nf-core/rnaseq"].
Proof.
  destruct (failed_pull_stops_the_launch env_no_pull "rnaseq" None false
              (typing ["y"]) eq_refl eq_refl exit_status_is_no_oserror)
    as (w' & E & S & C & _ & K).
  exists w'. split; [exact E|]. split; [exact S|]. split; [exact C | exact K].
Defined.

(** A direct launch, confirmed. *)
Lemma launch_runs_at_most_its_command_witness :
  let run := launch_pipeline env_save_all "rnaseq" None true
               (typing [""; ""; ""; ""; ""; "y"]) in
  calls (snd run) = [] ++ pulls env_save_all (final_name env_save_all "rnaseq")
  \/ (fst run = Ok tt
      /\ exists cmd fl pre more,
           calls (snd run)
           = [] ++ pulls env_save_all (final_name env_save_all "rnaseq")
             ++ [cmd]
           /\ console (snd run)
              = pre ++ [Text.newline +++ Text.newline +++ "Nextflow command:";
                        "  " +++ cmd +++ Text.newline +++ Text.newline;
                        run_question] ++ more
           /\ Forall (fun item : string * pyval => BoolOrText (snd item)) fl
           /\ cmd = built_command env_save_all
                      (final_name env_save_all "rnaseq") fl).
Proof.
  intros run.
  exact (launch_runs_at_most_its_command env_save_all "rnaseq" None true
           (typing [""; ""; ""; ""; ""; "y"]) (snd run) (fst run)
           (surjective_pairing run)).
Defined.

(** The same launch, for its files. *)
Lemma launch_writes_the_loaded_catalog_witness :
  let run := launch_pipeline env_save_all "rnaseq" None true
               (typing [""; ""; ""; ""; ""; "y"]) in
  exists cat,
    cat = loaded_catalog env_save_all (final_name env_save_all "rnaseq")
    /\ files (snd run)
       = dict_set (audit_file env_save_all) (in_full_json cat)
           (dict_set (params_file env_save_all) (in_nextflow_json cat) []).
Proof.
  intros run.
  destruct (proj1 (launch_writes_the_loaded_catalog env_save_all "rnaseq"
                     None true
                     (typing [""; ""; ""; ""; ""; "y"]) (snd run) (fst run)
                     (surjective_pairing run)) eq_refl)
    as (cat & _ & D & F).
  exists cat. split; [exact (D eq_refl) | exact F].
Defined.

(** A name with a quote in it, and one without. *)
Lemma escaped_value_reads_back_witness :
  unescape_quotes (escape_quotes odd_name) = odd_name
  /\ (escape_quotes odd_name = escape_quotes "run1" -> odd_name = "run1").
Proof.
  destruct (escaped_value_reads_back odd_name "run1" "-name") as (A & B & _).
  split; [exact A | exact B].
Defined.

Lemma new_launcher_help :
  forall item,
    In item (nxf_flag_defaults (new_launcher env0 "nf-core/rnaseq")) ->
    dict_get (fst item) (nxf_flag_help (new_launcher env0 "nf-core/rnaseq"))
    <> None.
Proof.
  intros item I. cbn [nxf_flag_defaults new_launcher] in I.
  repeat (destruct I as [<-|I]; [discriminate|]). destruct I.
Defined.

Lemma three_lines_are_short :
  length (stdin (typing ["run1"; ""; "test"]))
  < length (nxf_flag_defaults (new_launcher env0 "nf-core/rnaseq")).
Proof. cbn. repeat constructor. Defined.

(** Three lines for five flags. *)
Lemma flag_prompts_abort_on_short_input_witness :
  exists w',
    prompt_core_nxf_flags (new_launcher env0 "nf-core/rnaseq")
      (typing ["run1"; ""; "test"]) = (Raise Abort, w')
    /\ files w' = [] /\ calls w' = [].
Proof.
  exact (flag_prompts_abort_on_short_input (new_launcher env0 "nf-core/rnaseq")
           (typing ["run1"; ""; "test"]) new_launcher_help
           three_lines_are_short).
Defined.

(** The flag prompts with a name and a profile typed. *)
Lemma flag_override_set_has_run_flags_once_witness :
  NoDup ["-name"; "-profile"] /\ incl ["-name"; "-profile"] run_flags.
Proof.
  exact (flag_override_set_has_run_flags_once env0 "nf-core/rnaseq"
           (typing ["run1"; ""; "test"; ""; ""])
           (snd (prompt_core_nxf_flags (new_launcher env0 "nf-core/rnaseq")
                   (typing ["run1"; ""; "test"; ""; ""])))
           (set_nxf_flags [("-name", VStr "run1"); ("-profile", VStr "test")]
              (new_launcher env0 "nf-core/rnaseq"))
           eq_refl).
Defined.

(** Two cached copies of the same workflow: the later one is kept. *)
Lemma cached_copy_is_last_match_witness :
  find_local_wf "nf-core/rnaseq"
    [mkLocalWorkflow "nf-core/rnaseq" "/old";
     mkLocalWorkflow "nf-core/chipseq" "/other";
     mkLocalWorkflow "nf-core/rnaseq" "/new"]
  = Some (mkLocalWorkflow "nf-core/rnaseq" "/new").
Proof.
  apply (proj2 (cached_copy_is_last_match "nf-core/rnaseq" _)
           [mkLocalWorkflow "nf-core/rnaseq" "/old";
            mkLocalWorkflow "nf-core/chipseq" "/other"]
           (mkLocalWorkflow "nf-core/rnaseq" "/new") [] eq_refl eq_refl).
  intros d [].
Defined.

(** Inline mode with [-resume] set and one false parameter. *)
Lemma build_command_only_appends_witness :
  exists suffix,
    set_nextflow_cmd "nextflow run nf-core/rnaseq -resume" inline_launcher
    = set_nextflow_cmd (nextflow_cmd inline_launcher +++ suffix)
        inline_launcher.
Proof.
  exact (build_command_only_appends env0 inline_launcher (typing [])
           (set_nextflow_cmd "nextflow run nf-core/rnaseq -resume"
              inline_launcher)
           (snd (build_command env0 inline_launcher (typing [])))
           eq_refl).
Defined.

(** A revision that is a number, not a text. *)
Lemma non_text_flag_raises_witness :
  exists w',
    build_command env0
      (set_nxf_flags [("-resume", VBool true); ("-r", VInt 2)]
         (launcher_with [reads]))
      (typing [])
    = (Raise AttributeError, w')
    /\ files w' = [] /\ calls w' = [].
Proof.
  apply (non_text_flag_raises env0
           (set_nxf_flags [("-resume", VBool true); ("-r", VInt 2)]
              (launcher_with [reads]))
           (typing []) "-r" (VInt 2)).
  - right. left. reflexivity.
  - intros [[b E]|[t E]]; discriminate.
Defined.

End Sessions.
